(** * trackingService.ts: event batching and presence heartbeat

    A shallow embedding of [src/trackingService.ts].  The module keeps its
    state in module-level [let] bindings and talks to three collaborators:
    the browser ([localStorage], timers, listeners, [navigator.sendBeacon]),
    the remote sink ([analyticsClient]) and the clock ([Date.now()]).  All of
    them are gathered here in one [State] record that every function of the
    module transforms; an [async] function is cut at each [await] into the
    synchronous segment that runs up to it and a continuation parked in
    [awaiting] until the host delivers the answer.

    Timestamps are milliseconds ([Z]); [new Date().toISOString()] is kept as
    the millisecond count it prints.  The read-only queries of the module
    write none of its state.  Two of them, [getPopularBusinesses] and
    [getHourlyStats], fold the rows they read and are embedded in the section
    on the read side.  [getLiveUsersCount], [getAnalyticsSummary],
    [getAllUsers] and [getRecentVisits] hand the sink's answer on, and
    [getDailyStats] rests on the host's date formatting and locale
    comparison; these are left out. *)

From Stdlib Require Import ZArith List Bool Lia.
From Stdlib Require Import Permutation.
From stdpp Require Import base gmap strings list pretty.
Import ListNotations.

Local Open Scope Z_scope.

(** ** Types *)

Inductive EventType := view | call | whatsapp | share.

(** The payloads the module hands to [queueEvent] ([data: any] in the source):
    the object literal of [trackBusinessInteraction] and the visit log literal
    of [trackUserVisit] / [initializeTracking]. *)
Inductive Payload :=
| InteractionRow (event_type : EventType) (business_id device_id : string)
                 (user_name : option string) (created_at : Z)
| VisitRow (device_id : string) (user_name : option string)
           (page_path : string) (referrer : option string) (visited_at : Z).

(** An element of [eventQueue]: [{ table, data }]. *)
Record QueuedEvent := { table : string; data : Payload }.

(** The object upserted into [live_users] and posted by the final beacon. *)
Record PresenceRow := {
  p_device_id : string;
  p_user_name : option string;
  is_active : bool;
  last_ping : Z
}.

(** [analyticsClient]: only its [supabaseUrl] is read by this module; its
    query builder is represented by the [SinkCall]s below. *)
Record Client := { supabaseUrl : string }.

(** The row [trackUserVisit] reads back; only [total_visits] is used. *)
Record UserRow := { total_visits : option Z }.

(** Every request this module sends to the outside. *)
Inductive SinkCall :=
| Insert (tbl : string) (rows : list Payload)
| Upsert (tbl : string) (row : PresenceRow) (onConflict : string)
| FetchUser (device_id : string)
| UpdateUserVisit (device_id user_name : string) (last_visit_at total : Z)
| InsertUser (user_name device_id user_agent : string) (total : Z)
| TouchUser (device_id : string) (last_visit_at : Z)
| SendBeacon (url : string) (body : PresenceRow).

(** What the sink answers: [{ error }] for a write, [{ data, error }] with
    the error code for the single-row fetch. *)
Inductive Response :=
| WriteResult (error : option string)
| FetchResult (existingUser : option UserRow) (fetchError : option string).

(** A suspended [async] function: what remains to run after its [await]. *)
Inductive Cont :=
| KFlushInteractions (visitLogs : list QueuedEvent)
| KFlushVisits
| KPing
| KLive (deviceId : string) (userName : option string) (pinged : bool)
| KTrackFetch (userName deviceId userAgent : string)
| KTrackWrite (userName deviceId : string) (updating : bool)
| KInitTouch.

(** A live [setInterval(() => sendPing(deviceId, userName), PING_INTERVAL)]:
    its handle, its next due time and the two values its closure captured. *)
Record Interval := {
  i_handle : nat;
  i_due : Z;
  i_deviceId : string;
  i_userName : option string
}.

(** A [beforeunload] listener: the module-level one (last lines of the file)
    or the closure registered by [startLiveTracking]. *)
Inductive Listener :=
| FlushOnUnload
| FinalPing (deviceId : string) (userName : option string).

(** What does not change while the page lives: the two constants imported
    from [./analyticsClient] ([None] is a [null] client), [navigator.userAgent],
    [document.referrer], and the strings
    [Math.random().toString(36).substr(2, 9)] evaluates to, call after call. *)
Record Env := {
  isAnalyticsEnabled : bool;
  analyticsClient : option Client;
  userAgent : string;
  referrer : string;
  mathRandom : nat -> string
}.

(** The clock ([now] is [Date.now()]), [window.location.pathname], the
    storage and the count of [Math.random] calls; then the module's own
    bindings ([eventQueue], [flushTimeout], [pingInterval], [lastActivity],
    [isTabActive]); then what the host holds for the module: the next timer
    handle, the pending timeouts and live intervals, the [beforeunload]
    listeners in registration order, the suspended [async] functions, and the
    logs of the requests sent and of [console.error]. *)
Record State := {
  now : Z;
  pathname : string;
  localStorage : gmap string string;
  rngCalls : nat;
  eventQueue : list QueuedEvent;
  flushTimeout : option nat;
  pingInterval : option nat;
  lastActivity : Z;
  isTabActive : bool;
  nextHandle : nat;
  timeouts : list (nat * Z);
  intervals : list Interval;
  unloadListeners : list Listener;
  awaiting : list Cont;
  sink : list SinkCall;
  console : list string
}.

(** ** Field updates *)

Definition with_now (v : Z) (s : State) : State :=
  {| now := v; pathname := pathname s; localStorage := localStorage s;
     rngCalls := rngCalls s; eventQueue := eventQueue s;
     flushTimeout := flushTimeout s; pingInterval := pingInterval s;
     lastActivity := lastActivity s; isTabActive := isTabActive s;
     nextHandle := nextHandle s; timeouts := timeouts s;
     intervals := intervals s; unloadListeners := unloadListeners s;
     awaiting := awaiting s; sink := sink s; console := console s |}.

Definition with_pathname (v : string) (s : State) : State :=
  {| now := now s; pathname := v; localStorage := localStorage s;
     rngCalls := rngCalls s; eventQueue := eventQueue s;
     flushTimeout := flushTimeout s; pingInterval := pingInterval s;
     lastActivity := lastActivity s; isTabActive := isTabActive s;
     nextHandle := nextHandle s; timeouts := timeouts s;
     intervals := intervals s; unloadListeners := unloadListeners s;
     awaiting := awaiting s; sink := sink s; console := console s |}.

Definition with_localStorage (v : gmap string string) (s : State) : State :=
  {| now := now s; pathname := pathname s; localStorage := v;
     rngCalls := rngCalls s; eventQueue := eventQueue s;
     flushTimeout := flushTimeout s; pingInterval := pingInterval s;
     lastActivity := lastActivity s; isTabActive := isTabActive s;
     nextHandle := nextHandle s; timeouts := timeouts s;
     intervals := intervals s; unloadListeners := unloadListeners s;
     awaiting := awaiting s; sink := sink s; console := console s |}.

Definition with_rngCalls (v : nat) (s : State) : State :=
  {| now := now s; pathname := pathname s; localStorage := localStorage s;
     rngCalls := v; eventQueue := eventQueue s;
     flushTimeout := flushTimeout s; pingInterval := pingInterval s;
     lastActivity := lastActivity s; isTabActive := isTabActive s;
     nextHandle := nextHandle s; timeouts := timeouts s;
     intervals := intervals s; unloadListeners := unloadListeners s;
     awaiting := awaiting s; sink := sink s; console := console s |}.

Definition with_eventQueue (v : list QueuedEvent) (s : State) : State :=
  {| now := now s; pathname := pathname s; localStorage := localStorage s;
     rngCalls := rngCalls s; eventQueue := v;
     flushTimeout := flushTimeout s; pingInterval := pingInterval s;
     lastActivity := lastActivity s; isTabActive := isTabActive s;
     nextHandle := nextHandle s; timeouts := timeouts s;
     intervals := intervals s; unloadListeners := unloadListeners s;
     awaiting := awaiting s; sink := sink s; console := console s |}.

Definition with_flushTimeout (v : option nat) (s : State) : State :=
  {| now := now s; pathname := pathname s; localStorage := localStorage s;
     rngCalls := rngCalls s; eventQueue := eventQueue s;
     flushTimeout := v; pingInterval := pingInterval s;
     lastActivity := lastActivity s; isTabActive := isTabActive s;
     nextHandle := nextHandle s; timeouts := timeouts s;
     intervals := intervals s; unloadListeners := unloadListeners s;
     awaiting := awaiting s; sink := sink s; console := console s |}.

Definition with_pingInterval (v : option nat) (s : State) : State :=
  {| now := now s; pathname := pathname s; localStorage := localStorage s;
     rngCalls := rngCalls s; eventQueue := eventQueue s;
     flushTimeout := flushTimeout s; pingInterval := v;
     lastActivity := lastActivity s; isTabActive := isTabActive s;
     nextHandle := nextHandle s; timeouts := timeouts s;
     intervals := intervals s; unloadListeners := unloadListeners s;
     awaiting := awaiting s; sink := sink s; console := console s |}.

Definition with_lastActivity (v : Z) (s : State) : State :=
  {| now := now s; pathname := pathname s; localStorage := localStorage s;
     rngCalls := rngCalls s; eventQueue := eventQueue s;
     flushTimeout := flushTimeout s; pingInterval := pingInterval s;
     lastActivity := v; isTabActive := isTabActive s;
     nextHandle := nextHandle s; timeouts := timeouts s;
     intervals := intervals s; unloadListeners := unloadListeners s;
     awaiting := awaiting s; sink := sink s; console := console s |}.

Definition with_isTabActive (v : bool) (s : State) : State :=
  {| now := now s; pathname := pathname s; localStorage := localStorage s;
     rngCalls := rngCalls s; eventQueue := eventQueue s;
     flushTimeout := flushTimeout s; pingInterval := pingInterval s;
     lastActivity := lastActivity s; isTabActive := v;
     nextHandle := nextHandle s; timeouts := timeouts s;
     intervals := intervals s; unloadListeners := unloadListeners s;
     awaiting := awaiting s; sink := sink s; console := console s |}.

Definition with_nextHandle (v : nat) (s : State) : State :=
  {| now := now s; pathname := pathname s; localStorage := localStorage s;
     rngCalls := rngCalls s; eventQueue := eventQueue s;
     flushTimeout := flushTimeout s; pingInterval := pingInterval s;
     lastActivity := lastActivity s; isTabActive := isTabActive s;
     nextHandle := v; timeouts := timeouts s;
     intervals := intervals s; unloadListeners := unloadListeners s;
     awaiting := awaiting s; sink := sink s; console := console s |}.

Definition with_timeouts (v : list (nat * Z)) (s : State) : State :=
  {| now := now s; pathname := pathname s; localStorage := localStorage s;
     rngCalls := rngCalls s; eventQueue := eventQueue s;
     flushTimeout := flushTimeout s; pingInterval := pingInterval s;
     lastActivity := lastActivity s; isTabActive := isTabActive s;
     nextHandle := nextHandle s; timeouts := v;
     intervals := intervals s; unloadListeners := unloadListeners s;
     awaiting := awaiting s; sink := sink s; console := console s |}.

Definition with_intervals (v : list Interval) (s : State) : State :=
  {| now := now s; pathname := pathname s; localStorage := localStorage s;
     rngCalls := rngCalls s; eventQueue := eventQueue s;
     flushTimeout := flushTimeout s; pingInterval := pingInterval s;
     lastActivity := lastActivity s; isTabActive := isTabActive s;
     nextHandle := nextHandle s; timeouts := timeouts s;
     intervals := v; unloadListeners := unloadListeners s;
     awaiting := awaiting s; sink := sink s; console := console s |}.

Definition with_unloadListeners (v : list Listener) (s : State) : State :=
  {| now := now s; pathname := pathname s; localStorage := localStorage s;
     rngCalls := rngCalls s; eventQueue := eventQueue s;
     flushTimeout := flushTimeout s; pingInterval := pingInterval s;
     lastActivity := lastActivity s; isTabActive := isTabActive s;
     nextHandle := nextHandle s; timeouts := timeouts s;
     intervals := intervals s; unloadListeners := v;
     awaiting := awaiting s; sink := sink s; console := console s |}.

Definition with_awaiting (v : list Cont) (s : State) : State :=
  {| now := now s; pathname := pathname s; localStorage := localStorage s;
     rngCalls := rngCalls s; eventQueue := eventQueue s;
     flushTimeout := flushTimeout s; pingInterval := pingInterval s;
     lastActivity := lastActivity s; isTabActive := isTabActive s;
     nextHandle := nextHandle s; timeouts := timeouts s;
     intervals := intervals s; unloadListeners := unloadListeners s;
     awaiting := v; sink := sink s; console := console s |}.

Definition with_sink (v : list SinkCall) (s : State) : State :=
  {| now := now s; pathname := pathname s; localStorage := localStorage s;
     rngCalls := rngCalls s; eventQueue := eventQueue s;
     flushTimeout := flushTimeout s; pingInterval := pingInterval s;
     lastActivity := lastActivity s; isTabActive := isTabActive s;
     nextHandle := nextHandle s; timeouts := timeouts s;
     intervals := intervals s; unloadListeners := unloadListeners s;
     awaiting := awaiting s; sink := v; console := console s |}.

Definition with_console (v : list string) (s : State) : State :=
  {| now := now s; pathname := pathname s; localStorage := localStorage s;
     rngCalls := rngCalls s; eventQueue := eventQueue s;
     flushTimeout := flushTimeout s; pingInterval := pingInterval s;
     lastActivity := lastActivity s; isTabActive := isTabActive s;
     nextHandle := nextHandle s; timeouts := timeouts s;
     intervals := intervals s; unloadListeners := unloadListeners s;
     awaiting := awaiting s; sink := sink s; console := v |}.

(** ** Host primitives *)

(** Issue a request to the sink (calls are recorded oldest first). *)
Definition request (c : SinkCall) (s : State) : State :=
  with_sink (sink s ++ [c]) s.

(** Park the rest of an [async] function at an [await]. *)
Definition suspend (k : Cont) (s : State) : State :=
  with_awaiting (awaiting s ++ [k]) s.

Definition console_error (msg : string) (s : State) : State :=
  with_console (console s ++ [msg]) s.

(** [if (error) console.error(label, error)]. *)
Definition log_error (label : string) (error : option string) (s : State) : State :=
  match error with
  | Some e => console_error (label +:+ " " +:+ e) s
  | None => s
  end.

Definition error_of (r : Response) : option string :=
  match r with
  | WriteResult e => e
  | FetchResult _ e => e
  end.

(** [clearTimeout(h)]: forget the pending timeout [h], if any. *)
Definition clearTimeout (h : nat) (s : State) : State :=
  with_timeouts (List.filter (fun t => negb (Nat.eqb (fst t) h)) (timeouts s)) s.

(** [clearInterval(h)]. *)
Definition clearInterval (h : nat) (s : State) : State :=
  with_intervals (List.filter (fun i => negb (Nat.eqb (i_handle i) h)) (intervals s)) s.

(** [setTimeout(flushEvents, delay)]: the only callback ever given to
    [setTimeout] is [flushEvents], so a pending timeout is its handle and its
    due time.  Handles are drawn from one counter that starts at 1, as timer
    ids do, so a stored handle is always truthy. *)
Definition setTimeout (delay : Z) (s : State) : nat * State :=
  let h := nextHandle s in
  (h, with_timeouts (timeouts s ++ [(h, now s + delay)]) (with_nextHandle (S h) s)).

(** [setInterval(() => sendPing(deviceId, userName), delay)]. *)
Definition setInterval (deviceId : string) (userName : option string)
    (delay : Z) (s : State) : nat * State :=
  let h := nextHandle s in
  (h, with_intervals
        (intervals s ++ [{| i_handle := h; i_due := now s + delay;
                            i_deviceId := deviceId; i_userName := userName |}])
        (with_nextHandle (S h) s)).

(** JavaScript truthiness of a string: only the empty string is falsy. *)
Definition truthy (x : string) : bool :=
  match x with
  | EmptyString => false
  | String _ _ => true
  end.

(** ** The module *)

Definition DEVICE_ID_KEY : string := "jawala_device_id".
Definition USER_NAME_KEY : string := "jawala_user_name".
Definition FLUSH_INTERVAL : Z := 5000.
Definition MAX_QUEUE_SIZE : nat := 10.
Definition PING_INTERVAL : Z := 20000.
Definition ACTIVE_THRESHOLD : Z := 60000.
Definition MIN_ACTIVITY_GAP : Z := 10000.

Definition business_interactions : string := "business_interactions".
Definition visit_logs : string := "visit_logs".
Definition live_users : string := "live_users".

(** How a synchronous segment ends: normally, or by raising. *)
Inductive Completion (A : Type) :=
| Normal (a : A)
| Threw (message : string) (s : State).
Arguments Normal {A} a.
Arguments Threw {A} message s.

(** Modelled from the spec: [safeAnalyticsOperation] is imported from
    [./analyticsClient], which is not among the sources.  Following section 7
    of the specification, it runs the operation and, when the operation
    fails, logs the failure and yields the fallback instead of propagating
    it.  The sink reports its own failures in the [error] field of its
    answer, so none of the operations below raises. *)
Definition safeAnalyticsOperation {A : Type} (operation : State -> Completion A)
    (fallback : State -> A) (s : State) : A :=
  match operation s with
  | Normal a => a
  | Threw message s' => fallback (console_error message s')
  end.

Section TrackingService.

Variable env : Env.

(** *** Device id management *)

Definition getDeviceId (s : State) : string * State :=
  let fresh :=
    let deviceId := "device_" +:+ pretty (now s) +:+ "_" +:+ mathRandom env (rngCalls s) in
    (deviceId,
     with_localStorage (<[DEVICE_ID_KEY := deviceId]> (localStorage s))
       (with_rngCalls (S (rngCalls s)) s)) in
  match localStorage s !! DEVICE_ID_KEY with
  | Some deviceId => if truthy deviceId then (deviceId, s) else fresh
  | None => fresh
  end.

Definition getUserName (s : State) : option string :=
  localStorage s !! USER_NAME_KEY.

Definition setUserName (name : string) (s : State) : State :=
  with_localStorage (<[USER_NAME_KEY := name]> (localStorage s)) s.

Definition hasUserName (s : State) : bool :=
  match getUserName s with
  | Some name => truthy name
  | None => false
  end.

(** *** Event batching *)

Definition in_table (t : string) (e : QueuedEvent) : bool := String.eqb (table e) t.

Definition nonempty {A : Type} (l : list A) : bool := (0 <? length l)%nat.

Definition has_client : bool :=
  match analyticsClient env with
  | Some _ => true
  | None => false
  end.

(** The second half of the flush operation: the batch insert of the visit
    logs.  It runs at once when there were no interactions to insert, and
    after the first insert has been answered otherwise. *)
Definition flushVisitLogs (visitLogs : list QueuedEvent) (s : State) : Completion State :=
  if nonempty visitLogs && has_client
  then Normal (suspend KFlushVisits
                 (request (Insert visit_logs (List.map data visitLogs)) s))
  else Normal s.

(** The callback [flushEvents] passes to [safeAnalyticsOperation]. *)
Definition flushOperation (eventsToSend : list QueuedEvent) (s : State) : Completion State :=
  let businessInteractions := List.filter (in_table business_interactions) eventsToSend in
  let visitLogs := List.filter (in_table visit_logs) eventsToSend in
  if nonempty businessInteractions && has_client
  then Normal (suspend (KFlushInteractions visitLogs)
                 (request (Insert business_interactions
                             (List.map data businessInteractions)) s))
  else flushVisitLogs visitLogs s.

Definition flushEvents (s : State) : State :=
  if (length (eventQueue s) =? 0)%nat || negb (isAnalyticsEnabled env) then s
  else
    let eventsToSend := eventQueue s in
    let s := with_eventQueue [] s in
    safeAnalyticsOperation (flushOperation eventsToSend) (fun s => s) s.

Definition scheduleFlush (s : State) : State :=
  let s := match flushTimeout s with
           | Some h => clearTimeout h s
           | None => s
           end in
  let (h, s) := setTimeout FLUSH_INTERVAL s in
  with_flushTimeout (Some h) s.

Definition queueEvent (tbl : string) (d : Payload) (s : State) : State :=
  if negb (isAnalyticsEnabled env) then s
  else
    let s := with_eventQueue (eventQueue s ++ [{| table := tbl; data := d |}]) s in
    if (MAX_QUEUE_SIZE <=? length (eventQueue s))%nat
    then flushEvents s
    else scheduleFlush s.

(** *** Business interaction tracking *)

Definition trackBusinessInteraction (eventType : EventType) (businessId : string)
    (s : State) : State :=
  let (deviceId, s) := getDeviceId s in
  queueEvent business_interactions
    (InteractionRow eventType businessId deviceId (getUserName s) (now s)) s.

(** *** Live users tracking *)

(** [sendPing] up to its [await]; the boolean tells whether an upsert was
    issued, that is, whether an answer of the sink is still expected. *)
Definition sendPing (deviceId : string) (userName : option string) (s : State)
    : State * bool :=
  if negb (isTabActive s) || (MIN_ACTIVITY_GAP <? now s - lastActivity s)
     || negb (isAnalyticsEnabled env)
  then (s, false)
  else
    safeAnalyticsOperation
      (fun s =>
         match analyticsClient env with
         | None => Normal (s, false)
         | Some _ =>
             Normal (request (Upsert live_users
                                {| p_device_id := deviceId; p_user_name := userName;
                                   is_active := true; last_ping := now s |}
                                "device_id") s, true)
         end)
      (fun s => (s, false)) s.

(** [startLiveTracking] up to [await sendPing(deviceId, userName)]. *)
Definition startLiveTracking (s : State) : State :=
  if negb (isAnalyticsEnabled env) then s
  else
    let (deviceId, s) := getDeviceId s in
    let userName := getUserName s in
    let (s, pinged) := sendPing deviceId userName s in
    suspend (KLive deviceId userName pinged) s.

(** The rest of [startLiveTracking], after the initial ping has settled. *)
Definition startLiveTracking_rest (deviceId : string) (userName : option string)
    (s : State) : State :=
  let s := match pingInterval s with
           | Some h => clearInterval h s
           | None => s
           end in
  let (h, s) := setInterval deviceId userName PING_INTERVAL s in
  let s := with_pingInterval (Some h) s in
  with_unloadListeners (unloadListeners s ++ [FinalPing deviceId userName]) s.

(** The [beforeunload] closure registered by [startLiveTracking]. *)
Definition finalPing (deviceId : string) (userName : option string) (s : State) : State :=
  let s := match pingInterval s with
           | Some h => clearInterval h s
           | None => s
           end in
  match isAnalyticsEnabled env, analyticsClient env with
  | true, Some client =>
      request (SendBeacon (supabaseUrl client +:+ "/rest/v1/live_users")
                 {| p_device_id := deviceId; p_user_name := userName;
                    is_active := false; last_ping := now s |}) s
  | _, _ => s
  end.

(** *** Visit tracking *)

(** [document.referrer || null]. *)
Definition referrer_or_null : option string :=
  if truthy (referrer env) then Some (referrer env) else None.

Definition visitRow (deviceId userName : string) (s : State) : Payload :=
  VisitRow deviceId (Some userName) (pathname s) referrer_or_null (now s).

Definition trackUserVisit (userName : string) (s : State) : State :=
  if negb (isAnalyticsEnabled env)
  then setUserName userName s
  else
    safeAnalyticsOperation
      (fun s =>
         match analyticsClient env with
         | None => Normal s
         | Some _ =>
             let (deviceId, s) := getDeviceId s in
             Normal (suspend (KTrackFetch userName deviceId (userAgent env))
                       (request (FetchUser deviceId) s))
         end)
      (fun s => s) s.

(** [existingUser.total_visits || 0]. *)
Definition total_visits_or_0 (u : UserRow) : Z :=
  match total_visits u with
  | Some n => n
  | None => 0
  end.

Definition trackUserVisit_fetched (userName deviceId ua : string)
    (existingUser : option UserRow) (fetchError : option string) (s : State) : State :=
  let s := match fetchError with
           | Some code =>
               if String.eqb code "PGRST116" then s
               else console_error ("Error fetching user: " +:+ code) s
           | None => s
           end in
  match existingUser with
  | Some u =>
      suspend (KTrackWrite userName deviceId true)
        (request (UpdateUserVisit deviceId userName (now s) (total_visits_or_0 u + 1)) s)
  | None =>
      suspend (KTrackWrite userName deviceId false)
        (request (InsertUser userName deviceId ua 1) s)
  end.

Definition trackUserVisit_written (userName deviceId : string) (updating : bool)
    (error : option string) (s : State) : State :=
  let s := log_error (if updating then "Error updating user:" else "Error creating user:")
             error s in
  let s := queueEvent visit_logs (visitRow deviceId userName s) s in
  let s := setUserName userName s in
  startLiveTracking s.

Definition initializeTracking (s : State) : State :=
  if negb (isAnalyticsEnabled env) then s
  else
    safeAnalyticsOperation
      (fun s =>
         match analyticsClient env with
         | None => Normal s
         | Some _ =>
             let (deviceId, s) := getDeviceId s in
             match getUserName s with
             | Some userName =>
                 if truthy userName then
                   let s := queueEvent visit_logs (visitRow deviceId userName s) s in
                   Normal (suspend KInitTouch (request (TouchUser deviceId (now s)) s))
                 else Normal s
             | None => Normal s
             end
         end)
      (fun s => s) s.

(** *** Resuming after an [await] *)

(** What a parked continuation does once the sink has answered with [r]. *)
Definition continue (k : Cont) (r : Response) (s : State) : State :=
  match k with
  | KFlushInteractions visitLogs =>
      safeAnalyticsOperation
        (fun s => flushVisitLogs visitLogs
                    (log_error "Error inserting business interactions:" (error_of r) s))
        (fun s => s) s
  | KFlushVisits => log_error "Error inserting visit logs:" (error_of r) s
  | KPing => log_error "Error sending ping:" (error_of r) s
  | KLive deviceId userName pinged =>
      let s := if pinged then log_error "Error sending ping:" (error_of r) s else s in
      startLiveTracking_rest deviceId userName s
  | KTrackFetch userName deviceId ua =>
      match r with
      | FetchResult existingUser fetchError =>
          trackUserVisit_fetched userName deviceId ua existingUser fetchError s
      | WriteResult error =>
          trackUserVisit_fetched userName deviceId ua None error s
      end
  | KTrackWrite userName deviceId updating =>
      trackUserVisit_written userName deviceId updating (error_of r) s
  | KInitTouch => startLiveTracking s
  end.

(** The host resumes the [i]-th parked continuation with the answer [r];
    nothing happens when there is no such continuation. *)
Definition resume (i : nat) (r : Response) (s : State) : State :=
  match awaiting s !! i with
  | Some k => continue k r (with_awaiting (delete i (awaiting s)) s)
  | None => s
  end.

(** *** Timers and listeners *)

(** A pending timeout runs [flushEvents], no sooner than its due time. *)
Definition fireTimeout (h : nat) (s : State) : option State :=
  match List.find (fun t => Nat.eqb (fst t) h) (timeouts s) with
  | Some (_, due) =>
      if due <=? now s then Some (flushEvents (clearTimeout h s)) else None
  | None => None
  end.

(** A live interval runs its [sendPing] closure, no sooner than its due time,
    and is armed again. *)
Definition rearm (h : nat) (due : Z) (i : Interval) : Interval :=
  if Nat.eqb (i_handle i) h
  then {| i_handle := h; i_due := due; i_deviceId := i_deviceId i;
          i_userName := i_userName i |}
  else i.

Definition fireInterval (h : nat) (s : State) : option State :=
  match List.find (fun i => Nat.eqb (i_handle i) h) (intervals s) with
  | Some i =>
      if i_due i <=? now s then
        let s := with_intervals (List.map (rearm h (now s + PING_INTERVAL)) (intervals s)) s in
        let (s, pinged) := sendPing (i_deviceId i) (i_userName i) s in
        Some (if pinged then suspend KPing s else s)
      else None
  | None => None
  end.

(** The input listeners ([mousedown], [keydown], [scroll], [touchstart]). *)
Definition onActivity (s : State) : State := with_lastActivity (now s) s.

(** The [visibilitychange] listener; [hidden] is [document.hidden]. *)
Definition onVisibilityChange (hidden : bool) (s : State) : State :=
  let s := with_isTabActive (negb hidden) s in
  if isTabActive s then with_lastActivity (now s) s else s.

Definition runListener (l : Listener) (s : State) : State :=
  match l with
  | FlushOnUnload => flushEvents s
  | FinalPing deviceId userName => finalPing deviceId userName s
  end.

(** [beforeunload]: the listeners run in the order they were registered. *)
Definition beforeUnload (s : State) : State :=
  List.fold_left (fun s l => runListener l s) (unloadListeners s) s.

(** *** The page as a transition system *)

Inductive Action :=
| CallGetDeviceId
| CallSetUserName (name : string)
| CallTrackBusinessInteraction (eventType : EventType) (businessId : string)
| CallTrackUserVisit (userName : string)
| CallInitializeTracking
| CallStartLiveTracking
| Elapse (dt : Z)
| Navigate (path : string)
| UserActivity
| VisibilityChange (hidden : bool)
| FireTimeout (h : nat)
| FireInterval (h : nat)
| Resume (i : nat) (r : Response)
| BeforeUnload.

(** One task of the event loop; [None] when the host cannot run it now. *)
Definition step (a : Action) (s : State) : option State :=
  match a with
  | CallGetDeviceId => Some (snd (getDeviceId s))
  | CallSetUserName name => Some (setUserName name s)
  | CallTrackBusinessInteraction eventType businessId =>
      Some (trackBusinessInteraction eventType businessId s)
  | CallTrackUserVisit userName => Some (trackUserVisit userName s)
  | CallInitializeTracking => Some (initializeTracking s)
  | CallStartLiveTracking => Some (startLiveTracking s)
  | Elapse dt => if 0 <=? dt then Some (with_now (now s + dt) s) else None
  | Navigate path => Some (with_pathname path s)
  | UserActivity => Some (onActivity s)
  | VisibilityChange hidden => Some (onVisibilityChange hidden s)
  | FireTimeout h => fireTimeout h s
  | FireInterval h => fireInterval h s
  | Resume i r => if (i <? length (awaiting s))%nat then Some (resume i r s) else None
  | BeforeUnload => Some (beforeUnload s)
  end.

Fixpoint run (acts : list Action) (s : State) : option State :=
  match acts with
  | [] => Some s
  | a :: acts' =>
      match step a s with
      | Some s' => run acts' s'
      | None => None
      end
  end.

(** The state right after the module has been loaded at time [t0]: empty
    queue, no timer, [lastActivity = Date.now()], tab visible, and the
    module-level [beforeunload] listener in place. *)
Definition init (t0 : Z) (path : string) (stored : gmap string string) : State :=
  {| now := t0; pathname := path; localStorage := stored; rngCalls := 0%nat;
     eventQueue := []; flushTimeout := None; pingInterval := None;
     lastActivity := t0; isTabActive := true; nextHandle := 1%nat;
     timeouts := []; intervals := []; unloadListeners := [FlushOnUnload];
     awaiting := []; sink := []; console := [] |}.

(** [enqueueAll es s]: [queueEvent] called for each event of [es], in order. *)
Definition enqueueAll (es : list QueuedEvent) (s : State) : State :=
  List.fold_left (fun s e => queueEvent (table e) (data e) s) es s.

End TrackingService.

(** ** The read side

    The reporting functions send one query to the sink and fold its answer
    locally.  Each one is given as its two segments: up to the [await] (the
    query it asks, or what it returns when it asks none), and from the
    sink's answer [{ data, error }] on. *)

Inductive Query :=
| SelectInteractions
| SelectVisitTimes (gte lt : string).

Inductive Asked (A : Type) :=
| Returns (a : A)
| Asks (q : Query).
Arguments Returns {A} a.
Arguments Asks {A} q.

(** A row of [select('business_id, event_type')]. *)
Module Item.
Record t := { business_id : string; event_type : EventType }.
End Item.

(** The object [{ views: 0, calls: 0, whatsapp: 0, shares: 0 }], and the keys
    added to it afterwards in the order they were added; those all hold
    [NaN]. *)
Module Stats.
Record t := { views : Z; calls : Z; whatsapp : Z; shares : Z; others : list string }.
End Stats.

(** An element of the array [getPopularBusinesses] returns:
    [{ business_id, ...stats, total }]. *)
Module Popular.
Record t := { business_id : string; stats : Stats.t; total : Z }.
End Popular.

(** A JavaScript number as the hourly fold computes it: an integer, or
    [NaN]. *)
Inductive Number :=
| Num (n : Z)
| NaN.

(** An element of the array [getHourlyStats] returns. *)
Module Hourly.
Record t := { hour : Number; visits : Number }.
End Hourly.

(** The object [hourlyData]: the counters of the 24 keys the loop creates,
    and whether the key [NaN] has been added to them; that key holds
    [NaN]. *)
Record HourlyData := { counters : list Z; nan_key : bool }.

(** The string an event type is. *)
Definition event_name (e : EventType) : string :=
  match e with
  | view => "view"
  | call => "call"
  | whatsapp => "whatsapp"
  | share => "share"
  end.

Definition zero_stats : Stats.t :=
  {| Stats.views := 0; Stats.calls := 0; Stats.whatsapp := 0; Stats.shares := 0;
     Stats.others := [] |}.

(** [stats[key]++]: a counter is incremented; any other key reads
    [undefined] the first time, [undefined + 1] is [NaN], and [NaN] it
    stays. *)
Definition increment (key : string) (st : Stats.t) : Stats.t :=
  if String.eqb key "views" then
    {| Stats.views := Stats.views st + 1; Stats.calls := Stats.calls st;
       Stats.whatsapp := Stats.whatsapp st; Stats.shares := Stats.shares st;
       Stats.others := Stats.others st |}
  else if String.eqb key "calls" then
    {| Stats.views := Stats.views st; Stats.calls := Stats.calls st + 1;
       Stats.whatsapp := Stats.whatsapp st; Stats.shares := Stats.shares st;
       Stats.others := Stats.others st |}
  else if String.eqb key "whatsapp" then
    {| Stats.views := Stats.views st; Stats.calls := Stats.calls st;
       Stats.whatsapp := Stats.whatsapp st + 1; Stats.shares := Stats.shares st;
       Stats.others := Stats.others st |}
  else if String.eqb key "shares" then
    {| Stats.views := Stats.views st; Stats.calls := Stats.calls st;
       Stats.whatsapp := Stats.whatsapp st; Stats.shares := Stats.shares st + 1;
       Stats.others := Stats.others st |}
  else if existsb (String.eqb key) (Stats.others st) then st
  else
    {| Stats.views := Stats.views st; Stats.calls := Stats.calls st;
       Stats.whatsapp := Stats.whatsapp st; Stats.shares := Stats.shares st;
       Stats.others := Stats.others st ++ [key] |}.

(** The member names of [Object.prototype], which every object literal
    inherits. *)
Definition Object_prototype : list string :=
  ["constructor"; "__defineGetter__"; "__defineSetter__"; "hasOwnProperty";
   "__lookupGetter__"; "__lookupSetter__"; "isPrototypeOf"; "propertyIsEnumerable";
   "toString"; "valueOf"; "__proto__"; "toLocaleString"].

Definition inherited (key : string) : bool := existsb (String.eqb key) Object_prototype.

(** [counts]: the own entries of the object, in the order they were made. *)
Definition own (key : string) (counts : list (string * Stats.t)) : bool :=
  existsb (fun kv => String.eqb (fst kv) key) counts.

Fixpoint update (key : string) (f : Stats.t -> Stats.t) (counts : list (string * Stats.t))
    : list (string * Stats.t) :=
  match counts with
  | [] => []
  | (k, st) :: rest =>
      if String.eqb k key then (k, f st) :: rest else (k, st) :: update key f rest
  end.

(** The body of [data.forEach].  [counts[id]] is truthy when [id] is an own
    entry and also when it names a member of [Object.prototype]; in the
    latter case no entry is made and the increment lands on that member. *)
Definition countInteraction (counts : list (string * Stats.t)) (item : Item.t)
    : list (string * Stats.t) :=
  let id := Item.business_id item in
  let key := event_name (Item.event_type item) in
  if own id counts then update id (increment key) counts
  else if inherited id then counts
  else counts ++ [(id, increment key zero_stats)].

(** The array index a key is, if it is one: the canonical decimal string of
    an integer below 2^32 - 1. *)
Fixpoint digits (k : string) (acc : N) : option N :=
  match k with
  | EmptyString => Some acc
  | String c rest =>
      let n := Ascii.N_of_ascii c in
      if (48 <=? n)%N && (n <=? 57)%N then digits rest (10 * acc + (n - 48))%N else None
  end.

Definition array_index (k : string) : option N :=
  match k with
  | EmptyString => None
  | String _ _ =>
      match digits k 0%N with
      | Some n => if (n <? 4294967295)%N && String.eqb (pretty n) k then Some n else None
      | None => None
      end
  end.

Definition index_or_0 (kv : string * Stats.t) : N :=
  match array_index (fst kv) with
  | Some n => n
  | None => 0%N
  end.

Definition is_index (kv : string * Stats.t) : bool :=
  match array_index (fst kv) with
  | Some _ => true
  | None => false
  end.

Fixpoint insert_index (x : string * Stats.t) (l : list (string * Stats.t))
    : list (string * Stats.t) :=
  match l with
  | [] => [x]
  | y :: rest =>
      if (index_or_0 y <? index_or_0 x)%N then y :: insert_index x rest else x :: l
  end.

(** [Object.entries(counts)]: the array-index keys in ascending order, then
    the other keys in the order they were created. *)
Definition entries (counts : list (string * Stats.t)) : list (string * Stats.t) :=
  List.fold_right insert_index [] (List.filter is_index counts)
  ++ List.filter (fun kv => negb (is_index kv)) counts.

Definition popularRow (kv : string * Stats.t) : Popular.t :=
  {| Popular.business_id := fst kv; Popular.stats := snd kv;
     Popular.total := Stats.views (snd kv) + Stats.calls (snd kv)
                      + Stats.whatsapp (snd kv) + Stats.shares (snd kv) |}.

(** [.sort((a, b) => b.total - a.total)]: descending by [total], rows of
    equal total staying in the order they had ([Array.prototype.sort] is
    stable). *)
Fixpoint insert_desc (x : Popular.t) (l : list Popular.t) : list Popular.t :=
  match l with
  | [] => [x]
  | y :: rest =>
      if Popular.total x <? Popular.total y then y :: insert_desc x rest else x :: l
  end.

Definition sort_desc (rows : list Popular.t) : list Popular.t :=
  List.fold_right insert_desc [] rows.

(** [.slice(0, limit)]: a negative [limit] counts from the end. *)
Definition slice0 {A : Type} (limit : Z) (l : list A) : list A :=
  if limit <? 0 then take (Z.to_nat (Z.max (Z.of_nat (length l) + limit) 0)) l
  else take (Z.to_nat limit) l.

(** [data?.forEach]: nothing to fold when [data] is [null]. *)
Definition rows_of {A : Type} (data : option (list A)) : list A :=
  match data with
  | Some rows => rows
  | None => []
  end.

Definition popular (limit : Z) (data : option (list Item.t)) : list Popular.t :=
  let counts := List.fold_left countInteraction (rows_of data) [] in
  slice0 limit (sort_desc (List.map popularRow (entries counts))).

Section ReadSide.

Variable env : Env.

(** [Date.prototype.getTimezoneOffset] at a given time, in minutes, and
    [new Date(t).toISOString().split('T')[0]]. *)
Variable getTimezoneOffset : Z -> Z.
Variable isoDate : Z -> string.

(** [getPopularBusinesses] up to its [await]. *)
Definition getPopularBusinesses (s : State) : Asked (list Popular.t) :=
  safeAnalyticsOperation
    (fun s =>
       match analyticsClient env with
       | None => Normal (Returns [])
       | Some _ => Normal (Asks SelectInteractions)
       end)
    (fun _ => Returns []) s.

(** [getPopularBusinesses] from the answer on; [limit] is [None] when the
    caller passed none. *)
Definition getPopularBusinesses_answered (limit : option Z)
    (data : option (list Item.t)) (error : option string) (s : State)
    : list Popular.t * State :=
  safeAnalyticsOperation
    (fun s =>
       match error with
       | Some e => Threw e s
       | None =>
           Normal (popular (match limit with Some l => l | None => 10 end) data, s)
       end)
    (fun s => ([], s)) s.

(** The time values a [Date] holds lie within 8.64e15 ms of the epoch;
    [new Date(t)] is an invalid date for any other [t]. *)
Definition valid_time (t : Z) : bool :=
  (-8640000000000000 <=? t) && (t <=? 8640000000000000).

(** [new Date(t).getHours()]: the hour of the local time, from 0 to 23, and
    [NaN] for an invalid date. *)
Definition getHours (t : Z) : Number :=
  if valid_time t
  then Num (((t - getTimezoneOffset t * 60000) / 3600000) mod 24)
  else NaN.

(** [hourlyData[hour]++].  An hour is one of the 24 keys the loop has
    created.  The key [NaN] is not: it reads [undefined] the first time,
    [undefined + 1] is [NaN], and [NaN] it stays. *)
Definition countHour (hourlyData : HourlyData) (visited_at : Z) : HourlyData :=
  match getHours visited_at with
  | Num hour =>
      {| counters := alter Z.succ (Z.to_nat hour) (counters hourlyData);
         nan_key := nan_key hourlyData |}
  | NaN => {| counters := counters hourlyData; nan_key := true |}
  end.

(** The fold of [getHourlyStats].  [Object.entries] lists the 24 integer
    keys in ascending order, then the key [NaN] if it was added;
    [parseInt] of that key is [NaN]. *)
Definition hourly (data : option (list Z)) : list Hourly.t :=
  let hourlyData :=
    List.fold_left countHour (rows_of data)
      {| counters := replicate 24 0; nan_key := false |} in
  imap (fun i count => {| Hourly.hour := Num (Z.of_nat i); Hourly.visits := Num count |})
    (counters hourlyData)
  ++ (if nan_key hourlyData then [{| Hourly.hour := NaN; Hourly.visits := NaN |}] else []).

(** [getHourlyStats] up to its [await]; [date] is [None] when the caller
    passed none. *)
Definition getHourlyStats (date : option string) (s : State) : Asked (list Hourly.t) :=
  safeAnalyticsOperation
    (fun s =>
       match analyticsClient env with
       | None => Normal (Returns [])
       | Some _ =>
           let targetDate :=
             match date with
             | Some d => if truthy d then d else isoDate (now s)
             | None => isoDate (now s)
             end in
           Normal (Asks (SelectVisitTimes (targetDate +:+ "T00:00:00")
                           (targetDate +:+ "T23:59:59")))
       end)
    (fun _ => Returns []) s.

Definition getHourlyStats_answered (data : option (list Z)) (error : option string)
    (s : State) : list Hourly.t * State :=
  safeAnalyticsOperation
    (fun s =>
       match error with
       | Some e => Threw e s
       | None => Normal (hourly data, s)
       end)
    (fun s => ([], s)) s.

End ReadSide.

(** * Vocabulary of the properties *)

(** ** What is sent *)

(** The two tables [queueEvent] is called with. *)
Definition known_table (t : string) : Prop :=
  t = business_interactions \/ t = visit_logs.

(** The sink writes a batch gives rise to: one grouped insert for each of the
    two categories that has events in the batch, holding those events in the
    order of the batch. *)
Definition categoryWrite (t : string) (batch : list QueuedEvent) : list SinkCall :=
  match List.filter (in_table t) batch with
  | [] => []
  | e :: evs => [Insert t (List.map data (e :: evs))]
  end.

Definition flushWrites (batch : list QueuedEvent) : list SinkCall :=
  categoryWrite business_interactions batch ++ categoryWrite visit_logs batch.

(** The insert of the visit logs, and the continuation parked with it. *)
Definition visitWrite (visitLogs : list QueuedEvent) : list SinkCall :=
  match visitLogs with
  | [] => []
  | _ :: _ => [Insert visit_logs (List.map data visitLogs)]
  end.

Definition visitCont (visitLogs : list QueuedEvent) : list Cont :=
  match visitLogs with
  | [] => []
  | _ :: _ => [KFlushVisits]
  end.

(** The rows a list of sink calls inserts. *)
Definition insertedRows (calls : list SinkCall) : list Payload :=
  List.flat_map (fun c => match c with
                          | Insert _ rows => rows
                          | _ => []
                          end) calls.

(** The rows of the visit logs that flushes in flight still have to send. *)
Definition parkedRows (ks : list Cont) : list Payload :=
  List.flat_map (fun k => match k with
                          | KFlushInteractions visitLogs => List.map data visitLogs
                          | _ => []
                          end) ks.

(** Every row the batcher is answerable for: already inserted, parked in a
    flush in flight, or still queued. *)
Definition accounted (s : State) : list Payload :=
  insertedRows (sink s) ++ parkedRows (awaiting s) ++ List.map data (eventQueue s).

(** The bodies of the beacons among a list of requests. *)
Definition beacons (calls : list SinkCall) : list PresenceRow :=
  List.flat_map (fun c => match c with
                          | SendBeacon _ body => [body]
                          | _ => []
                          end) calls.

(** The final records the registered closures post at time [t]. *)
Definition finalRows (t : Z) (ls : list Listener) : list PresenceRow :=
  List.flat_map (fun l => match l with
                          | FlushOnUnload => []
                          | FinalPing d u =>
                              [{| p_device_id := d; p_user_name := u;
                                  is_active := false; last_ping := t |}]
                          end) ls.

(** One complete call of [startLiveTracking]: the call itself, then its
    resumption once the first ping has settled. *)
Definition liveCalls (rs : list Response) : list Action :=
  List.flat_map (fun r => [CallStartLiveTracking; Resume 0 r]) rs.

(** ** Views of the state *)

(** The part of the state a flush and the enqueues around it work on. *)
Definition batchView (s : State) : list QueuedEvent * list SinkCall * list Cont :=
  (eventQueue s, sink s, awaiting s).

(** The part of the state the heartbeat works on. *)
Definition heartbeatView (s : State)
    : Z * Z * bool * nat * option nat * list Interval * list Listener :=
  (now s, lastActivity s, isTabActive s, nextHandle s, pingInterval s,
   intervals s, unloadListeners s).

(** ** Invariants *)

(** Between two tasks the queue is always below its maximum. *)
Definition queue_ok (s : State) : Prop :=
  (length (eventQueue s) < MAX_QUEUE_SIZE)%nat.

(** Every pending timeout is the one [flushTimeout] remembers, and there is
    at most one. *)
Definition timers_ok (s : State) : Prop :=
  (length (timeouts s) <= 1)%nat /\
  forall t, In t (timeouts s) -> flushTimeout s = Some (fst t).

(** Every live interval is the one [pingInterval] remembers, and there is at
    most one. *)
Definition intervals_ok (s : State) : Prop :=
  (length (intervals s) <= 1)%nat /\
  forall i, In i (intervals s) -> pingInterval s = Some (i_handle i).

(** Only the two known tables ever enter the queue. *)
Definition tables_ok (s : State) : Prop :=
  Forall (fun e => known_table (table e)) (eventQueue s).

(** Listeners are only ever added, after the ones already registered. *)
Definition listeners_extend (base : list Listener) (s : State) : Prop :=
  exists extra, unloadListeners s = base ++ extra.

(** The interval with handle [h], for as long as it lives, holds the device
    id [d] and the user name [u], and [h] will not be handed out again. *)
Definition keeps_identity (h : nat) (d : string) (u : option string) (s : State) : Prop :=
  (h < nextHandle s)%nat /\
  forall i, In i (intervals s) -> i_handle i = h -> i_deviceId i = d /\ i_userName i = u.

(** Nothing sent, nothing parked, no timer, and only the module's own
    [beforeunload] listener. *)
Definition quiet (s : State) : Prop :=
  sink s = [] /\ awaiting s = [] /\ timeouts s = [] /\ intervals s = [] /\
  eventQueue s = [] /\ flushTimeout s = None /\ pingInterval s = None /\
  unloadListeners s = [FlushOnUnload].

(** ** Sample pages *)

Definition client0 : Client := {| supabaseUrl := "https://sink.example" |}.

(** A configured page: analytics enabled, client present. *)
Definition env_on : Env :=
  {| isAnalyticsEnabled := true; analyticsClient := Some client0;
     userAgent := "Mozilla/5.0"; referrer := ""; mathRandom := fun _ => "k3j9x0a2q" |}.

(** The same page with analytics switched off. *)
Definition env_off : Env :=
  {| isAnalyticsEnabled := false; analyticsClient := None;
     userAgent := "Mozilla/5.0"; referrer := ""; mathRandom := fun _ => "k3j9x0a2q" |}.

Definition interaction (n : Z) : QueuedEvent :=
  {| table := business_interactions;
     data := InteractionRow view "shop" "device_0_k3j9x0a2q" None n |}.

Definition visit (n : Z) : QueuedEvent :=
  {| table := visit_logs;
     data := VisitRow "device_0_k3j9x0a2q" None "/" None n |}.

(** A first-time visitor's page, just loaded at time 0. *)
Definition page0 : State := init 0 "/" ∅.

(** A returning visitor: the storage holds a device id and the name "ann". *)
Definition returning : State :=
  init 0 "/" (<[USER_NAME_KEY := "ann"]> (<[DEVICE_ID_KEY := "device_7_abc"]> ∅)).

(** Nine events queued one after the other on a fresh page; the same page
    one second and three seconds later. *)
Definition nine : State :=
  enqueueAll env_on (List.map interaction [1; 2; 3; 4; 5; 6; 7; 8; 9]) page0.

Definition nine_at_1000 : State := with_now 1000 nine.

Definition nine_later : State := with_now 3000 nine.

(** Three interactions and two visits, queued in mixed order. *)
Definition mixed : State :=
  enqueueAll env_on [interaction 1; visit 2; interaction 3; visit 4; interaction 5] page0.

(** A visible page whose user was last active 4 seconds ago; the same page
    once hidden; and a page left idle for 12 seconds. *)
Definition active_page : State := with_now 4000 page0.

Definition hidden_page : State := with_isTabActive false active_page.

Definition idle_page : State := with_now 12000 page0.

(** ** Further invariants *)

(** Whatever is queued has a flush scheduled: a timeout is pending, and no
    pending timeout is due later than [FLUSH_INTERVAL] from now. *)
Definition flush_scheduled (s : State) : Prop :=
  (eventQueue s <> [] -> timeouts s <> []) /\
  Forall (fun t => snd t <= now s + FLUSH_INTERVAL) (timeouts s).

(** The stored device id is [d]. *)
Definition device_is (d : string) (s : State) : Prop :=
  localStorage s !! DEVICE_ID_KEY = Some d.

(** The storage holds no usable device id: none, or the empty string. *)
Definition no_device_id (s : State) : Prop :=
  localStorage s !! DEVICE_ID_KEY = None \/ localStorage s !! DEVICE_ID_KEY = Some "".

(** The character ['_'], which separates the parts of a device id. *)
Definition underscore : Ascii.ascii :=
  Ascii.Ascii true true true true true false true false.

(** The character [c] does not occur in [a]. *)
Fixpoint free_of (c : Ascii.ascii) (a : string) : Prop :=
  match a with
  | EmptyString => True
  | String x a' => x <> c /\ free_of c a'
  end.

(** An enabled page whose client is missing. *)
Definition env_no_client : Env :=
  {| isAnalyticsEnabled := true; analyticsClient := None;
     userAgent := "Mozilla/5.0"; referrer := ""; mathRandom := fun _ => "k3j9x0a2q" |}.

(** Nine interactions tracked one after the other. *)
Definition nine_calls : list Action :=
  List.map (fun b => CallTrackBusinessInteraction view b)
    ["a"; "b"; "c"; "d"; "e"; "f"; "g"; "h"; "i"].

(** The upsert [sendPing] sends for device [d] and user [u] at time [t]. *)
Definition pingUpsert (d : string) (u : option string) (t : Z) : SinkCall :=
  Upsert live_users
    {| p_device_id := d; p_user_name := u; is_active := true; last_ping := t |}
    "device_id".

(** A page whose heartbeat was started at time 0 and which has been left
    alone for one [PING_INTERVAL]. *)
Definition idle_ticking : State :=
  with_now 20000 (resume env_on 0 (WriteResult None) (startLiveTracking env_on page0)).

Definition first_interval : Interval :=
  {| i_handle := 1; i_due := 20000;
     i_deviceId := "device_0_k3j9x0a2q"; i_userName := None |}.

(** ** Teardown *)

Definition is_final (l : Listener) : Prop :=
  match l with
  | FinalPing _ _ => True
  | FlushOnUnload => False
  end.

(** The listeners are the module's flush followed by the closures of
    [startLiveTracking], and a live interval has its closure among them. *)
Definition teardown_ready (s : State) : Prop :=
  exists finals,
    unloadListeners s = FlushOnUnload :: finals /\
    Forall is_final finals /\
    (intervals s <> [] -> finals <> []).

(** What a flush sends, and parks, before its first [await] returns. *)
Definition firstWrite (batch : list QueuedEvent) : list SinkCall :=
  match List.filter (in_table business_interactions) batch with
  | [] => visitWrite (List.filter (in_table visit_logs) batch)
  | e :: evs => [Insert business_interactions (List.map data (e :: evs))]
  end.

Definition firstCont (batch : list QueuedEvent) : list Cont :=
  match List.filter (in_table business_interactions) batch with
  | [] => visitCont (List.filter (in_table visit_logs) batch)
  | _ :: _ => [KFlushInteractions (List.filter (in_table visit_logs) batch)]
  end.

(** The intervals left once [clearInterval(pingInterval)] has run. *)
Definition afterClear (s : State) : list Interval :=
  match pingInterval s with
  | Some h => List.filter (fun i => negb (Nat.eqb (i_handle i) h)) (intervals s)
  | None => intervals s
  end.

(** A page whose tab was hidden right after the module was loaded. *)
Definition hidden_at_load : State := onVisibilityChange true page0.

(** ** Visit tracking *)

(** The write [trackUserVisit] sends once the fetch has been answered. *)
Definition userWrite (ua d userName : string) (t : Z) (existingUser : option UserRow)
    : SinkCall :=
  match existingUser with
  | Some u => UpdateUserVisit d userName t (total_visits_or_0 u + 1)
  | None => InsertUser userName d ua 1
  end.

Definition updating_of (existingUser : option UserRow) : bool :=
  match existingUser with
  | Some _ => true
  | None => false
  end.

(** What [trackUserVisit] writes to the console for the answer to its fetch
    and for the answer to its write. *)
Definition fetchLog (fetchError : option string) : list string :=
  match fetchError with
  | Some code =>
      if String.eqb code "PGRST116" then [] else ["Error fetching user: " +:+ code]
  | None => []
  end.

Definition writeLog (updating : bool) (error : option string) : list string :=
  match error with
  | Some e =>
      [(if updating then "Error updating user:" else "Error creating user:") +:+ " " +:+ e]
  | None => []
  end.

(** A returning visitor whose row the sink already holds. *)
Definition seen_before : option UserRow := Some {| total_visits := Some 4 |}.

(** ** A page without client *)

(** A call of [startLiveTracking] whose first ping sent nothing. *)
Definition unpinged (k : Cont) : Prop :=
  match k with
  | KLive _ _ false => True
  | _ => False
  end.

(** Nothing sent, nothing logged, and nothing parked that waits for the sink. *)
Definition silent (s : State) : Prop :=
  sink s = [] /\ console s = [] /\ Forall unpinged (awaiting s).

(** What the sink and the console have seen, and what is parked. *)
Definition outsideView (s : State) : list SinkCall * list string * list Cont :=
  (sink s, console s, awaiting s).

(** ** One device id *)

Definition row_id (p : Payload) : string :=
  match p with
  | InteractionRow _ _ d _ _ => d
  | VisitRow d _ _ _ _ => d
  end.

(** Every device id a request carries satisfies [Q]; likewise for what a
    parked continuation and a [beforeunload] listener have captured. *)
Definition call_in (Q : string -> Prop) (c : SinkCall) : Prop :=
  match c with
  | Insert _ rows => Forall (fun p => Q (row_id p)) rows
  | Upsert _ row _ => Q (p_device_id row)
  | FetchUser d => Q d
  | UpdateUserVisit d _ _ _ => Q d
  | InsertUser _ d _ _ => Q d
  | TouchUser d _ => Q d
  | SendBeacon _ body => Q (p_device_id body)
  end.

Definition cont_in (Q : string -> Prop) (k : Cont) : Prop :=
  match k with
  | KFlushInteractions visitLogs => Forall (fun e => Q (row_id (data e))) visitLogs
  | KLive d _ _ => Q d
  | KTrackFetch _ d _ => Q d
  | KTrackWrite _ d _ => Q d
  | KFlushVisits | KPing | KInitTouch => True
  end.

Definition listener_in (Q : string -> Prop) (l : Listener) : Prop :=
  match l with
  | FinalPing d _ => Q d
  | FlushOnUnload => True
  end.

(** Every device id the page has sent, queued, parked or captured in a
    timer or a listener satisfies [Q]. *)
Definition ids_in (Q : string -> Prop) (s : State) : Prop :=
  Forall (call_in Q) (sink s) /\
  Forall (cont_in Q) (awaiting s) /\
  Forall (fun e => Q (row_id (data e))) (eventQueue s) /\
  Forall (fun i => Q (i_deviceId i)) (intervals s) /\
  Forall (listener_in Q) (unloadListeners s).

Definition idView (s : State)
    : list SinkCall * list Cont * list QueuedEvent * list Interval * list Listener :=
  (sink s, awaiting s, eventQueue s, intervals s, unloadListeners s).

(** The id [getDeviceId] finds in the storage, if it finds one. *)
Definition owner (s : State) : option string :=
  match localStorage s !! DEVICE_ID_KEY with
  | Some d => if truthy d then Some d else None
  | None => None
  end.

Definition one_device (s : State) : Prop :=
  ids_in (fun d => owner s = Some d) s.

(** ** The read side *)

Definition sumZ (l : list Z) : Z := List.fold_right Z.add 0 l.

(** The log's date is valid and falls in hour [h] of the local day. *)
Definition in_hour (getTimezoneOffset : Z -> Z) (h : nat) (t : Z) : bool :=
  match getHours getTimezoneOffset t with
  | Num hour => Nat.eqb (Z.to_nat hour) h
  | NaN => false
  end.

(** How many of the logs fall in hour [h] of the local day. *)
Definition hourCount (getTimezoneOffset : Z -> Z) (h : nat) (logs : list Z) : Z :=
  Z.of_nat (length (List.filter (in_hour getTimezoneOffset h) logs)).

(** The row [getHourlyStats] returns for hour [h]. *)
Definition hourRow (getTimezoneOffset : Z -> Z) (logs : list Z) (h : nat) : Hourly.t :=
  {| Hourly.hour := Num (Z.of_nat h);
     Hourly.visits := Num (hourCount getTimezoneOffset h logs) |}.

Definition is_whatsapp (e : EventType) : bool :=
  match e with
  | whatsapp => true
  | _ => false
  end.

(** How many of the rows are [whatsapp] events of business [id]. *)
Definition whatsappCount (id : string) (items : list Item.t) : Z :=
  Z.of_nat (length (List.filter
                      (fun it => String.eqb (Item.business_id it) id
                                 && is_whatsapp (Item.event_type it)) items)).

(** A host five and a half hours ahead of UTC, and one on UTC. *)
Definition ist : Z -> Z := fun _ => -330.
Definition utc : Z -> Z := fun _ => 0.

Definition item (b : string) (e : EventType) : Item.t :=
  {| Item.business_id := b; Item.event_type := e |}.

(** Interactions read back from the sink, newest first. *)
Definition sample_items : list Item.t :=
  [item "shop" view; item "12" whatsapp; item "bakery" whatsapp; item "shop" call;
   item "7" share; item "constructor" whatsapp; item "bakery" whatsapp;
   item "shop" view].

(** The state of [counts] after the rows [items] have been folded: one entry
    per business seen, except those named like a member of
    [Object.prototype]; only the [whatsapp] counter of an entry has moved. *)
Definition counts_ok (items : list Item.t) (counts : list (string * Stats.t)) : Prop :=
  List.NoDup (List.map fst counts) /\
  (length counts <= length items)%nat /\
  (forall k st, In (k, st) counts ->
     inherited k = false /\
     Stats.views st = 0 /\ Stats.calls st = 0 /\ Stats.shares st = 0 /\
     Stats.whatsapp st = whatsappCount k items /\
     In k (List.map Item.business_id items)) /\
  (forall it, In it items -> inherited (Item.business_id it) = false ->
     In (Item.business_id it) (List.map fst counts)).

(** No row has a larger total than a row before it. *)
Fixpoint descending (rows : list Popular.t) : Prop :=
  match rows with
  | [] => True
  | x :: rest =>
      Forall (fun y => Popular.total y <= Popular.total x) rest /\ descending rest
  end.

(** * Reasoning tools *)

(** Reduce field reads through field updates. *)
Ltac fields :=
  cbn [fst snd now pathname localStorage rngCalls eventQueue flushTimeout
       pingInterval lastActivity isTabActive nextHandle timeouts intervals
       unloadListeners awaiting sink console
       with_now with_pathname with_localStorage with_rngCalls with_eventQueue
       with_flushTimeout with_pingInterval with_lastActivity with_isTabActive
       with_nextHandle with_timeouts with_intervals with_unloadListeners
       with_awaiting with_sink with_console
       request suspend console_error setTimeout setInterval clearTimeout
       clearInterval] in *.

(** ** The model at work *)

(** A first visit: the device id is made up from the clock and a random
    suffix and stored. *)
Example fresh_device_id :
  fst (getDeviceId env_on page0) = "device_0_k3j9x0a2q" /\
  localStorage (snd (getDeviceId env_on page0)) !! DEVICE_ID_KEY =
    Some "device_0_k3j9x0a2q".
Proof. split; vm_compute; reflexivity. Qed.

(** [trackUserVisit("ann")] on a first visit, the sink reporting no row and
    then a successful insert: the user is created, the visit is queued (not
    sent yet), the name is stored and the first ping is out. *)
Example first_visit :
  option_map (fun s => (sink s, eventQueue s, timeouts s, getUserName s))
    (run env_on [CallTrackUserVisit "ann";
                 Resume 0 (FetchResult None (Some "PGRST116"));
                 Resume 0 (WriteResult None)] page0) =
  Some ([FetchUser "device_0_k3j9x0a2q";
         InsertUser "ann" "device_0_k3j9x0a2q" "Mozilla/5.0" 1;
         Upsert live_users
           {| p_device_id := "device_0_k3j9x0a2q"; p_user_name := Some "ann";
              is_active := true; last_ping := 0 |} "device_id"],
        [{| table := visit_logs;
            data := VisitRow "device_0_k3j9x0a2q" (Some "ann") "/" None 0 |}],
        [(1%nat, 5000)],
        Some "ann").
Proof. vm_compute. reflexivity. Qed.

(** [initializeTracking()] for a returning visitor, followed to the end of
    the [startLiveTracking] it triggers: one interval is live. *)
Example returning_visit :
  option_map (fun s => (sink s, intervals s, awaiting s))
    (run env_on [CallInitializeTracking; Resume 0 (WriteResult None);
                 Resume 0 (WriteResult (Some "offline"))] returning) =
  Some ([TouchUser "device_7_abc" 0;
         Upsert live_users
           {| p_device_id := "device_7_abc"; p_user_name := Some "ann";
              is_active := true; last_ping := 0 |} "device_id"],
        [{| i_handle := 2; i_due := 20000;
            i_deviceId := "device_7_abc"; i_userName := Some "ann" |}],
        []).
Proof. vm_compute. reflexivity. Qed.

(** ** A proof principle for invariants of the page

    A predicate that ignores the fields no invariant below talks about, and
    that survives the few places where the module writes the queue, the
    timers and the listeners, holds in every state the page can reach. *)
Section Invariant.

Variable env : Env.
Variable P : State -> Prop.

Hypothesis P_now : forall v s, P s -> P (with_now v s).
Hypothesis P_pathname : forall v s, P s -> P (with_pathname v s).
Hypothesis P_localStorage : forall v s, P s -> P (with_localStorage v s).
Hypothesis P_rngCalls : forall v s, P s -> P (with_rngCalls v s).
Hypothesis P_lastActivity : forall v s, P s -> P (with_lastActivity v s).
Hypothesis P_isTabActive : forall v s, P s -> P (with_isTabActive v s).
Hypothesis P_awaiting : forall v s, P s -> P (with_awaiting v s).
Hypothesis P_sink : forall v s, P s -> P (with_sink v s).
Hypothesis P_console : forall v s, P s -> P (with_console v s).
Hypothesis P_swap : forall s, P s -> P (with_eventQueue [] s).
Hypothesis P_push : forall tbl d s,
  known_table tbl -> P s ->
  (length (eventQueue s ++ [{| table := tbl; data := d |}]) < MAX_QUEUE_SIZE)%nat ->
  P (scheduleFlush (with_eventQueue (eventQueue s ++ [{| table := tbl; data := d |}]) s)).
Hypothesis P_clearTimeout : forall h s, P s -> P (clearTimeout h s).
Hypothesis P_clearInterval : forall h s,
  P s -> pingInterval s = Some h -> P (clearInterval h s).
Hypothesis P_rearm : forall h due s,
  P s -> P (with_intervals (List.map (rearm h due) (intervals s)) s).
Hypothesis P_rest : forall d u s, P s -> P (startLiveTracking_rest d u s).

Lemma inv_log_error label e s : P s -> P (log_error label e s).
Proof. intros H. destruct e; simpl; [apply P_console|]; exact H. Qed.

Lemma inv_getDeviceId s : P s -> P (snd (getDeviceId env s)).
Proof.
  intros H. unfold getDeviceId.
  destruct (localStorage s !! DEVICE_ID_KEY) as [d|]; [destruct (truthy d)|];
    simpl; auto.
Qed.

Lemma inv_setUserName name s : P s -> P (setUserName name s).
Proof. intros H. apply P_localStorage, H. Qed.

Lemma inv_flushVisitLogs vl s s' :
  P s -> flushVisitLogs env vl s = Normal s' -> P s'.
Proof.
  unfold flushVisitLogs. intros H E.
  destruct (nonempty vl && has_client env); inversion E; subst; auto.
  apply P_awaiting, P_sink, H.
Qed.

Lemma flushVisitLogs_normal vl s : exists s', flushVisitLogs env vl s = Normal s'.
Proof. unfold flushVisitLogs. destruct (nonempty vl && has_client env); eauto. Qed.

Lemma flushOperation_normal b s : exists s', flushOperation env b s = Normal s'.
Proof.
  unfold flushOperation.
  destruct (nonempty _ && has_client env); eauto using flushVisitLogs_normal.
Qed.

Lemma inv_flushOperation b s s' :
  P s -> flushOperation env b s = Normal s' -> P s'.
Proof.
  unfold flushOperation. intros H E.
  destruct (nonempty _ && has_client env).
  - inversion E; subst. apply P_awaiting, P_sink, H.
  - eapply inv_flushVisitLogs; eauto.
Qed.

Lemma inv_flushEvents s : P s -> P (flushEvents env s).
Proof.
  intros H. unfold flushEvents.
  destruct ((length (eventQueue s) =? 0)%nat || negb (isAnalyticsEnabled env)); [exact H|].
  unfold safeAnalyticsOperation.
  destruct (flushOperation_normal (eventQueue s) (with_eventQueue [] s)) as [s' E].
  rewrite E. eapply inv_flushOperation; [|exact E]. apply P_swap, H.
Qed.

Lemma inv_queueEvent tbl d s : known_table tbl -> P s -> P (queueEvent env tbl d s).
Proof.
  intros K H. unfold queueEvent.
  destruct (negb (isAnalyticsEnabled env)) eqn:En; [exact H|].
  fields.
  destruct (MAX_QUEUE_SIZE <=? length (eventQueue s ++ [{| table := tbl; data := d |}]))%nat eqn:L.
  - unfold flushEvents. fields. rewrite En.
    destruct (length (eventQueue s ++ _) =? 0)%nat eqn:Z.
    + apply Nat.eqb_eq in Z. apply Nat.leb_le in L. unfold MAX_QUEUE_SIZE in L. lia.
    + simpl. unfold safeAnalyticsOperation.
      match goal with |- context [flushOperation env ?b ?t] =>
        destruct (flushOperation_normal b t) as [s' E] end.
      rewrite E. eapply inv_flushOperation; [|exact E]. apply (P_swap s), H.
  - apply P_push; auto. apply Nat.leb_gt in L. exact L.
Qed.

Lemma inv_sendPing d u s : P s -> P (fst (sendPing env d u s)).
Proof.
  intros H. unfold sendPing, safeAnalyticsOperation.
  destruct (negb (isTabActive s) || (MIN_ACTIVITY_GAP <? now s - lastActivity s)
            || negb (isAnalyticsEnabled env)); [exact H|].
  destruct (analyticsClient env); cbn [fst]; [apply P_sink|]; exact H.
Qed.

Lemma inv_startLiveTracking s : P s -> P (startLiveTracking env s).
Proof.
  intros H. unfold startLiveTracking.
  destruct (negb (isAnalyticsEnabled env)); [exact H|].
  pose proof (inv_getDeviceId s H) as H1.
  destruct (getDeviceId env s) as [d s1]. simpl in H1.
  pose proof (inv_sendPing d (getUserName s1) s1 H1) as H2.
  destruct (sendPing env d (getUserName s1) s1) as [s2 p]. simpl in H2.
  apply P_awaiting, H2.
Qed.

Lemma inv_finalPing d u s : P s -> P (finalPing env d u s).
Proof.
  intros H. unfold finalPing.
  assert (H1 : P match pingInterval s with
                 | Some h => clearInterval h s
                 | None => s
                 end).
  { destruct (pingInterval s) eqn:E; auto. }
  destruct (isAnalyticsEnabled env); [|exact H1].
  destruct (analyticsClient env); [|exact H1].
  apply P_sink, H1.
Qed.

Lemma inv_trackUserVisit name s : P s -> P (trackUserVisit env name s).
Proof.
  intros H. unfold trackUserVisit, safeAnalyticsOperation.
  destruct (negb (isAnalyticsEnabled env)); [apply inv_setUserName, H|].
  destruct (analyticsClient env); [|exact H].
  pose proof (inv_getDeviceId s H) as H1.
  destruct (getDeviceId env s) as [d s1]. simpl in H1.
  apply P_awaiting, P_sink, H1.
Qed.

Lemma inv_trackUserVisit_fetched name d ua u e s :
  P s -> P (trackUserVisit_fetched name d ua u e s).
Proof.
  intros H. unfold trackUserVisit_fetched.
  assert (H1 : P match e with
                 | Some code =>
                     if String.eqb code "PGRST116" then s
                     else console_error ("Error fetching user: " +:+ code) s
                 | None => s
                 end).
  { destruct e as [code|]; [destruct (String.eqb code "PGRST116")|]; auto.
    apply P_console, H. }
  destruct u; apply P_awaiting, P_sink, H1.
Qed.

Lemma known_visit_logs : known_table visit_logs.
Proof. right; reflexivity. Qed.

Lemma known_business_interactions : known_table business_interactions.
Proof. left; reflexivity. Qed.

Lemma inv_trackUserVisit_written name d upd e s :
  P s -> P (trackUserVisit_written env name d upd e s).
Proof.
  intros H. unfold trackUserVisit_written.
  apply inv_startLiveTracking, inv_setUserName, inv_queueEvent;
    [apply known_visit_logs|].
  apply inv_log_error, H.
Qed.

Lemma inv_initializeTracking s : P s -> P (initializeTracking env s).
Proof.
  intros H. unfold initializeTracking, safeAnalyticsOperation.
  destruct (negb (isAnalyticsEnabled env)); [exact H|].
  destruct (analyticsClient env); [|exact H].
  pose proof (inv_getDeviceId s H) as H1.
  destruct (getDeviceId env s) as [d s1]. simpl in H1.
  destruct (getUserName s1) as [name|]; [|exact H1].
  destruct (truthy name); [|exact H1].
  apply P_awaiting, P_sink, inv_queueEvent; [apply known_visit_logs|exact H1].
Qed.

Lemma inv_trackBusinessInteraction t b s :
  P s -> P (trackBusinessInteraction env t b s).
Proof.
  intros H. unfold trackBusinessInteraction.
  pose proof (inv_getDeviceId s H) as H1.
  destruct (getDeviceId env s) as [d s1]. simpl in H1.
  apply inv_queueEvent; [apply known_business_interactions|exact H1].
Qed.

Lemma inv_continue k r s : P s -> P (continue env k r s).
Proof.
  intros H. destruct k; cbn [continue].
  - unfold safeAnalyticsOperation.
    match goal with |- context [flushVisitLogs env ?b ?t] =>
      destruct (flushVisitLogs_normal b t) as [s' E] end.
    rewrite E. eapply inv_flushVisitLogs; [|exact E]. apply inv_log_error, H.
  - apply inv_log_error, H.
  - apply inv_log_error, H.
  - apply P_rest. destruct pinged; [apply inv_log_error|]; exact H.
  - destruct r; apply inv_trackUserVisit_fetched, H.
  - apply inv_trackUserVisit_written, H.
  - apply inv_startLiveTracking, H.
Qed.

Lemma inv_resume i r s : P s -> P (resume env i r s).
Proof.
  intros H. unfold resume.
  destruct (awaiting s !! i); [|exact H].
  apply inv_continue, P_awaiting, H.
Qed.

Lemma inv_fireTimeout h s s' : P s -> fireTimeout env h s = Some s' -> P s'.
Proof.
  unfold fireTimeout. intros H E.
  destruct (List.find _ (timeouts s)) as [[h' due]|]; [|discriminate].
  destruct (due <=? now s); inversion E; subst.
  apply inv_flushEvents, P_clearTimeout, H.
Qed.

Lemma inv_fireInterval h s s' : P s -> fireInterval env h s = Some s' -> P s'.
Proof.
  unfold fireInterval. intros H E.
  destruct (List.find _ (intervals s)) as [i|]; [|discriminate].
  destruct (i_due i <=? now s); [|discriminate].
  match type of E with context [sendPing env ?d ?u ?t] =>
    pose proof (inv_sendPing d u t (P_rearm h (now s + PING_INTERVAL) s H)) as H1;
    destruct (sendPing env d u t) as [s1 p] end.
  simpl in H1. inversion E; subst. destruct p; [apply P_awaiting|]; exact H1.
Qed.

Lemma inv_listeners ls : forall s,
  P s -> P (List.fold_left (fun s l => runListener env l s) ls s).
Proof.
  induction ls as [|l ls IH]; intros s H; simpl; [exact H|].
  apply IH. destruct l; simpl; [apply inv_flushEvents|apply inv_finalPing]; exact H.
Qed.

Lemma inv_step a s s' : P s -> step env a s = Some s' -> P s'.
Proof.
  intros H E. destruct a; simpl in E.
  - inversion E; subst. apply inv_getDeviceId, H.
  - inversion E; subst. apply inv_setUserName, H.
  - inversion E; subst. apply inv_trackBusinessInteraction, H.
  - inversion E; subst. apply inv_trackUserVisit, H.
  - inversion E; subst. apply inv_initializeTracking, H.
  - inversion E; subst. apply inv_startLiveTracking, H.
  - destruct (0 <=? dt); inversion E; subst. apply P_now, H.
  - inversion E; subst. apply P_pathname, H.
  - inversion E; subst. apply P_lastActivity, H.
  - inversion E; subst. unfold onVisibilityChange.
    destruct (isTabActive _); [apply P_lastActivity|]; apply P_isTabActive, H.
  - eapply inv_fireTimeout; eauto.
  - eapply inv_fireInterval; eauto.
  - destruct (i <? length (awaiting s))%nat; inversion E; subst.
    apply inv_resume, H.
  - inversion E; subst. apply inv_listeners, H.
Qed.

Lemma inv_run acts : forall s s', P s -> run env acts s = Some s' -> P s'.
Proof.
  induction acts as [|a acts IH]; intros s s' H E; simpl in E.
  - inversion E; subst; exact H.
  - destruct (step env a s) as [s1|] eqn:S1; [|discriminate].
    eapply IH; [|exact E]. eapply inv_step; eauto.
Qed.

End Invariant.

(** ** Field equations of the timer functions *)

Lemma scheduleFlush_eventQueue s : eventQueue (scheduleFlush s) = eventQueue s.
Proof. unfold scheduleFlush. destruct (flushTimeout s); reflexivity. Qed.

Lemma scheduleFlush_sink s : sink (scheduleFlush s) = sink s.
Proof. unfold scheduleFlush. destruct (flushTimeout s); reflexivity. Qed.

Lemma scheduleFlush_awaiting s : awaiting (scheduleFlush s) = awaiting s.
Proof. unfold scheduleFlush. destruct (flushTimeout s); reflexivity. Qed.

Lemma scheduleFlush_intervals s : intervals (scheduleFlush s) = intervals s.
Proof. unfold scheduleFlush. destruct (flushTimeout s); reflexivity. Qed.

Lemma scheduleFlush_pingInterval s : pingInterval (scheduleFlush s) = pingInterval s.
Proof. unfold scheduleFlush. destruct (flushTimeout s); reflexivity. Qed.

Lemma scheduleFlush_unloadListeners s :
  unloadListeners (scheduleFlush s) = unloadListeners s.
Proof. unfold scheduleFlush. destruct (flushTimeout s); reflexivity. Qed.

Lemma scheduleFlush_flushTimeout s : flushTimeout (scheduleFlush s) = Some (nextHandle s).
Proof. unfold scheduleFlush. destruct (flushTimeout s); reflexivity. Qed.

Lemma scheduleFlush_timeouts s :
  timeouts (scheduleFlush s) =
  match flushTimeout s with
  | Some h => List.filter (fun t => negb (Nat.eqb (fst t) h)) (timeouts s)
  | None => timeouts s
  end ++ [(nextHandle s, now s + FLUSH_INTERVAL)].
Proof. unfold scheduleFlush. destruct (flushTimeout s); reflexivity. Qed.

Lemma rest_eventQueue d u s : eventQueue (startLiveTracking_rest d u s) = eventQueue s.
Proof. unfold startLiveTracking_rest. destruct (pingInterval s); reflexivity. Qed.

Lemma rest_timeouts d u s : timeouts (startLiveTracking_rest d u s) = timeouts s.
Proof. unfold startLiveTracking_rest. destruct (pingInterval s); reflexivity. Qed.

Lemma rest_flushTimeout d u s :
  flushTimeout (startLiveTracking_rest d u s) = flushTimeout s.
Proof. unfold startLiveTracking_rest. destruct (pingInterval s); reflexivity. Qed.

Lemma rest_unloadListeners d u s :
  unloadListeners (startLiveTracking_rest d u s) = unloadListeners s ++ [FinalPing d u].
Proof. unfold startLiveTracking_rest. destruct (pingInterval s); reflexivity. Qed.

Lemma rest_pingInterval d u s :
  pingInterval (startLiveTracking_rest d u s) = Some (nextHandle s).
Proof. unfold startLiveTracking_rest. destruct (pingInterval s); reflexivity. Qed.

Lemma rest_sink d u s : sink (startLiveTracking_rest d u s) = sink s.
Proof. unfold startLiveTracking_rest. destruct (pingInterval s); reflexivity. Qed.

Lemma rest_awaiting d u s : awaiting (startLiveTracking_rest d u s) = awaiting s.
Proof. unfold startLiveTracking_rest. destruct (pingInterval s); reflexivity. Qed.

Lemma rest_intervals d u s :
  intervals (startLiveTracking_rest d u s) =
  match pingInterval s with
  | Some h => List.filter (fun i => negb (Nat.eqb (i_handle i) h)) (intervals s)
  | None => intervals s
  end ++ [{| i_handle := nextHandle s; i_due := now s + PING_INTERVAL;
             i_deviceId := d; i_userName := u |}].
Proof. unfold startLiveTracking_rest. destruct (pingInterval s); reflexivity. Qed.

(** ** The invariants hold in every reachable state *)

Lemma filter_length_le {A} (f : A -> bool) l :
  (length (List.filter f l) <= length l)%nat.
Proof. induction l as [|x l IH]; simpl; [lia|]. destruct (f x); simpl; lia. Qed.

Lemma filter_all_out {A} (f : A -> bool) l :
  (forall x, In x l -> f x = false) -> List.filter f l = [].
Proof.
  induction l as [|x l IH]; intros H; simpl; [reflexivity|].
  rewrite (H x) by (left; reflexivity). apply IH. intros y Hy. apply H. right; exact Hy.
Qed.

(** Under [timers_ok], rescheduling leaves exactly the new timeout pending. *)
Lemma scheduleFlush_alone s :
  timers_ok s ->
  timeouts (scheduleFlush s) = [(nextHandle s, now s + FLUSH_INTERVAL)].
Proof.
  intros [Hlen Hall]. rewrite scheduleFlush_timeouts.
  destruct (flushTimeout s) as [h|] eqn:E.
  - rewrite filter_all_out; [reflexivity|].
    intros t Ht. apply Hall in Ht. inversion Ht; subst. rewrite Nat.eqb_refl. reflexivity.
  - destruct (timeouts s) as [|t l]; [reflexivity|].
    specialize (Hall t (or_introl eq_refl)). discriminate.
Qed.

(** Under [intervals_ok], (re)starting leaves exactly the new interval live. *)
Lemma rest_alone d u s :
  intervals_ok s ->
  intervals (startLiveTracking_rest d u s) =
  [{| i_handle := nextHandle s; i_due := now s + PING_INTERVAL;
      i_deviceId := d; i_userName := u |}].
Proof.
  intros [Hlen Hall]. rewrite rest_intervals.
  destruct (pingInterval s) as [h|] eqn:E.
  - rewrite filter_all_out; [reflexivity|].
    intros i Hi. apply Hall in Hi. inversion Hi; subst. rewrite Nat.eqb_refl. reflexivity.
  - destruct (intervals s) as [|i l]; [reflexivity|].
    specialize (Hall i (or_introl eq_refl)). discriminate.
Qed.

Section Reachable.

Variable env : Env.

Lemma queue_ok_run acts s s' : queue_ok s -> run env acts s = Some s' -> queue_ok s'.
Proof.
  apply inv_run; unfold queue_ok; intros; fields; auto.
  - simpl; unfold MAX_QUEUE_SIZE; lia.
  - rewrite scheduleFlush_eventQueue. assumption.
  - rewrite rest_eventQueue. assumption.
Qed.

Lemma tables_ok_run acts s s' : tables_ok s -> run env acts s = Some s' -> tables_ok s'.
Proof.
  apply inv_run; unfold tables_ok; intros; fields; auto.
  - rewrite scheduleFlush_eventQueue. fields.
    apply Forall_app; split; [assumption|]. constructor; [assumption|constructor].
  - rewrite rest_eventQueue. assumption.
Qed.

Lemma timers_ok_run acts s s' : timers_ok s -> run env acts s = Some s' -> timers_ok s'.
Proof.
  apply inv_run; unfold timers_ok; intros; fields; auto.
  - match goal with |- context [scheduleFlush ?t] =>
      assert (K : timers_ok t) by (unfold timers_ok; fields; assumption);
      rewrite (scheduleFlush_alone t K), scheduleFlush_flushTimeout end.
    split; [simpl; lia|]. intros t [<-|[]]. reflexivity.
  - destruct H as [Hlen Hall]. split.
    + etransitivity; [apply filter_length_le|exact Hlen].
    + intros t Ht. apply filter_In in Ht. apply Hall, Ht.
  - rewrite rest_timeouts, rest_flushTimeout. assumption.
Qed.

Lemma rearm_handle h due i : i_handle (rearm h due i) = i_handle i.
Proof.
  unfold rearm. destruct (Nat.eqb (i_handle i) h) eqn:E; [|reflexivity].
  apply Nat.eqb_eq in E. simpl. congruence.
Qed.

Lemma intervals_ok_run acts s s' :
  intervals_ok s -> run env acts s = Some s' -> intervals_ok s'.
Proof.
  apply inv_run; unfold intervals_ok; intros; fields; auto.
  - rewrite scheduleFlush_intervals, scheduleFlush_pingInterval. assumption.
  - destruct H as [Hlen Hall]. split.
    + etransitivity; [apply filter_length_le|exact Hlen].
    + intros i Hi. apply filter_In in Hi. apply Hall, Hi.
  - destruct H as [Hlen Hall]. split.
    + rewrite length_map. exact Hlen.
    + intros i Hi. apply in_map_iff in Hi. destruct Hi as [j [<- Hj]].
      rewrite rearm_handle. apply Hall, Hj.
  - match goal with
    | K : _ /\ _ |- context [startLiveTracking_rest ?d ?u ?t] =>
        rewrite (rest_alone d u t K), rest_pingInterval
    end.
    split; [simpl; lia|]. intros i [<-|[]]. reflexivity.
Qed.

Lemma listeners_extend_run base acts s s' :
  listeners_extend base s -> run env acts s = Some s' -> listeners_extend base s'.
Proof.
  apply inv_run; unfold listeners_extend; intros; fields; auto.
  - rewrite scheduleFlush_unloadListeners. assumption.
  - rewrite rest_unloadListeners. destruct H as [extra E]. rewrite E.
    exists (extra ++ [FinalPing d u]). rewrite app_assoc. reflexivity.
Qed.

Lemma init_queue_ok t0 path stored : queue_ok (init t0 path stored).
Proof. unfold queue_ok, MAX_QUEUE_SIZE; simpl; lia. Qed.

Lemma init_tables_ok t0 path stored : tables_ok (init t0 path stored).
Proof. constructor. Qed.

Lemma init_timers_ok t0 path stored : timers_ok (init t0 path stored).
Proof. split; simpl; [lia|intros t []]. Qed.

Lemma init_intervals_ok t0 path stored : intervals_ok (init t0 path stored).
Proof. split; simpl; [lia|intros t []]. Qed.

End Reachable.

(** ** The flush, one segment at a time *)

Section Flush.

Variable env : Env.
Hypothesis enabled : isAnalyticsEnabled env = true.

Lemma flushEvents_empty s : eventQueue s = [] -> flushEvents env s = s.
Proof. intros E. unfold flushEvents. rewrite E. reflexivity. Qed.

Lemma flushEvents_swap s :
  eventQueue s <> [] ->
  flushEvents env s =
  safeAnalyticsOperation (flushOperation env (eventQueue s)) (fun s => s)
    (with_eventQueue [] s).
Proof.
  intros N. unfold flushEvents. rewrite enabled.
  destruct (eventQueue s) as [|e q]; [contradiction|reflexivity].
Qed.

Lemma queueEvent_small tbl d s :
  (length (eventQueue s) + 1 < MAX_QUEUE_SIZE)%nat ->
  queueEvent env tbl d s =
  scheduleFlush (with_eventQueue (eventQueue s ++ [{| table := tbl; data := d |}]) s).
Proof.
  intros L. unfold queueEvent. rewrite enabled. fields. cbn [negb].
  rewrite length_app. cbn [length].
  destruct (MAX_QUEUE_SIZE <=? length (eventQueue s) + 1)%nat eqn:E; [|reflexivity].
  apply Nat.leb_le in E. lia.
Qed.

Lemma queueEvent_full tbl d s :
  (MAX_QUEUE_SIZE <= length (eventQueue s) + 1)%nat ->
  queueEvent env tbl d s =
  flushEvents env (with_eventQueue (eventQueue s ++ [{| table := tbl; data := d |}]) s).
Proof.
  intros L. unfold queueEvent. rewrite enabled. fields. cbn [negb].
  rewrite length_app. cbn [length].
  destruct (MAX_QUEUE_SIZE <=? length (eventQueue s) + 1)%nat eqn:E; [reflexivity|].
  apply Nat.leb_gt in E. lia.
Qed.

(** What the tail of [flushEvents] leaves untouched. *)
Lemma flushVisitLogs_frame vl s s' :
  flushVisitLogs env vl s = Normal s' ->
  eventQueue s' = eventQueue s /\ timeouts s' = timeouts s /\
  flushTimeout s' = flushTimeout s /\ nextHandle s' = nextHandle s /\
  now s' = now s.
Proof.
  unfold flushVisitLogs. intros E.
  destruct (nonempty vl && has_client env); inversion E; subst; fields; auto.
Qed.

Lemma flushOperation_frame b s s' :
  flushOperation env b s = Normal s' ->
  eventQueue s' = eventQueue s /\ timeouts s' = timeouts s /\
  flushTimeout s' = flushTimeout s /\ nextHandle s' = nextHandle s /\
  now s' = now s.
Proof.
  unfold flushOperation. intros E.
  destruct (nonempty _ && has_client env).
  - inversion E; subst; fields; auto.
  - eapply flushVisitLogs_frame; eauto.
Qed.

Lemma flushEvents_frame s :
  eventQueue s <> [] ->
  eventQueue (flushEvents env s) = [] /\
  timeouts (flushEvents env s) = timeouts s /\
  flushTimeout (flushEvents env s) = flushTimeout s /\
  nextHandle (flushEvents env s) = nextHandle s /\
  now (flushEvents env s) = now s.
Proof.
  intros N. rewrite (flushEvents_swap s N). unfold safeAnalyticsOperation.
  destruct (flushOperation_normal env (eventQueue s) (with_eventQueue [] s)) as [s' E].
  rewrite E. apply flushOperation_frame in E. exact E.
Qed.

End Flush.

(** C1. With analytics enabled, the enqueue that brings the queue to
    [MAX_QUEUE_SIZE] runs [flushEvents] within that same call, on the batch
    made of the queue and the new event, and returns with an empty queue;
    hence between two tasks of the page the queue never reaches, let alone
    exceeds, [MAX_QUEUE_SIZE]. *)
Theorem queueEvent_flushes_at_max (env : Env) :
  isAnalyticsEnabled env = true ->
  (forall tbl d s,
     (MAX_QUEUE_SIZE <= length (eventQueue s) + 1)%nat ->
     let batch := eventQueue s ++ [{| table := tbl; data := d |}] in
     queueEvent env tbl d s = flushEvents env (with_eventQueue batch s) /\
     queueEvent env tbl d s =
       safeAnalyticsOperation (flushOperation env batch) (fun s => s)
         (with_eventQueue [] s) /\
     eventQueue (queueEvent env tbl d s) = []) /\
  (forall acts t0 path stored s,
     run env acts (init t0 path stored) = Some s ->
     (length (eventQueue s) < MAX_QUEUE_SIZE)%nat /\
     (length (eventQueue s) <= MAX_QUEUE_SIZE)%nat).
Proof.
  intros enabled. split.
  - intros tbl d s L batch.
    assert (N : eventQueue (with_eventQueue batch s) <> []).
    { fields. subst batch. destruct (eventQueue s); discriminate. }
    rewrite (queueEvent_full env enabled tbl d s L). fold batch.
    split; [reflexivity|]. split.
    + apply (flushEvents_swap env enabled _ N).
    + apply (flushEvents_frame env enabled _ N).
  - intros acts t0 path stored s R.
    pose proof (queue_ok_run env acts _ _ (init_queue_ok t0 path stored) R) as Q.
    unfold queue_ok in Q. split; [exact Q|]. apply Nat.lt_le_incl, Q.
Qed.

Lemma queueEvent_flushes_at_max_witness :
  isAnalyticsEnabled env_on = true /\
  (MAX_QUEUE_SIZE <= length (eventQueue nine) + 1)%nat /\
  eventQueue (queueEvent env_on visit_logs (data (visit 10)) nine) = [].
Proof.
  split; [reflexivity|]. split; [vm_compute; lia|].
  apply (proj1 (queueEvent_flushes_at_max env_on eq_refl) visit_logs (data (visit 10)) nine).
  vm_compute; lia.
Defined.

(** ** Following a flush through its suspension points *)

Section FlushRun.

Variable env : Env.
Variable client : Client.
Hypothesis enabled : isAnalyticsEnabled env = true.
Hypothesis configured : analyticsClient env = Some client.

Lemma has_client_true : has_client env = true.
Proof. unfold has_client. rewrite configured. reflexivity. Qed.

Lemma view_log_error label e s : batchView (log_error label e s) = batchView s.
Proof. destruct e; reflexivity. Qed.

Lemma view_flushVisitLogs vl s :
  exists s', flushVisitLogs env vl s = Normal s' /\
             batchView s' =
             (eventQueue s, sink s ++ visitWrite vl, awaiting s ++ visitCont vl).
Proof.
  unfold flushVisitLogs. rewrite has_client_true.
  destruct vl as [|e vl]; simpl; eexists; (split; [reflexivity|]);
    unfold batchView; fields; rewrite ?app_nil_r; reflexivity.
Qed.

Lemma view_flushEvents s :
  eventQueue s <> [] ->
  let bi := List.filter (in_table business_interactions) (eventQueue s) in
  let vl := List.filter (in_table visit_logs) (eventQueue s) in
  batchView (flushEvents env s) =
  match bi with
  | [] => ([], sink s ++ visitWrite vl, awaiting s ++ visitCont vl)
  | _ :: _ =>
      ([], sink s ++ [Insert business_interactions (List.map data bi)],
       awaiting s ++ [KFlushInteractions vl])
  end.
Proof.
  intros N bi vl. rewrite (flushEvents_swap env enabled s N).
  unfold safeAnalyticsOperation, flushOperation. fold bi. fold vl.
  rewrite has_client_true.
  destruct bi as [|e bi'] eqn:B; cbn [nonempty length Nat.ltb Nat.leb andb].
  - destruct (view_flushVisitLogs vl (with_eventQueue [] s)) as [s' [E V]].
    rewrite E. exact V.
  - reflexivity.
Qed.

Lemma view_queueEvent tbl d s q sk aw :
  batchView s = (q, sk, aw) ->
  (length q + 1 < MAX_QUEUE_SIZE)%nat ->
  batchView (queueEvent env tbl d s) = (q ++ [{| table := tbl; data := d |}], sk, aw).
Proof.
  intros V L. inversion V; subst.
  rewrite (queueEvent_small env enabled tbl d s L).
  unfold batchView.
  rewrite scheduleFlush_eventQueue, scheduleFlush_sink, scheduleFlush_awaiting.
  reflexivity.
Qed.

Lemma view_enqueueAll es : forall s q sk aw,
  batchView s = (q, sk, aw) ->
  (length q + length es < MAX_QUEUE_SIZE)%nat ->
  batchView (enqueueAll env es s) = (q ++ es, sk, aw).
Proof.
  induction es as [|e es IH]; intros s q sk aw V L; simpl.
  - rewrite app_nil_r. exact V.
  - simpl in L. destruct e as [tbl d]. cbn [table data].
    rewrite (IH _ (q ++ [{| table := tbl; data := d |}]) sk aw).
    + rewrite <- app_assoc. reflexivity.
    + apply view_queueEvent; [exact V|lia].
    + rewrite length_app. simpl. lia.
Qed.

Lemma resume_last aw k r s :
  awaiting s = aw ++ [k] ->
  resume env (length aw) r s = continue env k r (with_awaiting aw s).
Proof.
  intros E. unfold resume. rewrite E.
  rewrite list_lookup_middle by reflexivity.
  rewrite delete_middle, app_nil_r. reflexivity.
Qed.

Lemma resume_none aw r s :
  awaiting s = aw -> resume env (length aw) r s = s.
Proof.
  intros E. unfold resume. rewrite E.
  rewrite lookup_ge_None_2 by lia. reflexivity.
Qed.

Lemma view_resume_interactions vl r s q sk aw :
  batchView s = (q, sk, aw ++ [KFlushInteractions vl]) ->
  batchView (resume env (length aw) r s) = (q, sk ++ visitWrite vl, aw ++ visitCont vl).
Proof.
  intros V. injection V as Hq Hsk Haw.
  rewrite (resume_last aw _ r s Haw). cbn [continue].
  unfold safeAnalyticsOperation.
  match goal with |- context [flushVisitLogs env vl ?t] =>
    destruct (view_flushVisitLogs vl t) as [s' [E V']] end.
  rewrite E, V'.
  pose proof (view_log_error "Error inserting business interactions:" (error_of r)
                (with_awaiting aw s)) as VL.
  unfold batchView in VL. injection VL as E1 E2 E3.
  rewrite E1, E2, E3. fields. subst. reflexivity.
Qed.

Lemma view_resume_visits r s q sk aw :
  batchView s = (q, sk, aw ++ [KFlushVisits]) ->
  batchView (resume env (length aw) r s) = (q, sk, aw).
Proof.
  intros V. injection V as Hq Hsk Haw.
  rewrite (resume_last aw _ r s Haw). cbn [continue].
  rewrite view_log_error. unfold batchView. fields. congruence.
Qed.

Lemma view_resume_none r s q sk aw :
  batchView s = (q, sk, aw) ->
  batchView (resume env (length aw) r s) = (q, sk, aw).
Proof.
  intros V. injection V as Hq Hsk Haw.
  rewrite (resume_none aw r s Haw). unfold batchView. congruence.
Qed.

(** A flush that starts on a non-empty queue, with events [es1] enqueued
    before the sink answers the first insert and [es2] before it answers the
    second: the sink receives the writes of the captured batch, and the
    events enqueued meanwhile are all in the queue. *)
Lemma flush_run s es1 es2 r1 r2 :
  eventQueue s <> [] ->
  (length (es1 ++ es2) < MAX_QUEUE_SIZE)%nat ->
  let k := length (awaiting s) in
  batchView
    (resume env k r2
       (enqueueAll env es2 (resume env k r1 (enqueueAll env es1 (flushEvents env s))))) =
  (es1 ++ es2, sink s ++ flushWrites (eventQueue s), awaiting s).
Proof.
  intros N L k. rewrite length_app in L.
  pose proof (view_flushEvents s N) as V. cbv zeta in V.
  unfold flushWrites, categoryWrite.
  destruct (List.filter (in_table business_interactions) (eventQueue s)) as [|b bi].
  - destruct (List.filter (in_table visit_logs) (eventQueue s)) as [|v vl].
    + simpl in V. rewrite !app_nil_r in V. rewrite !app_nil_r.
      apply view_resume_none.
      apply (view_enqueueAll es2 _ es1); [|lia].
      apply view_resume_none.
      apply (view_enqueueAll es1 _ []); [exact V|simpl; lia].
    + cbn [visitWrite visitCont] in V. cbn [app].
      apply view_resume_none.
      apply (view_enqueueAll es2 _ es1); [|lia].
      apply view_resume_visits.
      apply (view_enqueueAll es1 _ []); [exact V|simpl; lia].
  - destruct (List.filter (in_table visit_logs) (eventQueue s)) as [|v vl].
    + rewrite app_nil_r.
      apply view_resume_none.
      apply (view_enqueueAll es2 _ es1); [|lia].
      rewrite <- (app_nil_r (sink s ++ _)), <- (app_nil_r (awaiting s)) at 1.
      apply (view_resume_interactions []).
      apply (view_enqueueAll es1 _ []); [exact V|simpl; lia].
    + apply view_resume_visits.
      apply (view_enqueueAll es2 _ es1); [|lia].
      rewrite app_assoc.
      apply (view_resume_interactions (v :: vl)).
      apply (view_enqueueAll es1 _ []); [exact V|simpl; lia].
Qed.

End FlushRun.

(** ** What a batch sends *)

Lemma insertedRows_app a b : insertedRows (a ++ b) = insertedRows a ++ insertedRows b.
Proof. unfold insertedRows. apply flat_map_app. Qed.

Lemma insertedRows_categoryWrite t batch :
  insertedRows (categoryWrite t batch) = List.map data (List.filter (in_table t) batch).
Proof.
  unfold categoryWrite. destruct (List.filter (in_table t) batch); simpl;
    rewrite ?app_nil_r; reflexivity.
Qed.

Lemma categoryWrite_length t batch :
  length (categoryWrite t batch) =
  if nonempty (List.filter (in_table t) batch) then 1%nat else 0%nat.
Proof. unfold categoryWrite. destruct (List.filter (in_table t) batch); reflexivity. Qed.

(** A batch of known tables is sent whole: the rows of its two writes are
    the rows of the batch, up to the regrouping by category. *)
Lemma flushWrites_complete batch :
  Forall (fun e => known_table (table e)) batch ->
  Permutation (insertedRows (flushWrites batch)) (List.map data batch).
Proof.
  intros K. unfold flushWrites.
  rewrite insertedRows_app, !insertedRows_categoryWrite.
  induction K as [|e batch Ke K IH]; [constructor|].
  destruct e as [t d]. cbn [table] in Ke. cbn [List.filter].
  destruct Ke as [-> | ->].
  - change (in_table business_interactions
              {| table := business_interactions; data := d |}) with true.
    change (in_table visit_logs
              {| table := business_interactions; data := d |}) with false.
    cbn [List.map app data]. constructor. exact IH.
  - change (in_table business_interactions
              {| table := visit_logs; data := d |}) with false.
    change (in_table visit_logs {| table := visit_logs; data := d |}) with true.
    cbn [List.map data].
    apply Permutation_sym, Permutation_cons_app, Permutation_sym. exact IH.
Qed.

Lemma filter_sublist {A} (f : A -> bool) l : sublist (List.filter f l) l.
Proof.
  induction l as [|x l IH]; simpl; [constructor|].
  destruct (f x); [apply sublist_skip|apply sublist_cons]; exact IH.
Qed.

(** ** Conservation of events *)

Lemma accounted_view s q sk aw :
  batchView s = (q, sk, aw) ->
  accounted s = insertedRows sk ++ parkedRows aw ++ List.map data q.
Proof. intros V. injection V as <- <- <-. reflexivity. Qed.

Lemma parkedRows_app a b : parkedRows (a ++ b) = parkedRows a ++ parkedRows b.
Proof. unfold parkedRows. apply flat_map_app. Qed.

Lemma insertedRows_visitWrite vl : insertedRows (visitWrite vl) = List.map data vl.
Proof. destruct vl; [reflexivity|]. cbn [visitWrite insertedRows List.flat_map].
  apply app_nil_r. Qed.

Lemma parkedRows_visitCont vl : parkedRows (visitCont vl) = [].
Proof. destruct vl; reflexivity. Qed.

Section Conservation.

Variable env : Env.
Variable client : Client.
Hypothesis enabled : isAnalyticsEnabled env = true.
Hypothesis configured : analyticsClient env = Some client.

Lemma partition_complete batch :
  Forall (fun e => known_table (table e)) batch ->
  List.map data (List.filter (in_table business_interactions) batch) ++
  List.map data (List.filter (in_table visit_logs) batch) ≡ₚ List.map data batch.
Proof.
  intros K. pose proof (flushWrites_complete batch K) as P.
  unfold flushWrites in P.
  rewrite insertedRows_app, !insertedRows_categoryWrite in P. exact P.
Qed.

Lemma accounted_flushEvents s :
  tables_ok s -> accounted (flushEvents env s) ≡ₚ accounted s.
Proof.
  intros K. destruct (eventQueue s) as [|e q] eqn:Q.
  - rewrite (flushEvents_empty env s Q). reflexivity.
  - assert (N : eventQueue s <> []) by (rewrite Q; discriminate).
    pose proof (view_flushEvents env client enabled configured s N) as V.
    cbv zeta in V. pose proof (partition_complete (eventQueue s) K) as P.
    unfold accounted at 2. rewrite <- P.
    destruct (List.filter (in_table business_interactions) (eventQueue s)) as [|b bi].
    + rewrite (accounted_view _ _ _ _ V).
      rewrite insertedRows_app, parkedRows_app, insertedRows_visitWrite,
        parkedRows_visitCont.
      cbn [List.map app]. rewrite !app_nil_r. solve_Permutation.
    + rewrite (accounted_view _ _ _ _ V).
      rewrite insertedRows_app, parkedRows_app.
      cbn [insertedRows parkedRows List.flat_map List.map app].
      rewrite !app_nil_r. solve_Permutation.
Qed.

Lemma accounted_queueEvent tbl d s :
  known_table tbl -> tables_ok s ->
  accounted (queueEvent env tbl d s) ≡ₚ accounted s ++ [d].
Proof.
  intros Kt K.
  destruct (Nat.le_gt_cases MAX_QUEUE_SIZE (length (eventQueue s) + 1)) as [L|L].
  - rewrite (queueEvent_full env enabled tbl d s L).
    rewrite accounted_flushEvents.
    + unfold accounted. cbn [sink awaiting eventQueue with_eventQueue].
      rewrite map_app. cbn [List.map data]. rewrite !app_assoc. reflexivity.
    + unfold tables_ok. cbn [eventQueue with_eventQueue].
      apply Forall_app; split; [exact K|]. constructor; [exact Kt|constructor].
  - rewrite (accounted_view _ _ _ _
               (view_queueEvent env enabled tbl d s _ _ _ eq_refl L)).
    unfold accounted. rewrite map_app. cbn [List.map data].
    rewrite !app_assoc. reflexivity.
Qed.

Lemma accounted_enqueueAll es : forall s,
  Forall (fun e => known_table (table e)) es -> tables_ok s ->
  accounted (enqueueAll env es s) ≡ₚ accounted s ++ List.map data es /\
  tables_ok (enqueueAll env es s).
Proof.
  induction es as [|e es IH]; intros s Ke K; cbn [enqueueAll List.fold_left List.map].
  - rewrite app_nil_r. split; [reflexivity|exact K].
  - inversion Ke as [|e' es' Ke1 Ke2]; subst.
    assert (K1 : tables_ok (queueEvent env (table e) (data e) s)).
    { apply (inv_queueEvent env tables_ok); unfold tables_ok; intros; fields; auto.
      rewrite scheduleFlush_eventQueue. fields.
      apply Forall_app; split; [assumption|]. constructor; [assumption|constructor]. }
    destruct (IH _ Ke2 K1) as [P T]. split; [|exact T].
    change (List.fold_left (fun s e => queueEvent env (table e) (data e) s) es
              (queueEvent env (table e) (data e) s))
      with (enqueueAll env es (queueEvent env (table e) (data e) s)).
    rewrite P, (accounted_queueEvent _ _ _ Ke1 K). rewrite <- app_assoc. reflexivity.
Qed.

Lemma view_continue_interactions vl r s :
  batchView (continue env (KFlushInteractions vl) r s) =
  (eventQueue s, sink s ++ visitWrite vl, awaiting s ++ visitCont vl).
Proof.
  cbn [continue]. unfold safeAnalyticsOperation.
  match goal with |- context [flushVisitLogs env vl ?t] =>
    destruct (view_flushVisitLogs env client configured vl t) as [s' [E V']] end.
  rewrite E, V'.
  pose proof (view_log_error "Error inserting business interactions:" (error_of r) s) as VL.
  unfold batchView in VL. injection VL as -> -> ->. reflexivity.
Qed.

(** The answer to a flush's insert moves rows from "parked" to "inserted". *)
Lemma accounted_resume i r s k :
  awaiting s !! i = Some k ->
  (exists vl, k = KFlushInteractions vl) \/ k = KFlushVisits ->
  accounted (resume env i r s) ≡ₚ accounted s.
Proof.
  intros A F. unfold resume. rewrite A.
  pose proof (delete_Permutation (awaiting s) i k A) as D.
  assert (PD : parkedRows (awaiting s) ≡ₚ parkedRows (k :: delete i (awaiting s))).
  { unfold parkedRows. apply Permutation_flat_map, D. }
  destruct F as [[vl ->] | ->].
  - rewrite (accounted_view _ _ _ _ (view_continue_interactions vl r _)).
    cbn [eventQueue sink awaiting with_awaiting].
    unfold accounted. rewrite PD.
    rewrite insertedRows_app, parkedRows_app, insertedRows_visitWrite,
      parkedRows_visitCont.
    cbn [parkedRows List.flat_map]. rewrite !app_nil_r. solve_Permutation.
  - cbn [continue].
    assert (V : batchView (log_error "Error inserting visit logs:" (error_of r)
                             (with_awaiting (delete i (awaiting s)) s)) =
                (eventQueue s, sink s, delete i (awaiting s))).
    { rewrite view_log_error. reflexivity. }
    rewrite (accounted_view _ _ _ _ V). unfold accounted. rewrite PD.
    cbn [parkedRows List.flat_map app]. reflexivity.
Qed.

End Conservation.

(** C2. [flushEvents] copies the queue and empties it in its first, unbroken
    segment, before anything is sent, and the writes of this flush are those
    of the copied batch: events enqueued while the sink has not answered yet
    ([es1] before the first answer, [es2] before the second) are in none of
    them and are all found in the queue afterwards, where they wait for the
    next flush.  On an empty queue [flushEvents] changes nothing, so it
    sends nothing.  In every reachable state the batch is sent whole, and
    however many events are enqueued around a flush none is lost or sent
    twice: an enqueue adds its row to the rows inserted, parked or queued,
    and a flush or an answer of the sink only moves rows between these. *)
Theorem flushEvents_swaps_then_sends (env : Env) (client : Client) :
  isAnalyticsEnabled env = true ->
  analyticsClient env = Some client ->
  (forall s, eventQueue s = [] -> flushEvents env s = s) /\
  (forall s, eventQueue s <> [] ->
     flushEvents env s =
       safeAnalyticsOperation (flushOperation env (eventQueue s)) (fun s => s)
         (with_eventQueue [] s) /\
     eventQueue (flushEvents env s) = [] /\
     forall es1 es2 r1 r2,
       (length (es1 ++ es2) < MAX_QUEUE_SIZE)%nat ->
       let k := length (awaiting s) in
       let s' := resume env k r2 (enqueueAll env es2
                   (resume env k r1 (enqueueAll env es1 (flushEvents env s)))) in
       sink s' = sink s ++ flushWrites (eventQueue s) /\
       eventQueue s' = es1 ++ es2 /\
       awaiting s' = awaiting s) /\
  (forall acts t0 path stored s,
     run env acts (init t0 path stored) = Some s ->
     Permutation (insertedRows (flushWrites (eventQueue s)))
       (List.map data (eventQueue s))) /\
  (forall s,
     tables_ok s ->
     (forall tbl d,
        known_table tbl ->
        Permutation (accounted (queueEvent env tbl d s)) (accounted s ++ [d])) /\
     Permutation (accounted (flushEvents env s)) (accounted s) /\
     (forall i r vl,
        awaiting s !! i = Some (KFlushInteractions vl) ->
        Permutation (accounted (resume env i r s)) (accounted s)) /\
     (forall i r,
        awaiting s !! i = Some KFlushVisits ->
        Permutation (accounted (resume env i r s)) (accounted s))).
Proof.
  intros enabled configured. split; [|split; [|split]].
  - intros s E. apply flushEvents_empty, E.
  - intros s N. split; [apply (flushEvents_swap env enabled s N)|].
    split; [apply (flushEvents_frame env enabled s N)|].
    intros es1 es2 r1 r2 L k s'.
    pose proof (flush_run env client enabled configured s es1 es2 r1 r2 N L) as V.
    unfold batchView in V. injection V as V1 V2 V3. auto.
  - intros acts t0 path stored s R.
    apply flushWrites_complete.
    apply (tables_ok_run env acts _ _ (init_tables_ok t0 path stored) R).
  - intros s K. split; [|split; [|split]].
    + intros tbl d Kt. apply (accounted_queueEvent env client enabled configured); auto.
    + apply (accounted_flushEvents env client enabled configured), K.
    + intros i r vl A.
      apply (accounted_resume env client configured i r s _ A). left. eauto.
    + intros i r A.
      apply (accounted_resume env client configured i r s _ A). right. reflexivity.
Qed.

Lemma flushEvents_swaps_then_sends_witness :
  isAnalyticsEnabled env_on = true /\
  analyticsClient env_on = Some client0 /\
  eventQueue mixed <> [] /\
  (length ([interaction 6] ++ [visit 7]) < MAX_QUEUE_SIZE)%nat /\
  let s' := resume env_on 0 (WriteResult None) (enqueueAll env_on [visit 7]
              (resume env_on 0 (WriteResult (Some "timeout"))
                 (enqueueAll env_on [interaction 6] (flushEvents env_on mixed)))) in
  sink s' = sink mixed ++ flushWrites (eventQueue mixed) /\
  eventQueue s' = [interaction 6] ++ [visit 7] /\
  awaiting s' = awaiting mixed.
Proof.
  assert (N : eventQueue mixed <> []) by (vm_compute; discriminate).
  assert (L : (length ([interaction 6] ++ [visit 7]) < MAX_QUEUE_SIZE)%nat)
    by (vm_compute; lia).
  split; [reflexivity|]. split; [reflexivity|]. split; [exact N|]. split; [exact L|].
  exact (proj2 (proj2 (proj1 (proj2
           (flushEvents_swaps_then_sends env_on client0 eq_refl eq_refl)) mixed N))
           [interaction 6] [visit 7] (WriteResult (Some "timeout")) (WriteResult None) L).
Defined.

(** C4. A flush of a non-empty batch, followed to its end, sends one grouped
    insert for each of the two categories that has events in the batch and
    nothing else: as many sink calls as there are non-empty categories, each
    holding exactly the events of its category, in the order they were
    enqueued. *)
Theorem flush_partitions_by_category (env : Env) (client : Client) :
  isAnalyticsEnabled env = true ->
  analyticsClient env = Some client ->
  forall s r1 r2,
    eventQueue s <> [] ->
    let batch := eventQueue s in
    let bi := List.filter (in_table business_interactions) batch in
    let vl := List.filter (in_table visit_logs) batch in
    let k := length (awaiting s) in
    let s' := resume env k r2 (resume env k r1 (flushEvents env s)) in
    sink s' =
      sink s
      ++ (if nonempty bi then [Insert business_interactions (List.map data bi)] else [])
      ++ (if nonempty vl then [Insert visit_logs (List.map data vl)] else []) /\
    length (sink s') =
      (length (sink s) + (if nonempty bi then 1 else 0) + (if nonempty vl then 1 else 0))%nat /\
    sublist bi batch /\ sublist vl batch /\
    (forall e, In e bi <-> In e batch /\ table e = business_interactions) /\
    (forall e, In e vl <-> In e batch /\ table e = visit_logs).
Proof.
  intros enabled configured s r1 r2 N batch bi vl k s'.
  pose proof (flush_run env client enabled configured s [] [] r1 r2 N) as V.
  cbv zeta in V. cbn [enqueueAll List.fold_left app length] in V.
  specialize (V ltac:(unfold MAX_QUEUE_SIZE; lia)).
  unfold batchView in V. injection V as _ V2 _.
  fold k in V2. fold s' in V2.
  assert (W : flushWrites batch =
              (if nonempty bi then [Insert business_interactions (List.map data bi)] else [])
              ++ (if nonempty vl then [Insert visit_logs (List.map data vl)] else [])).
  { unfold flushWrites, categoryWrite. fold bi. fold vl.
    destruct bi, vl; reflexivity. }
  split; [rewrite V2; fold batch; rewrite W; reflexivity|].
  split.
  { rewrite V2. fold batch. rewrite W, !length_app.
    destruct (nonempty bi), (nonempty vl); simpl; lia. }
  split; [apply filter_sublist|]. split; [apply filter_sublist|].
  split; intros e; subst bi vl; rewrite filter_In; unfold in_table;
    rewrite String.eqb_eq; reflexivity.
Qed.

Lemma flush_partitions_by_category_witness :
  isAnalyticsEnabled env_on = true /\
  analyticsClient env_on = Some client0 /\
  eventQueue mixed <> [] /\
  sink (resume env_on 0 (WriteResult None)
          (resume env_on 0 (WriteResult None) (flushEvents env_on mixed))) =
  [Insert business_interactions
     [data (interaction 1); data (interaction 3); data (interaction 5)];
   Insert visit_logs [data (visit 2); data (visit 4)]].
Proof.
  assert (N : eventQueue mixed <> []) by (vm_compute; discriminate).
  split; [reflexivity|]. split; [reflexivity|]. split; [exact N|].
  exact (proj1 (flush_partitions_by_category env_on client0 eq_refl eq_refl mixed
                  (WriteResult None) (WriteResult None) N)).
Defined.

(** ** The two triggers of [queueEvent] *)

(** C3, as stated, fails: with nine events queued the queue length is below
    10, yet the next enqueue flushes at once and leaves the pending timer as
    it was (due at 5000) instead of rescheduling it for 8000. *)
Lemma queueEvent_below_max_counterexample :
  isAnalyticsEnabled env_on = true /\
  (length (eventQueue nine_later) < 10)%nat /\
  let s' := queueEvent env_on visit_logs (data (visit 10)) nine_later in
  length (sink s') = S (length (sink nine_later)) /\
  eventQueue s' = [] /\
  timeouts s' = [(9%nat, 5000)] /\
  ~ In (nextHandle nine_later, now nine_later + FLUSH_INTERVAL) (timeouts s').
Proof.
  split; [reflexivity|]. split; [vm_compute; lia|].
  cbv zeta. split; [vm_compute; reflexivity|]. split; [vm_compute; reflexivity|].
  split; [vm_compute; reflexivity|].
  vm_compute. intros [H|[]]. discriminate H.
Qed.

(** C3 (amended). With analytics enabled, an enqueue after which the queue is
    still below [MAX_QUEUE_SIZE] (at most eight events were queued before it)
    sends nothing and starts no flush; it cancels the timeout remembered in
    [flushTimeout] and sets a new one [FLUSH_INTERVAL] from now, which on a
    reachable state is the only one pending.  For enqueues at 0, 1000 and
    2000 the single timeout is due at 7000, not at 5000: no timeout can fire
    before 7000, and from 7000 on it fires and the queue is flushed.  At most
    one timeout is pending at any time, whatever the enable flag.  With
    analytics disabled an enqueue changes nothing: no flush, no timer. *)
Theorem queueEvent_debounces (env : Env) :
  (isAnalyticsEnabled env = true ->
  (forall tbl d s,
     (length (eventQueue s) + 1 < MAX_QUEUE_SIZE)%nat ->
     let s' := queueEvent env tbl d s in
     eventQueue s' = eventQueue s ++ [{| table := tbl; data := d |}] /\
     sink s' = sink s /\ awaiting s' = awaiting s /\
     flushTimeout s' = Some (nextHandle s) /\
     timeouts s' =
       match flushTimeout s with
       | Some h => List.filter (fun t => negb (Nat.eqb (fst t) h)) (timeouts s)
       | None => timeouts s
       end ++ [(nextHandle s, now s + FLUSH_INTERVAL)]) /\
  (forall acts t0 path stored s,
     run env acts (init t0 path stored) = Some s ->
     (length (timeouts s) <= 1)%nat /\
     forall tbl d,
       (length (eventQueue s) + 1 < MAX_QUEUE_SIZE)%nat ->
       timeouts (queueEvent env tbl d s) = [(nextHandle s, now s + FLUSH_INTERVAL)]) /\
  (forall e1 e2 e3 path stored,
     let s1 := queueEvent env (table e1) (data e1) (init 0 path stored) in
     let s2 := queueEvent env (table e2) (data e2) (with_now 1000 s1) in
     let s3 := queueEvent env (table e3) (data e3) (with_now 2000 s2) in
     timeouts s3 = [(3%nat, 7000)] /\
     (forall h t, t < 7000 -> fireTimeout env h (with_now t s3) = None) /\
     (forall t, 7000 <= t ->
        fireTimeout env 3 (with_now t s3) =
          Some (flushEvents env (clearTimeout 3 (with_now t s3))) /\
        eventQueue (clearTimeout 3 (with_now t s3)) = [e1; e2; e3] /\
        eventQueue (flushEvents env (clearTimeout 3 (with_now t s3))) = [] /\
        timeouts (flushEvents env (clearTimeout 3 (with_now t s3))) = []))) /\
  (forall acts t0 path stored s,
     run env acts (init t0 path stored) = Some s -> (length (timeouts s) <= 1)%nat) /\
  (isAnalyticsEnabled env = false -> forall tbl d s, queueEvent env tbl d s = s).
Proof.
  split; [|split];
    [|intros acts t0 path stored s R;
      exact (proj1 (timers_ok_run env acts _ _ (init_timers_ok t0 path stored) R))
     |intros disabled tbl d s; unfold queueEvent; rewrite disabled; reflexivity].
  intros enabled. split; [|split].
  - intros tbl d s L s'. subst s'.
    rewrite (queueEvent_small env enabled tbl d s L).
    rewrite scheduleFlush_eventQueue, scheduleFlush_sink, scheduleFlush_awaiting,
      scheduleFlush_flushTimeout, scheduleFlush_timeouts.
    fields. repeat split; reflexivity.
  - intros acts t0 path stored s R.
    pose proof (timers_ok_run env acts _ _ (init_timers_ok t0 path stored) R) as T.
    split; [exact (proj1 T)|].
    intros tbl d L. rewrite (queueEvent_small env enabled tbl d s L).
    match goal with |- context [scheduleFlush ?t] =>
      assert (K : timers_ok t) by exact T; rewrite (scheduleFlush_alone t K) end.
    reflexivity.
  - intros [t1 d1] [t2 d2] [t3 d3] path stored s1 s2 s3.
    assert (E3 : s3 =
      with_flushTimeout (Some 3%nat)
        (with_timeouts [(3%nat, 7000)]
           (with_nextHandle 4%nat
              (with_eventQueue [{| table := t1; data := d1 |};
                                {| table := t2; data := d2 |};
                                {| table := t3; data := d3 |}]
                 (with_now 2000 (init 0 path stored)))))).
    { subst s3 s2 s1. unfold queueEvent. rewrite enabled. cbn. reflexivity. }
    clearbody s3. clear s1 s2. subst s3.
    split; [reflexivity|]. split.
    + intros h t Lt. unfold fireTimeout. fields. cbn [List.find fst].
      destruct (Nat.eqb 3 h); [|reflexivity].
      destruct (Z.leb_spec 7000 t); [lia|reflexivity].
    + intros t Le.
      match goal with |- context [clearTimeout 3 ?u] =>
        assert (N : eventQueue (clearTimeout 3 u) <> []) by discriminate end.
      split; [|split; [reflexivity|]].
      * unfold fireTimeout. fields. cbn [List.find fst Nat.eqb].
        destruct (Z.leb_spec 7000 t); [reflexivity|lia].
      * pose proof (flushEvents_frame env enabled _ N) as [F1 [F2 _]].
        split; [exact F1|]. rewrite F2. reflexivity.
Qed.

Lemma queueEvent_debounces_witness :
  isAnalyticsEnabled env_on = true /\
  (length (eventQueue (with_now 1500 mixed)) + 1 < MAX_QUEUE_SIZE)%nat /\
  timeouts (queueEvent env_on visit_logs (data (visit 6)) (with_now 1500 mixed)) =
    [(6%nat, 6500)].
Proof.
  assert (L : (length (eventQueue (with_now 1500 mixed)) + 1 < MAX_QUEUE_SIZE)%nat)
    by (vm_compute; lia).
  split; [reflexivity|]. split; [exact L|].
  pose proof (proj2 (proj2 (proj2 (proj2
    (proj1 (proj1 (queueEvent_debounces env_on) eq_refl)
       visit_logs (data (visit 6)) (with_now 1500 mixed) L))))) as T.
  vm_compute in T. vm_compute. exact T.
Defined.

Lemma scheduleFlush_nextHandle s : nextHandle (scheduleFlush s) = S (nextHandle s).
Proof. unfold scheduleFlush. destruct (flushTimeout s); reflexivity. Qed.

(** C8, as stated, fails: on the enqueue that fires the size trigger the
    flush runs, but no timer is set: the handle counter does not move and
    [flushTimeout] still names the old timeout, due at 5000, not at 6000. *)
Lemma queueEvent_both_triggers_counterexample :
  isAnalyticsEnabled env_on = true /\
  let s' := queueEvent env_on business_interactions (data (interaction 10)) nine_at_1000 in
  eventQueue s' = [] /\
  sink s' = [Insert business_interactions
               (List.map (fun n => data (interaction n)) [1; 2; 3; 4; 5; 6; 7; 8; 9; 10])] /\
  nextHandle s' = nextHandle nine_at_1000 /\
  flushTimeout s' = Some 9%nat /\
  timeouts s' = [(9%nat, 5000)] /\
  timeouts s' <> [(nextHandle nine_at_1000, now nine_at_1000 + FLUSH_INTERVAL)].
Proof.
  split; [reflexivity|]. cbv zeta.
  repeat (split; [vm_compute; reflexivity|]).
  vm_compute. discriminate.
Qed.

(** C8 (amended). An enqueue does exactly one of three things.  With
    analytics disabled it returns at once: it takes neither branch and the
    state is unchanged.  With analytics enabled it takes exactly one of two
    branches: when the queue reaches [MAX_QUEUE_SIZE] it runs [flushEvents]
    and does not touch the timer (the pending timeout, [flushTimeout] and
    the handle counter stay as they were); otherwise it reschedules the
    timer and sends nothing. *)
Theorem queueEvent_one_trigger (env : Env) :
  forall tbl d s,
    let pushed := with_eventQueue (eventQueue s ++ [{| table := tbl; data := d |}]) s in
    let s' := queueEvent env tbl d s in
    (isAnalyticsEnabled env = false /\ s' = s) \/
    (isAnalyticsEnabled env = true /\
     (MAX_QUEUE_SIZE <= length (eventQueue s) + 1)%nat /\
     s' = flushEvents env pushed /\
     eventQueue s' = [] /\
     timeouts s' = timeouts s /\
     flushTimeout s' = flushTimeout s /\
     nextHandle s' = nextHandle s) \/
    (isAnalyticsEnabled env = true /\
     (length (eventQueue s) + 1 < MAX_QUEUE_SIZE)%nat /\
     s' = scheduleFlush pushed /\
     eventQueue s' = eventQueue s ++ [{| table := tbl; data := d |}] /\
     sink s' = sink s /\
     awaiting s' = awaiting s /\
     flushTimeout s' = Some (nextHandle s) /\
     nextHandle s' = S (nextHandle s)).
Proof.
  intros tbl d s pushed s'.
  destruct (isAnalyticsEnabled env) eqn:enabled;
    [right|left; split; [reflexivity|];
           subst s'; unfold queueEvent; rewrite enabled; reflexivity].
  destruct (Nat.le_gt_cases MAX_QUEUE_SIZE (length (eventQueue s) + 1)) as [L|L].
  - left. split; [reflexivity|]. split; [exact L|]. subst s'.
    rewrite (queueEvent_full env enabled tbl d s L). fold pushed.
    assert (N : eventQueue pushed <> []).
    { subst pushed. cbn [eventQueue with_eventQueue].
      destruct (eventQueue s); discriminate. }
    destruct (flushEvents_frame env enabled pushed N) as [F1 [F2 [F3 [F4 _]]]].
    repeat split; assumption.
  - right. split; [reflexivity|]. split; [exact L|]. subst s'.
    rewrite (queueEvent_small env enabled tbl d s L). fold pushed.
    rewrite scheduleFlush_eventQueue, scheduleFlush_sink, scheduleFlush_awaiting,
      scheduleFlush_flushTimeout, scheduleFlush_nextHandle.
    repeat split; reflexivity.
Qed.

Lemma queueEvent_one_trigger_witness :
  isAnalyticsEnabled env_on = true /\
  (eventQueue (queueEvent env_on visit_logs (data (visit 10)) nine) = [] /\
   timeouts (queueEvent env_on visit_logs (data (visit 10)) nine) = timeouts nine) /\
  sink (queueEvent env_on visit_logs (data (visit 6)) mixed) = sink mixed /\
  queueEvent env_off visit_logs (data (visit 1)) nine = nine.
Proof.
  split; [reflexivity|]. split; [|split].
  - destruct (queueEvent_one_trigger env_on visit_logs (data (visit 10)) nine)
      as [[D _] | [[_ [_ [_ [E [T _]]]]] | [_ [L _]]]].
    + discriminate D.
    + split; [exact E|exact T].
    + vm_compute in L. lia.
  - destruct (queueEvent_one_trigger env_on visit_logs (data (visit 6)) mixed)
      as [[D _] | [[_ [L _]] | [_ [_ [_ [_ [E _]]]]]]].
    + discriminate D.
    + vm_compute in L. lia.
    + exact E.
  - destruct (queueEvent_one_trigger env_off visit_logs (data (visit 1)) nine)
      as [[_ E] | [[D _] | [D _]]].
    + exact E.
    + discriminate D.
    + discriminate D.
Defined.

(** ** The heartbeat *)

Lemma sendPing_sends env client deviceId userName s :
  isTabActive s = true ->
  now s - lastActivity s <= 10000 ->
  isAnalyticsEnabled env = true ->
  analyticsClient env = Some client ->
  sendPing env deviceId userName s =
    (request (Upsert live_users
                {| p_device_id := deviceId; p_user_name := userName;
                   is_active := true; last_ping := now s |}
                "device_id") s, true).
Proof.
  unfold sendPing, safeAnalyticsOperation, MIN_ACTIVITY_GAP.
  intros -> G -> ->.
  destruct (Z.ltb_spec 10000 (now s - lastActivity s)); [lia|reflexivity].
Qed.

(** C5. [sendPing] returns without touching anything (no sink call, no error
    logged) when the tab is hidden, whatever the last activity; when the last
    activity is more than [MIN_ACTIVITY_GAP] = 10000 ms old, even if the tab
    is visible; and when analytics is disabled.  When the three gates pass
    (and the client is there to receive it) it upserts into [live_users], on
    conflict of [device_id], the record of this device with [is_active] true
    and [last_ping] the current time. *)
Theorem sendPing_gates (env : Env) (deviceId : string) (userName : option string)
    (s : State) :
  (isTabActive s = false -> sendPing env deviceId userName s = (s, false)) /\
  (10000 < now s - lastActivity s -> sendPing env deviceId userName s = (s, false)) /\
  (isAnalyticsEnabled env = false -> sendPing env deviceId userName s = (s, false)) /\
  (forall client,
     isTabActive s = true ->
     now s - lastActivity s <= 10000 ->
     isAnalyticsEnabled env = true ->
     analyticsClient env = Some client ->
     sendPing env deviceId userName s =
       (request (Upsert live_users
                   {| p_device_id := deviceId; p_user_name := userName;
                      is_active := true; last_ping := now s |}
                   "device_id") s, true)).
Proof.
  split; [|split; [|split]].
  - unfold sendPing. intros ->. reflexivity.
  - unfold sendPing, MIN_ACTIVITY_GAP. intros G. apply Z.ltb_lt in G.
    rewrite G, orb_true_r. reflexivity.
  - unfold sendPing. intros ->. rewrite orb_true_r. reflexivity.
  - intros client. apply sendPing_sends.
Qed.

Lemma sendPing_gates_witness :
  (isTabActive hidden_page = false /\
   sendPing env_on "dev" None hidden_page = (hidden_page, false)) /\
  (10000 < now idle_page - lastActivity idle_page /\
   sendPing env_on "dev" None idle_page = (idle_page, false)) /\
  (isAnalyticsEnabled env_off = false /\
   sendPing env_off "dev" None active_page = (active_page, false)) /\
  (isTabActive active_page = true /\
   now active_page - lastActivity active_page <= 10000 /\
   isAnalyticsEnabled env_on = true /\
   analyticsClient env_on = Some client0 /\
   sendPing env_on "dev" (Some "ann") active_page =
     (request (Upsert live_users
                 {| p_device_id := "dev"; p_user_name := Some "ann";
                    is_active := true; last_ping := 4000 |}
                 "device_id") active_page, true)).
Proof.
  assert (I : 10000 < now idle_page - lastActivity idle_page) by (vm_compute; reflexivity).
  assert (A : now active_page - lastActivity active_page <= 10000)
    by (vm_compute; discriminate).
  split; [|split; [|split]].
  - split; [reflexivity|].
    exact (proj1 (sendPing_gates env_on "dev" None hidden_page) eq_refl).
  - split; [exact I|].
    exact (proj1 (proj2 (sendPing_gates env_on "dev" None idle_page)) I).
  - split; [reflexivity|].
    exact (proj1 (proj2 (proj2 (sendPing_gates env_off "dev" None active_page))) eq_refl).
  - split; [reflexivity|]. split; [exact A|]. split; [reflexivity|]. split; [reflexivity|].
    exact (proj2 (proj2 (proj2 (sendPing_gates env_on "dev" (Some "ann") active_page)))
             client0 eq_refl A eq_refl eq_refl).
Defined.

(** ** The disabled page *)

(** [getDeviceId] writes nothing but the storage and the random counter. *)
Lemma getDeviceId_writes env s :
  exists ls n, snd (getDeviceId env s) = with_localStorage ls (with_rngCalls n s).
Proof.
  unfold getDeviceId.
  destruct (localStorage s !! DEVICE_ID_KEY) as [d|]; [destruct (truthy d)|];
    cbn [snd]; try (eexists; eexists; reflexivity);
    exists (localStorage s), (rngCalls s); destruct s; reflexivity.
Qed.

Section Disabled.

Variable env : Env.
Hypothesis disabled : isAnalyticsEnabled env = false.

Lemma queueEvent_disabled tbl d s : queueEvent env tbl d s = s.
Proof. unfold queueEvent. rewrite disabled. reflexivity. Qed.

Lemma flushEvents_disabled s : flushEvents env s = s.
Proof. unfold flushEvents. rewrite disabled, orb_true_r. reflexivity. Qed.

Lemma sendPing_disabled d u s : sendPing env d u s = (s, false).
Proof. unfold sendPing. rewrite disabled, orb_true_r. reflexivity. Qed.

Lemma startLiveTracking_disabled s : startLiveTracking env s = s.
Proof. unfold startLiveTracking. rewrite disabled. reflexivity. Qed.

Lemma trackUserVisit_disabled name s : trackUserVisit env name s = setUserName name s.
Proof. unfold trackUserVisit. rewrite disabled. reflexivity. Qed.

Lemma initializeTracking_disabled s : initializeTracking env s = s.
Proof. unfold initializeTracking. rewrite disabled. reflexivity. Qed.

Lemma quiet_step a s s' : quiet s -> step env a s = Some s' -> quiet s'.
Proof.
  intros Q E. destruct a; cbn [step] in E.
  - inversion E; subst. destruct (getDeviceId_writes env s) as [ls [n ->]]. exact Q.
  - inversion E; subst. exact Q.
  - inversion E; subst. unfold trackBusinessInteraction.
    destruct (getDeviceId_writes env s) as [ls [n W]].
    destruct (getDeviceId env s) as [dev s1]. cbn [snd] in W. subst s1.
    rewrite queueEvent_disabled. exact Q.
  - inversion E; subst. rewrite trackUserVisit_disabled. exact Q.
  - inversion E; subst. rewrite initializeTracking_disabled. exact Q.
  - inversion E; subst. rewrite startLiveTracking_disabled. exact Q.
  - destruct (0 <=? dt); inversion E; subst. exact Q.
  - inversion E; subst. exact Q.
  - inversion E; subst. exact Q.
  - inversion E; subst. unfold onVisibilityChange.
    destruct (isTabActive _); exact Q.
  - unfold fireTimeout in E. destruct Q as [_ [_ [T _]]]. rewrite T in E. discriminate.
  - unfold fireInterval in E. destruct Q as [_ [_ [_ [I _]]]]. rewrite I in E. discriminate.
  - destruct Q as [_ [A _]]. rewrite A in E. destruct i; discriminate.
  - inversion E; subst. unfold beforeUnload.
    destruct Q as [Q1 [Q2 [Q3 [Q4 [Q5 [Q6 [Q7 Q8]]]]]]]. rewrite Q8.
    cbn [List.fold_left runListener]. rewrite flushEvents_disabled.
    repeat split; assumption.
Qed.

Lemma quiet_run acts : forall s s', quiet s -> run env acts s = Some s' -> quiet s'.
Proof.
  induction acts as [|a acts IH]; intros s s' Q E; simpl in E.
  - inversion E; subst; exact Q.
  - destruct (step env a s) as [s1|] eqn:S1; [|discriminate].
    eapply IH; [|exact E]. eapply quiet_step; eauto.
Qed.

End Disabled.

Lemma quiet_init t0 path stored : quiet (init t0 path stored).
Proof. repeat split. Qed.

(** C7. With the enable flag off, [queueEvent], [sendPing] and
    [startLiveTracking] return the state they were given: no sink call, no
    timer, the queue, [flushTimeout] and [pingInterval] untouched.
    [trackUserVisit] does exactly [setUserName]: the name is stored and can be
    read back, and nothing else changes.  Over a whole session of a disabled
    page nothing is ever sent, parked or scheduled. *)
Theorem disabled_is_noop (env : Env) :
  isAnalyticsEnabled env = false ->
  (forall tbl d s, queueEvent env tbl d s = s) /\
  (forall deviceId userName s, sendPing env deviceId userName s = (s, false)) /\
  (forall s, startLiveTracking env s = s) /\
  (forall name s,
     trackUserVisit env name s = setUserName name s /\
     getUserName (trackUserVisit env name s) = Some name /\
     hasUserName (trackUserVisit env name s) = truthy name /\
     trackUserVisit env name s =
       with_localStorage (<[USER_NAME_KEY := name]> (localStorage s)) s) /\
  (forall acts t0 path stored s,
     run env acts (init t0 path stored) = Some s ->
     sink s = [] /\ awaiting s = [] /\ timeouts s = [] /\ intervals s = [] /\
     eventQueue s = [] /\ flushTimeout s = None /\ pingInterval s = None).
Proof.
  intros disabled. split; [|split; [|split; [|split]]].
  - apply queueEvent_disabled, disabled.
  - apply sendPing_disabled, disabled.
  - apply startLiveTracking_disabled, disabled.
  - intros name s. rewrite (trackUserVisit_disabled env disabled).
    assert (G : getUserName (setUserName name s) = Some name).
    { unfold getUserName, setUserName. cbn [localStorage with_localStorage].
      apply lookup_insert_eq. }
    split; [reflexivity|]. split; [exact G|]. split; [|reflexivity].
    unfold hasUserName. rewrite G. reflexivity.
  - intros acts t0 path stored s R.
    pose proof (quiet_run env disabled acts _ _ (quiet_init t0 path stored) R) as Q.
    unfold quiet in Q. tauto.
Qed.

Lemma disabled_is_noop_witness :
  isAnalyticsEnabled env_off = false /\
  queueEvent env_off visit_logs (data (visit 1)) page0 = page0 /\
  startLiveTracking env_off page0 = page0 /\
  getUserName (trackUserVisit env_off "ann" page0) = Some "ann".
Proof.
  pose proof (disabled_is_noop env_off eq_refl) as [Q [_ [L [T _]]]].
  split; [reflexivity|]. split; [apply Q|]. split; [apply L|].
  apply (T "ann" page0).
Defined.

(** ** Following [startLiveTracking] through its [await] *)

Lemma beacons_app a b : beacons (a ++ b) = beacons a ++ beacons b.
Proof. unfold beacons. apply flat_map_app. Qed.

Section Heartbeat.

Variable env : Env.

Lemma getDeviceId_heartbeat s : heartbeatView (snd (getDeviceId env s)) = heartbeatView s.
Proof. destruct (getDeviceId_writes env s) as [ls [n ->]]. reflexivity. Qed.

Lemma getDeviceId_awaiting s : awaiting (snd (getDeviceId env s)) = awaiting s.
Proof. destruct (getDeviceId_writes env s) as [ls [n ->]]. reflexivity. Qed.

Lemma getDeviceId_sink s : sink (snd (getDeviceId env s)) = sink s.
Proof. destruct (getDeviceId_writes env s) as [ls [n ->]]. reflexivity. Qed.

Lemma getDeviceId_eventQueue s : eventQueue (snd (getDeviceId env s)) = eventQueue s.
Proof. destruct (getDeviceId_writes env s) as [ls [n ->]]. reflexivity. Qed.

Lemma getDeviceId_userName s : getUserName (snd (getDeviceId env s)) = getUserName s.
Proof.
  unfold getDeviceId, getUserName.
  destruct (localStorage s !! DEVICE_ID_KEY) as [d|]; [destruct (truthy d)|];
    cbn [snd localStorage with_localStorage]; try reflexivity;
    apply lookup_insert_ne; discriminate.
Qed.

(** [sendPing] either leaves the state alone or adds one upsert. *)
Lemma sendPing_cases d u s :
  sendPing env d u s = (s, false) \/
  exists row, sendPing env d u s = (request (Upsert live_users row "device_id") s, true).
Proof.
  unfold sendPing, safeAnalyticsOperation.
  destruct (negb (isTabActive s) || (MIN_ACTIVITY_GAP <? now s - lastActivity s)
            || negb (isAnalyticsEnabled env)); [left; reflexivity|].
  destruct (analyticsClient env); [right; eexists|left]; reflexivity.
Qed.

Lemma sendPing_heartbeat d u s :
  heartbeatView (fst (sendPing env d u s)) = heartbeatView s.
Proof. destruct (sendPing_cases d u s) as [->|[row ->]]; reflexivity. Qed.

Lemma sendPing_awaiting d u s : awaiting (fst (sendPing env d u s)) = awaiting s.
Proof. destruct (sendPing_cases d u s) as [->|[row ->]]; reflexivity. Qed.

Lemma sendPing_eventQueue d u s : eventQueue (fst (sendPing env d u s)) = eventQueue s.
Proof. destruct (sendPing_cases d u s) as [->|[row ->]]; reflexivity. Qed.

Lemma sendPing_sink d u s :
  exists w, sink (fst (sendPing env d u s)) = sink s ++ w /\
            beacons w = [] /\ (length w <= 1)%nat.
Proof.
  destruct (sendPing_cases d u s) as [->|[row ->]]; cbn [fst sink request with_sink].
  - exists []. rewrite app_nil_r. repeat split. simpl; lia.
  - eexists. split; [reflexivity|]. split; [reflexivity|]. simpl; lia.
Qed.

Hypothesis enabled : isAnalyticsEnabled env = true.

(** The call parks one continuation that holds the device id and the user
    name read from the storage at the call. *)
Lemma startLiveTracking_parks s :
  exists p,
    startLiveTracking env s =
    suspend (KLive (fst (getDeviceId env s)) (getUserName s) p)
      (fst (sendPing env (fst (getDeviceId env s)) (getUserName s)
              (snd (getDeviceId env s)))).
Proof.
  unfold startLiveTracking. rewrite enabled. cbn [negb].
  rewrite <- (getDeviceId_userName s).
  destruct (getDeviceId env s) as [d s1]. cbn [fst snd].
  destruct (sendPing env d (getUserName s1) s1) as [s2 p]. exists p. reflexivity.
Qed.

Lemma startLiveTracking_heartbeat s :
  heartbeatView (startLiveTracking env s) = heartbeatView s.
Proof.
  destruct (startLiveTracking_parks s) as [p ->].
  change (heartbeatView (suspend ?k ?t)) with (heartbeatView t).
  rewrite sendPing_heartbeat. apply getDeviceId_heartbeat.
Qed.

Lemma startLiveTracking_awaiting s :
  exists p,
    awaiting (startLiveTracking env s) =
    awaiting s ++ [KLive (fst (getDeviceId env s)) (getUserName s) p].
Proof.
  destruct (startLiveTracking_parks s) as [p ->]. exists p.
  cbn [awaiting suspend with_awaiting].
  rewrite sendPing_awaiting, getDeviceId_awaiting. reflexivity.
Qed.

Lemma startLiveTracking_sink s :
  exists w, sink (startLiveTracking env s) = sink s ++ w /\ beacons w = [].
Proof.
  destruct (startLiveTracking_parks s) as [p ->].
  cbn [sink suspend with_awaiting].
  match goal with |- context [sendPing env ?d ?u ?t] =>
    destruct (sendPing_sink d u t) as [w [E [B _]]] end.
  rewrite E, getDeviceId_sink. exists w. auto.
Qed.

Lemma startLiveTracking_eventQueue s :
  eventQueue (startLiveTracking env s) = eventQueue s.
Proof.
  destruct (startLiveTracking_parks s) as [p ->].
  cbn [eventQueue suspend with_awaiting].
  rewrite sendPing_eventQueue. apply getDeviceId_eventQueue.
Qed.

End Heartbeat.

(** Once resumed, the call leaves exactly one interval, its own. *)
Lemma continue_live env d u p r s :
  intervals_ok s ->
  heartbeatView (continue env (KLive d u p) r s) =
  (now s, lastActivity s, isTabActive s, S (nextHandle s), Some (nextHandle s),
   [{| i_handle := nextHandle s; i_due := now s + PING_INTERVAL;
       i_deviceId := d; i_userName := u |}],
   unloadListeners s ++ [FinalPing d u]) /\
  awaiting (continue env (KLive d u p) r s) = awaiting s /\
  sink (continue env (KLive d u p) r s) = sink s /\
  eventQueue (continue env (KLive d u p) r s) = eventQueue s /\
  localStorage (continue env (KLive d u p) r s) = localStorage s.
Proof.
  intros I. cbn [continue].
  set (t := if p then log_error "Error sending ping:" (error_of r) s else s).
  assert (V : heartbeatView t = heartbeatView s /\ awaiting t = awaiting s /\
              sink t = sink s /\ eventQueue t = eventQueue s /\
              localStorage t = localStorage s).
  { subst t. destruct p; [destruct (error_of r)|]; repeat split. }
  destruct V as [V [A [K [Q LS]]]].
  assert (I' : intervals_ok t).
  { unfold heartbeatView in V. injection V as _ _ _ _ Vp Vi _.
    unfold intervals_ok. rewrite Vp, Vi. exact I. }
  unfold heartbeatView.
  rewrite (rest_alone d u t I'), rest_pingInterval, rest_unloadListeners,
    rest_awaiting, rest_sink, rest_eventQueue.
  unfold heartbeatView in V. injection V as V1 V2 V3 V4 V5 V6 V7.
  assert (R : now (startLiveTracking_rest d u t) = now t /\
              lastActivity (startLiveTracking_rest d u t) = lastActivity t /\
              isTabActive (startLiveTracking_rest d u t) = isTabActive t /\
              nextHandle (startLiveTracking_rest d u t) = S (nextHandle t) /\
              localStorage (startLiveTracking_rest d u t) = localStorage t).
  { unfold startLiveTracking_rest. destruct (pingInterval t); repeat split. }
  destruct R as [R1 [R2 [R3 [R4 R5]]]].
  rewrite R1, R2, R3, R4, R5, V1, V2, V3, V4, V7, A, K, Q, LS.
  repeat split.
Qed.

(** ** One schedule at a time *)

Lemma resume_head env k ks r s :
  awaiting s = k :: ks ->
  step env (Resume 0 r) s = Some (continue env k r (with_awaiting ks s)).
Proof. intros E. cbn [step]. unfold resume. rewrite E. reflexivity. Qed.

(** With a single live interval, a tick can only be its tick; it arms the
    interval again for one period later and sends at most one request. *)
Lemma fireInterval_single env iv s h s' :
  intervals s = [iv] ->
  fireInterval env h s = Some s' ->
  h = i_handle iv /\ i_due iv <= now s /\ now s' = now s /\
  intervals s' = [{| i_handle := i_handle iv; i_due := now s + PING_INTERVAL;
                     i_deviceId := i_deviceId iv; i_userName := i_userName iv |}] /\
  exists w, sink s' = sink s ++ w /\ (length w <= 1)%nat.
Proof.
  intros I E. unfold fireInterval in E. rewrite I in E. cbn [List.find] in E.
  destruct (Nat.eqb (i_handle iv) h) eqn:H; [|discriminate].
  apply Nat.eqb_eq in H. subst h.
  destruct (Z.leb_spec (i_due iv) (now s)) as [D|D]; [|discriminate].
  cbn [List.map] in E. unfold rearm in E. rewrite Nat.eqb_refl in E.
  match type of E with context [sendPing env ?d ?u ?t] =>
    destruct (sendPing_cases env d u t) as [P|[row P]]; rewrite P in E end;
    inversion E; subst; cbn [now intervals sink suspend request with_awaiting
                             with_sink with_intervals].
  - repeat split; try assumption. exists []. rewrite app_nil_r. split; [reflexivity|simpl; lia].
  - repeat split; try assumption. eexists. split; [reflexivity|simpl; lia].
Qed.

Lemma fireInterval_not_due env iv s h :
  intervals s = [iv] -> now s < i_due iv -> fireInterval env h s = None.
Proof.
  intros I D. unfold fireInterval. rewrite I. cbn [List.find].
  destruct (Nat.eqb (i_handle iv) h); [|reflexivity].
  destruct (Z.leb_spec (i_due iv) (now s)); [lia|reflexivity].
Qed.

Lemma intervals_ok_view s t :
  heartbeatView s = heartbeatView t -> intervals_ok t -> intervals_ok s.
Proof.
  unfold heartbeatView, intervals_ok. intros V. injection V as _ _ _ _ -> -> _.
  intros I; exact I.
Qed.

(** C6. In every reachable state at most one ping interval is live, because
    the rest of [startLiveTracking] clears the interval [pingInterval] names
    before it sets its own: whatever was live before, exactly its own
    interval is live after.  Two calls in succession on a fresh page leave one
    interval (the second call's, handle 2), and at the next tick only that
    interval can fire, once, with at most one request. *)
Theorem startLiveTracking_single_schedule (env : Env) :
  (forall acts t0 path stored s,
     run env acts (init t0 path stored) = Some s ->
     (length (intervals s) <= 1)%nat /\
     forall d u,
       intervals (startLiveTracking_rest d u s) =
       [{| i_handle := nextHandle s; i_due := now s + PING_INTERVAL;
           i_deviceId := d; i_userName := u |}]) /\
  (isAnalyticsEnabled env = true ->
   forall t0 path stored r1 r2,
   exists s d u,
     run env [CallStartLiveTracking; CallStartLiveTracking; Resume 0 r1; Resume 0 r2]
       (init t0 path stored) = Some s /\
     intervals s = [{| i_handle := 2; i_due := t0 + PING_INTERVAL;
                       i_deviceId := d; i_userName := u |}] /\
     pingInterval s = Some 2%nat /\
     forall h s',
       fireInterval env h (with_now (t0 + PING_INTERVAL) s) = Some s' ->
       h = 2%nat /\
       (exists w, sink s' = sink s ++ w /\ (length w <= 1)%nat) /\
       (length (intervals s') = 1)%nat /\
       forall h', fireInterval env h' s' = None).
Proof.
  split.
  - intros acts t0 path stored s R.
    pose proof (intervals_ok_run env acts _ _ (init_intervals_ok t0 path stored) R) as I.
    split; [exact (proj1 I)|]. intros d u. apply rest_alone, I.
  - intros enabled t0 path stored r1 r2.
    destruct (startLiveTracking_awaiting env enabled (init t0 path stored)) as [p1 A1].
    pose proof (startLiveTracking_heartbeat env enabled (init t0 path stored)) as V1.
    remember (startLiveTracking env (init t0 path stored)) as s1 eqn:E1.
    cbn [awaiting init app] in A1.
    destruct (startLiveTracking_awaiting env enabled s1) as [p2 A2].
    pose proof (startLiveTracking_heartbeat env enabled s1) as V2.
    remember (startLiveTracking env s1) as s2 eqn:E2.
    rewrite A1 in A2. cbn [app] in A2. rewrite V1 in V2.
    remember (fst (getDeviceId env (init t0 path stored))) as d1 eqn:Ed1.
    remember (getUserName (init t0 path stored)) as u1 eqn:Eu1.
    remember (fst (getDeviceId env s1)) as d2 eqn:Ed2.
    remember (getUserName s1) as u2 eqn:Eu2.
    assert (I2 : intervals_ok (with_awaiting [KLive d2 u2 p2] s2)).
    { apply (intervals_ok_view _ (init t0 path stored)); [exact V2|].
      apply init_intervals_ok. }
    destruct (continue_live env d1 u1 p1 r1 _ I2) as [V3 [A3 _]].
    remember (continue env (KLive d1 u1 p1) r1 (with_awaiting [KLive d2 u2 p2] s2))
      as s3 eqn:E3.
    cbn [now lastActivity isTabActive nextHandle unloadListeners awaiting
         with_awaiting] in V3, A3.
    unfold heartbeatView in V2. injection V2 as N2 L2 T2 H2 P2 I2' U2.
    rewrite N2, H2 in V3. cbn [now nextHandle init] in V3.
    unfold heartbeatView in V3. injection V3 as N3 L3 T3 H3 P3 I3' U3.
    assert (I3 : intervals_ok (with_awaiting [] s3)).
    { unfold intervals_ok. cbn [intervals pingInterval with_awaiting].
      rewrite P3, I3'. split; [simpl; lia|]. intros i [<-|[]]. reflexivity. }
    destruct (continue_live env d2 u2 p2 r2 _ I3) as [V4 [A4 [K4 _]]].
    remember (continue env (KLive d2 u2 p2) r2 (with_awaiting [] s3)) as s4 eqn:E4.
    cbn [now lastActivity isTabActive nextHandle unloadListeners awaiting
         with_awaiting sink] in V4, A4, K4.
    rewrite N3, H3 in V4.
    unfold heartbeatView in V4. injection V4 as N4 L4 T4 H4 P4 I4 U4.
    exists s4, d2, u2.
    split; [|split; [exact I4|split; [exact P4|]]].
    + cbn [run].
      change (step env CallStartLiveTracking (init t0 path stored))
        with (Some (startLiveTracking env (init t0 path stored))).
      rewrite <- E1.
      change (step env CallStartLiveTracking s1) with (Some (startLiveTracking env s1)).
      rewrite <- E2.
      rewrite (resume_head env _ _ r1 s2 A2). rewrite <- E3.
      rewrite (resume_head env _ _ r2 s3 A3). rewrite <- E4. reflexivity.
    + intros h s' F.
      assert (I5 : intervals (with_now (t0 + PING_INTERVAL) s4) =
                   [{| i_handle := 2; i_due := t0 + PING_INTERVAL;
                       i_deviceId := d2; i_userName := u2 |}]) by exact I4.
      destruct (fireInterval_single env _ _ h s' I5 F) as [Eh [_ [En [Ei [w [Ew Lw]]]]]].
      cbn [i_handle i_deviceId i_userName now with_now sink] in Eh, En, Ei, Ew.
      split; [exact Eh|]. split; [exists w; auto|]. split; [rewrite Ei; reflexivity|].
      intros h'. apply (fireInterval_not_due env _ s' h' Ei).
      rewrite En. cbn [i_due]. unfold PING_INTERVAL. lia.
Qed.

Lemma startLiveTracking_single_schedule_witness :
  isAnalyticsEnabled env_on = true /\
  exists s,
    run env_on [CallStartLiveTracking; CallStartLiveTracking;
                Resume 0 (WriteResult None); Resume 0 (WriteResult None)] page0 = Some s /\
    (length (intervals s) = 1)%nat.
Proof.
  split; [reflexivity|].
  destruct (proj2 (startLiveTracking_single_schedule env_on) eq_refl 0 "/" ∅
              (WriteResult None) (WriteResult None)) as [s [d [u [R [I _]]]]].
  exists s. split; [exact R|]. rewrite I. reflexivity.
Defined.

(** ** What a running schedule sends *)

(** With a single live interval that is due, on a visible and recently
    active page, the tick upserts the record of the values the interval
    captured. *)
Lemma fireInterval_fires env client iv s :
  isAnalyticsEnabled env = true ->
  analyticsClient env = Some client ->
  intervals s = [iv] ->
  i_due iv <= now s ->
  isTabActive s = true ->
  now s - lastActivity s <= 10000 ->
  exists s',
    fireInterval env (i_handle iv) s = Some s' /\
    sink s' = sink s ++ [Upsert live_users
                           {| p_device_id := i_deviceId iv; p_user_name := i_userName iv;
                              is_active := true; last_ping := now s |}
                           "device_id"].
Proof.
  intros enabled configured I D T G.
  unfold fireInterval. rewrite I. cbn [List.find]. rewrite Nat.eqb_refl.
  destruct (Z.leb_spec (i_due iv) (now s)) as [_|B]; [|lia].
  match goal with |- context [sendPing env ?d ?u ?t] =>
    rewrite (sendPing_sends env client d u t T G enabled configured)
  end.
  eexists. split; reflexivity.
Qed.

(** Nothing the page does changes what a live interval has captured: a tick
    arms the interval again with the same pair, and a later interval gets a
    later handle. *)
Lemma keeps_identity_run env h d u acts s s' :
  keeps_identity h d u s -> run env acts s = Some s' -> keeps_identity h d u s'.
Proof.
  apply inv_run; unfold keeps_identity; intros; fields; auto.
  - rewrite scheduleFlush_nextHandle, scheduleFlush_intervals.
    destruct H0 as [Hh Hi]. split; [fields; lia|exact Hi].
  - destruct H as [Hh Hi]. split; [exact Hh|].
    intros i Hin. apply filter_In in Hin. apply Hi, Hin.
  - destruct H as [Hh Hi]. split; [exact Hh|].
    intros i Hin Eh. apply in_map_iff in Hin. destruct Hin as [j [<- Hj]].
    rewrite rearm_handle in Eh. destruct (Hi j Hj Eh) as [Ed Eu].
    unfold rearm. destruct (Nat.eqb (i_handle j) h0); split; assumption.
  - destruct H as [Hh Hi]. unfold startLiveTracking_rest.
    assert (K : forall t,
              nextHandle t = nextHandle s0 ->
              (forall i, In i (intervals t) -> In i (intervals s0)) ->
              (h < nextHandle
                     (with_unloadListeners
                        (unloadListeners t ++ [FinalPing d0 u0])
                        (with_pingInterval (Some (nextHandle t))
                           (snd (setInterval d0 u0 PING_INTERVAL t)))))%nat /\
              forall i,
                In i (intervals
                        (with_unloadListeners
                           (unloadListeners t ++ [FinalPing d0 u0])
                           (with_pingInterval (Some (nextHandle t))
                              (snd (setInterval d0 u0 PING_INTERVAL t))))) ->
                i_handle i = h -> i_deviceId i = d /\ i_userName i = u).
    { intros t Nt It. fields. rewrite Nt. split; [lia|].
      intros i Hin Eh. apply in_app_iff in Hin. destruct Hin as [Hin|[<-|[]]].
      - apply (Hi i (It i Hin) Eh).
      - cbn [i_handle] in Eh. lia. }
    destruct (pingInterval s0) as [h1|].
    + apply (K (clearInterval h1 s0)); [reflexivity|].
      intros i Hin. unfold clearInterval in Hin. fields.
      apply filter_In in Hin. apply Hin.
    + apply (K s0); [reflexivity|auto].
Qed.

(** A tick of the interval [h] sends nothing, or the upsert of the pair the
    interval holds. *)
Lemma tick_sends_captured env h d u s s' :
  keeps_identity h d u s ->
  fireInterval env h s = Some s' ->
  sink s' = sink s \/
  sink s' = sink s ++ [Upsert live_users
                         {| p_device_id := d; p_user_name := u;
                            is_active := true; last_ping := now s |}
                         "device_id"].
Proof.
  intros [_ K] F. unfold fireInterval in F.
  destruct (List.find (fun i => Nat.eqb (i_handle i) h) (intervals s)) as [i|] eqn:E;
    [|discriminate].
  apply List.find_some in E. destruct E as [Hin Eh]. apply Nat.eqb_eq in Eh.
  destruct (K i Hin Eh) as [Ed Eu]. rewrite Ed, Eu in F.
  destruct (i_due i <=? now s); [|discriminate].
  unfold sendPing, safeAnalyticsOperation in F. fields.
  destruct (negb (isTabActive s) || (MIN_ACTIVITY_GAP <? now s - lastActivity s)
            || negb (isAnalyticsEnabled env)).
  - injection F as <-. left. reflexivity.
  - destruct (analyticsClient env); injection F as <-; [right|left]; reflexivity.
Qed.

(** C9. The interval set up by a call of [startLiveTracking] pings with the
    device id and the user name that were in the storage when the call
    started.  Renaming the user while the call awaits its first ping ([n1]) or
    after the schedule is running ([n2]) changes the stored name, not the
    pings: the next tick still upserts the name read at the start.  And so
    does every later one: whatever the page does afterwards (more renames,
    more ticks, other calls), the interval of this call, for as long as it
    lives, holds the pair read at the start, and each of its ticks sends
    either nothing or the upsert of that pair. *)
Theorem ping_uses_captured_identity (env : Env) (client : Client) :
  isAnalyticsEnabled env = true ->
  analyticsClient env = Some client ->
  forall acts t0 path stored s n1 n2 r dt,
    run env acts (init t0 path stored) = Some s ->
    isTabActive s = true ->
    PING_INTERVAL <= dt ->
    let d := fst (getDeviceId env s) in
    let u := getUserName s in
    let s1 := setUserName n1 (startLiveTracking env s) in
    let s2 := setUserName n2 (resume env (length (awaiting s)) r s1) in
    let s3 := onActivity (with_now (now s + dt) s2) in
    getUserName s3 = Some n2 /\
    intervals s3 = [{| i_handle := nextHandle s; i_due := now s + PING_INTERVAL;
                       i_deviceId := d; i_userName := u |}] /\
    (exists s4,
       fireInterval env (nextHandle s) s3 = Some s4 /\
       sink s4 = sink s3 ++ [Upsert live_users
                               {| p_device_id := d; p_user_name := u;
                                  is_active := true; last_ping := now s + dt |}
                               "device_id"]) /\
    forall more s',
      run env more s2 = Some s' ->
      (forall i, In i (intervals s') -> i_handle i = nextHandle s ->
         i_deviceId i = d /\ i_userName i = u) /\
      forall s'',
        fireInterval env (nextHandle s) s' = Some s'' ->
        sink s'' = sink s' \/
        sink s'' = sink s' ++ [Upsert live_users
                                 {| p_device_id := d; p_user_name := u;
                                    is_active := true; last_ping := now s' |}
                                 "device_id"].
Proof.
  intros enabled configured acts t0 path stored s n1 n2 r dt R T D d u s1 s2 s3.
  pose proof (intervals_ok_run env acts _ _ (init_intervals_ok t0 path stored) R) as I.
  destruct (startLiveTracking_awaiting env enabled s) as [p A]. fold d u in A.
  pose proof (startLiveTracking_heartbeat env enabled s) as V.
  assert (A1 : awaiting s1 = awaiting s ++ [KLive d u p]) by exact A.
  assert (I1 : intervals_ok (with_awaiting (awaiting s) s1)).
  { apply (intervals_ok_view _ s); [exact V|exact I]. }
  destruct (continue_live env d u p r _ I1) as [V2 _].
  rewrite <- (resume_last env (awaiting s) (KLive d u p) r s1 A1) in V2.
  change (heartbeatView (resume env (length (awaiting s)) r s1))
    with (heartbeatView (with_now (now s2) s2)) in V2.
  unfold heartbeatView in V. injection V as N L Ta H _ _ _.
  change (now (with_awaiting (awaiting s) s1)) with (now (startLiveTracking env s)) in V2.
  change (lastActivity (with_awaiting (awaiting s) s1))
    with (lastActivity (startLiveTracking env s)) in V2.
  change (isTabActive (with_awaiting (awaiting s) s1))
    with (isTabActive (startLiveTracking env s)) in V2.
  change (nextHandle (with_awaiting (awaiting s) s1))
    with (nextHandle (startLiveTracking env s)) in V2.
  rewrite N, L, Ta, H in V2.
  unfold heartbeatView in V2. injection V2 as _ _ T2 H2 _ I2 _.
  cbn [isTabActive intervals nextHandle with_now] in T2, H2, I2.
  assert (K2 : keeps_identity (nextHandle s) d u s2).
  { split.
    - change (nextHandle s2) with (nextHandle (resume env (length (awaiting s)) r s1)).
      rewrite H2. lia.
    - change (intervals s2) with (intervals (resume env (length (awaiting s)) r s1)).
      rewrite I2. intros i [<-|[]] _. split; reflexivity. }
  assert (G : getUserName s3 = Some n2).
  { unfold getUserName. apply lookup_insert_eq. }
  assert (I3 : intervals s3 = [{| i_handle := nextHandle s; i_due := now s + PING_INTERVAL;
                                  i_deviceId := d; i_userName := u |}]) by exact I2.
  split; [exact G|]. split; [exact I3|]. split.
  - destruct (fireInterval_fires env client _ s3 enabled configured I3) as [s4 [F S4]].
    + cbn [i_due]. change (now s3) with (now s + dt). lia.
    + exact (eq_trans T2 T).
    + change (now s3 - lastActivity s3) with (now s + dt - (now s + dt)). lia.
    + exists s4. split; [exact F|exact S4].
  - intros more s' M.
    pose proof (keeps_identity_run env _ d u more s2 s' K2 M) as K.
    split; [exact (proj2 K)|].
    intros s'' F. exact (tick_sends_captured env _ d u s' s'' K F).
Qed.

Lemma ping_uses_captured_identity_witness :
  isAnalyticsEnabled env_on = true /\
  analyticsClient env_on = Some client0 /\
  run env_on [] returning = Some returning /\
  isTabActive returning = true /\
  PING_INTERVAL <= 20000 /\
  let s3 := onActivity (with_now (now returning + 20000)
              (setUserName "bob"
                 (resume env_on (length (awaiting returning)) (WriteResult None)
                    (setUserName "zoe" (startLiveTracking env_on returning))))) in
  getUserName s3 = Some "bob" /\
  exists s4,
    fireInterval env_on (nextHandle returning) s3 = Some s4 /\
    sink s4 = sink s3 ++ [Upsert live_users
                            {| p_device_id := fst (getDeviceId env_on returning);
                               p_user_name := getUserName returning;
                               is_active := true; last_ping := now returning + 20000 |}
                            "device_id"].
Proof.
  assert (D : PING_INTERVAL <= 20000) by (vm_compute; discriminate).
  split; [reflexivity|]. split; [reflexivity|]. split; [reflexivity|].
  split; [reflexivity|]. split; [exact D|].
  destruct (ping_uses_captured_identity env_on client0 eq_refl eq_refl
              [] 0 "/" (<[USER_NAME_KEY := "ann"]> (<[DEVICE_ID_KEY := "device_7_abc"]> ∅))
              returning "zoe" "bob" (WriteResult None) 20000 eq_refl eq_refl D)
    as [G [_ [X _]]].
  split; [exact G|exact X].
Defined.

(** ** Page teardown *)

Lemma finalRows_app t a b : finalRows t (a ++ b) = finalRows t a ++ finalRows t b.
Proof. unfold finalRows. apply flat_map_app. Qed.

Lemma finalRows_inactive t ls : Forall (fun b => is_active b = false) (finalRows t ls).
Proof.
  induction ls as [|l ls IH]; [constructor|].
  destruct l; cbn [finalRows List.flat_map app]; [exact IH|].
  constructor; [reflexivity|exact IH].
Qed.

Lemma flushEvents_beacons env s :
  beacons (sink (flushEvents env s)) = beacons (sink s) /\
  now (flushEvents env s) = now s.
Proof.
  unfold flushEvents.
  destruct ((length (eventQueue s) =? 0)%nat || negb (isAnalyticsEnabled env));
    [split; reflexivity|].
  unfold safeAnalyticsOperation, flushOperation, flushVisitLogs.
  destruct (nonempty _ && has_client env);
    [|destruct (nonempty _ && has_client env)];
    cbn [sink now suspend request with_awaiting with_sink with_eventQueue];
    rewrite ?beacons_app; cbn [beacons List.flat_map app]; rewrite ?app_nil_r;
    split; reflexivity.
Qed.

Lemma finalPing_beacons env client d u s :
  isAnalyticsEnabled env = true ->
  analyticsClient env = Some client ->
  beacons (sink (finalPing env d u s)) =
    beacons (sink s) ++ [{| p_device_id := d; p_user_name := u;
                            is_active := false; last_ping := now s |}] /\
  now (finalPing env d u s) = now s.
Proof.
  intros enabled configured. unfold finalPing. rewrite enabled, configured.
  destruct (pingInterval s);
    cbn [sink now request with_sink clearInterval with_intervals];
    rewrite beacons_app; split; reflexivity.
Qed.

(** On unload every registered closure posts its own final record. *)
Lemma listeners_beacons env client ls :
  isAnalyticsEnabled env = true ->
  analyticsClient env = Some client ->
  forall s,
    beacons (sink (List.fold_left (fun s l => runListener env l s) ls s)) =
    beacons (sink s) ++ finalRows (now s) ls.
Proof.
  intros enabled configured.
  induction ls as [|l ls IH]; intros s; cbn [List.fold_left].
  - cbn [finalRows List.flat_map]. rewrite app_nil_r. reflexivity.
  - rewrite IH. destruct l; cbn [runListener finalRows List.flat_map].
    + destruct (flushEvents_beacons env s) as [-> ->]. reflexivity.
    + destruct (finalPing_beacons env client deviceId userName s enabled configured)
        as [-> ->].
      rewrite <- app_assoc. reflexivity.
Qed.

Lemma continue_live_listeners env d u p r s :
  unloadListeners (continue env (KLive d u p) r s) = unloadListeners s ++ [FinalPing d u] /\
  awaiting (continue env (KLive d u p) r s) = awaiting s /\
  sink (continue env (KLive d u p) r s) = sink s /\
  now (continue env (KLive d u p) r s) = now s.
Proof.
  cbn [continue].
  rewrite rest_unloadListeners, rest_awaiting, rest_sink.
  assert (N : forall t, now (startLiveTracking_rest d u t) = now t).
  { intros t. unfold startLiveTracking_rest. destruct (pingInterval t); reflexivity. }
  rewrite N. destruct p; [destruct (error_of r)|]; repeat split.
Qed.

Lemma liveCalls_run env rs :
  isAnalyticsEnabled env = true ->
  forall s,
    awaiting s = [] ->
    exists s',
      run env (liveCalls rs) s = Some s' /\
      awaiting s' = [] /\
      now s' = now s /\
      beacons (sink s') = beacons (sink s) /\
      (length (unloadListeners s') = length (unloadListeners s) + length rs)%nat /\
      (forall t, length (finalRows t (unloadListeners s')) =
                 length (finalRows t (unloadListeners s)) + length rs)%nat.
Proof.
  intros enabled. induction rs as [|r rs IH]; intros s A.
  - exists s. cbn [liveCalls List.flat_map run length]. repeat split; auto; intros; lia.
  - destruct (startLiveTracking_awaiting env enabled s) as [p A1].
    rewrite A in A1. cbn [app] in A1.
    destruct (startLiveTracking_sink env enabled s) as [w [K1 B1]].
    pose proof (startLiveTracking_heartbeat env enabled s) as V1.
    unfold heartbeatView in V1. injection V1 as N1 _ _ _ _ _ U1.
    remember (startLiveTracking env s) as s1 eqn:E1.
    remember (fst (getDeviceId env s)) as d eqn:Ed.
    remember (getUserName s) as u eqn:Eu.
    destruct (continue_live_listeners env d u p r (with_awaiting [] s1))
      as [U2 [A2 [K2 N2]]].
    remember (continue env (KLive d u p) r (with_awaiting [] s1)) as s2 eqn:E2.
    cbn [unloadListeners awaiting sink now with_awaiting] in U2, A2, K2, N2.
    destruct (IH s2 A2) as [s' [R [A' [N' [B' [L' F']]]]]].
    exists s'. split; [|split; [exact A'|split; [|split; [|split]]]].
    + change (liveCalls (r :: rs))
        with (CallStartLiveTracking :: Resume 0 r :: liveCalls rs).
      cbn [run].
      change (step env CallStartLiveTracking s) with (Some (startLiveTracking env s)).
      rewrite <- E1. rewrite (resume_head env _ _ r s1 A1). rewrite <- E2. exact R.
    + rewrite N', N2. exact N1.
    + rewrite B', K2, K1, beacons_app, B1, app_nil_r. reflexivity.
    + rewrite L', U2, U1, length_app. cbn [length]. lia.
    + intros t. rewrite F', U2, U1, finalRows_app, length_app.
      cbn [finalRows List.flat_map app length]. lia.
Qed.

(** C10. No task of the page removes a [beforeunload] listener: each one
    only appends to the list.  Every completed call of [startLiveTracking]
    appends one, so after [k] calls on a fresh page [k + 1] listeners are
    registered (the module's flush and [k] closures), and on unload each
    closure posts its own record: [k] beacons, all with [is_active] false. *)
Theorem startLiveTracking_listeners_accumulate (env : Env) :
  (forall a s s',
     step env a s = Some s' ->
     exists extra, unloadListeners s' = unloadListeners s ++ extra) /\
  (forall client rs t0 path stored,
     isAnalyticsEnabled env = true ->
     analyticsClient env = Some client ->
     exists s,
       run env (liveCalls rs) (init t0 path stored) = Some s /\
       length (unloadListeners s) = S (length rs) /\
       beacons (sink s) = [] /\
       length (beacons (sink (beforeUnload env s))) = length rs /\
       Forall (fun b => is_active b = false) (beacons (sink (beforeUnload env s)))).
Proof.
  split.
  - intros a s s' E.
    apply (listeners_extend_run env (unloadListeners s) [a] s s').
    + exists []. rewrite app_nil_r. reflexivity.
    + cbn [run]. rewrite E. reflexivity.
  - intros client rs t0 path stored enabled configured.
    destruct (liveCalls_run env rs enabled (init t0 path stored) eq_refl)
      as [s [R [A [N [B [L F]]]]]].
    exists s. cbn [sink init beacons List.flat_map unloadListeners length] in B, L.
    split; [exact R|]. split; [rewrite L; reflexivity|]. split; [exact B|].
    unfold beforeUnload.
    rewrite (listeners_beacons env client _ enabled configured s), B. cbn [app].
    split; [|apply finalRows_inactive].
    rewrite F. reflexivity.
Qed.

Lemma startLiveTracking_listeners_accumulate_witness :
  isAnalyticsEnabled env_on = true /\
  analyticsClient env_on = Some client0 /\
  exists s,
    run env_on (liveCalls [WriteResult None; WriteResult None; WriteResult None]) page0
      = Some s /\
    length (beacons (sink (beforeUnload env_on s))) = 3%nat.
Proof.
  split; [reflexivity|]. split; [reflexivity|].
  destruct (proj2 (startLiveTracking_listeners_accumulate env_on) client0
              [WriteResult None; WriteResult None; WriteResult None] 0 "/" ∅
              eq_refl eq_refl) as [s [R [_ [_ [L _]]]]].
  exists s. split; [exact R|exact L].
Defined.

(** * Beyond the claims *)

(** ** A finer proof principle

    Some invariants read the clock or the storage, which the module only
    writes in particular ways: time only moves forward, the storage is only
    written by [getDeviceId] and [setUserName], the activity stamp is only
    set to the current time, and a timeout is only forgotten when it fires.
    This principle asks the predicate to survive those writes only. *)
Section FineInvariant.

Variable env : Env.
Variable P : State -> Prop.

Hypothesis F_elapse : forall dt s, 0 <= dt -> P s -> P (with_now (now s + dt) s).
Hypothesis F_pathname : forall v s, P s -> P (with_pathname v s).
Hypothesis F_getDeviceId : forall s, P s -> P (snd (getDeviceId env s)).
Hypothesis F_setUserName : forall name s, P s -> P (setUserName name s).
Hypothesis F_activity : forall s, P s -> P (with_lastActivity (now s) s).
Hypothesis F_isTabActive : forall v s, P s -> P (with_isTabActive v s).
Hypothesis F_awaiting : forall v s, P s -> P (with_awaiting v s).
Hypothesis F_sink : forall v s, P s -> P (with_sink v s).
Hypothesis F_console : forall v s, P s -> P (with_console v s).
Hypothesis F_swap : forall s, P s -> P (with_eventQueue [] s).
Hypothesis F_push : forall tbl d s,
  known_table tbl -> P s ->
  (length (eventQueue s ++ [{| table := tbl; data := d |}]) < MAX_QUEUE_SIZE)%nat ->
  P (scheduleFlush (with_eventQueue (eventQueue s ++ [{| table := tbl; data := d |}]) s)).
Hypothesis F_fire : forall h s, P s -> P (flushEvents env (clearTimeout h s)).
Hypothesis F_clearInterval : forall h s,
  P s -> pingInterval s = Some h -> P (clearInterval h s).
Hypothesis F_rearm : forall h due s,
  P s -> P (with_intervals (List.map (rearm h due) (intervals s)) s).
Hypothesis F_rest : forall d u s, P s -> P (startLiveTracking_rest d u s).

Lemma fine_queueEvent tbl d s : known_table tbl -> P s -> P (queueEvent env tbl d s).
Proof. apply (inv_queueEvent env P); assumption. Qed.

Lemma fine_flushEvents s : P s -> P (flushEvents env s).
Proof. apply (inv_flushEvents env P); assumption. Qed.

Lemma fine_sendPing d u s : P s -> P (fst (sendPing env d u s)).
Proof. apply (inv_sendPing env P); assumption. Qed.

Lemma fine_startLiveTracking s : P s -> P (startLiveTracking env s).
Proof.
  intros H. unfold startLiveTracking.
  destruct (negb (isAnalyticsEnabled env)); [exact H|].
  pose proof (F_getDeviceId s H) as H1.
  destruct (getDeviceId env s) as [d s1]. cbn [snd] in H1.
  pose proof (fine_sendPing d (getUserName s1) s1 H1) as H2.
  destruct (sendPing env d (getUserName s1) s1) as [s2 p]. cbn [fst] in H2.
  apply F_awaiting, H2.
Qed.

Lemma fine_trackUserVisit name s : P s -> P (trackUserVisit env name s).
Proof.
  intros H. unfold trackUserVisit, safeAnalyticsOperation.
  destruct (negb (isAnalyticsEnabled env)); [apply F_setUserName, H|].
  destruct (analyticsClient env); [|exact H].
  pose proof (F_getDeviceId s H) as H1.
  destruct (getDeviceId env s) as [d s1]. cbn [snd] in H1.
  apply F_awaiting, F_sink, H1.
Qed.

Lemma fine_trackUserVisit_written name d upd e s :
  P s -> P (trackUserVisit_written env name d upd e s).
Proof.
  intros H. unfold trackUserVisit_written.
  apply fine_startLiveTracking, F_setUserName, fine_queueEvent;
    [apply known_visit_logs|].
  apply (inv_log_error P); assumption.
Qed.

Lemma fine_initializeTracking s : P s -> P (initializeTracking env s).
Proof.
  intros H. unfold initializeTracking, safeAnalyticsOperation.
  destruct (negb (isAnalyticsEnabled env)); [exact H|].
  destruct (analyticsClient env); [|exact H].
  pose proof (F_getDeviceId s H) as H1.
  destruct (getDeviceId env s) as [d s1]. cbn [snd] in H1.
  destruct (getUserName s1) as [name|]; [|exact H1].
  destruct (truthy name); [|exact H1].
  apply F_awaiting, F_sink, fine_queueEvent; [apply known_visit_logs|exact H1].
Qed.

Lemma fine_trackBusinessInteraction t b s :
  P s -> P (trackBusinessInteraction env t b s).
Proof.
  intros H. unfold trackBusinessInteraction.
  pose proof (F_getDeviceId s H) as H1.
  destruct (getDeviceId env s) as [d s1]. cbn [snd] in H1.
  apply fine_queueEvent; [apply known_business_interactions|exact H1].
Qed.

Lemma fine_continue k r s : P s -> P (continue env k r s).
Proof.
  intros H. destruct k; cbn [continue].
  - unfold safeAnalyticsOperation.
    match goal with |- context [flushVisitLogs env ?b ?t] =>
      destruct (flushVisitLogs_normal env b t) as [s' E] end.
    rewrite E. eapply (inv_flushVisitLogs env P); [exact F_awaiting|exact F_sink| |exact E].
    apply (inv_log_error P); assumption.
  - apply (inv_log_error P); assumption.
  - apply (inv_log_error P); assumption.
  - apply F_rest. destruct pinged; [apply (inv_log_error P)|]; assumption.
  - destruct r; apply (inv_trackUserVisit_fetched P); assumption.
  - apply fine_trackUserVisit_written, H.
  - apply fine_startLiveTracking, H.
Qed.

Lemma fine_resume i r s : P s -> P (resume env i r s).
Proof.
  intros H. unfold resume.
  destruct (awaiting s !! i); [|exact H].
  apply fine_continue, F_awaiting, H.
Qed.

Lemma fine_listeners ls : forall s,
  P s -> P (List.fold_left (fun s l => runListener env l s) ls s).
Proof. apply (inv_listeners env P); assumption. Qed.

Lemma fine_step a s s' : P s -> step env a s = Some s' -> P s'.
Proof.
  intros H E. destruct a; cbn [step] in E.
  - inversion E; subst. apply F_getDeviceId, H.
  - inversion E; subst. apply F_setUserName, H.
  - inversion E; subst. apply fine_trackBusinessInteraction, H.
  - inversion E; subst. apply fine_trackUserVisit, H.
  - inversion E; subst. apply fine_initializeTracking, H.
  - inversion E; subst. apply fine_startLiveTracking, H.
  - destruct (Z.leb_spec 0 dt); inversion E; subst. apply F_elapse; assumption.
  - inversion E; subst. apply F_pathname, H.
  - inversion E; subst. apply F_activity, H.
  - inversion E; subst. unfold onVisibilityChange.
    destruct (isTabActive _);
      [apply (F_activity (with_isTabActive (negb hidden) s))|]; apply F_isTabActive, H.
  - unfold fireTimeout in E.
    destruct (List.find _ (timeouts s)) as [[h' due]|]; [|discriminate].
    destruct (due <=? now s); inversion E; subst. apply F_fire, H.
  - eapply (inv_fireInterval env P); eauto.
  - destruct (i <? length (awaiting s))%nat; inversion E; subst.
    apply fine_resume, H.
  - inversion E; subst. apply fine_listeners, H.
Qed.

Lemma fine_run acts : forall s s', P s -> run env acts s = Some s' -> P s'.
Proof.
  induction acts as [|a acts IH]; intros s s' H E; cbn [run] in E.
  - inversion E; subst; exact H.
  - destruct (step env a s) as [s1|] eqn:S1; [|discriminate].
    eapply IH; [|exact E]. eapply fine_step; eauto.
Qed.

End FineInvariant.

(** ** More field equations *)

Lemma scheduleFlush_now s : now (scheduleFlush s) = now s.
Proof. unfold scheduleFlush. destruct (flushTimeout s); reflexivity. Qed.

Lemma scheduleFlush_localStorage s : localStorage (scheduleFlush s) = localStorage s.
Proof. unfold scheduleFlush. destruct (flushTimeout s); reflexivity. Qed.

Lemma rest_now d u s : now (startLiveTracking_rest d u s) = now s.
Proof. unfold startLiveTracking_rest. destruct (pingInterval s); reflexivity. Qed.

Lemma rest_localStorage d u s :
  localStorage (startLiveTracking_rest d u s) = localStorage s.
Proof. unfold startLiveTracking_rest. destruct (pingInterval s); reflexivity. Qed.

Lemma Forall_filter_keep {A} (Q : A -> Prop) (f : A -> bool) l :
  Forall Q l -> Forall Q (List.filter f l).
Proof.
  induction 1 as [|x l Hx Hl IH]; cbn [List.filter]; [constructor|].
  destruct (f x); [constructor|]; assumption.
Qed.

(** ** The device id *)

Lemma getDeviceId_kept env d s :
  truthy d = true -> device_is d s -> getDeviceId env s = (d, s).
Proof. unfold device_is, getDeviceId. intros T ->. rewrite T. reflexivity. Qed.

Lemma getDeviceId_stores env s :
  truthy (fst (getDeviceId env s)) = true /\
  device_is (fst (getDeviceId env s)) (snd (getDeviceId env s)).
Proof.
  unfold getDeviceId, device_is.
  destruct (localStorage s !! DEVICE_ID_KEY) as [d|] eqn:E;
    [destruct (truthy d) eqn:T|]; cbn [fst snd localStorage with_localStorage].
  - split; assumption.
  - split; [reflexivity|apply lookup_insert_eq].
  - split; [reflexivity|apply lookup_insert_eq].
Qed.

Lemma device_is_run env d acts s s' :
  truthy d = true -> device_is d s -> run env acts s = Some s' -> device_is d s'.
Proof.
  intros T. apply (fine_run env (device_is d)); unfold device_is;
    try (intros; assumption).
  - intros t H. rewrite (getDeviceId_kept env d t T H). exact H.
  - intros name t H. unfold setUserName. cbn [localStorage with_localStorage].
    rewrite lookup_insert_ne by discriminate. exact H.
  - intros tbl dd t K H L. rewrite scheduleFlush_localStorage. exact H.
  - intros h t H.
    apply (inv_flushEvents env (fun u => localStorage u !! DEVICE_ID_KEY = Some d));
      intros; assumption.
  - intros dd u t H. rewrite rest_localStorage. exact H.
Qed.

(** X1. The id [getDeviceId] returns is never empty and is in the storage
    when it returns; from then on, whatever the page does, every call of
    [getDeviceId] returns that same id and changes nothing. *)
Theorem deviceId_stable_after_first_use (env : Env) (s : State) :
  truthy (fst (getDeviceId env s)) = true /\
  localStorage (snd (getDeviceId env s)) !! DEVICE_ID_KEY = Some (fst (getDeviceId env s)) /\
  forall acts s',
    run env acts (snd (getDeviceId env s)) = Some s' ->
    getDeviceId env s' = (fst (getDeviceId env s), s').
Proof.
  destruct (getDeviceId_stores env s) as [T D].
  split; [exact T|]. split; [exact D|].
  intros acts s' R. apply getDeviceId_kept; [exact T|].
  apply (device_is_run env _ acts _ s' T D R).
Qed.

Lemma deviceId_stable_after_first_use_witness :
  exists s',
    run env_on [CallSetUserName "ann"; CallStartLiveTracking; Resume 0 (WriteResult None)]
      (snd (getDeviceId env_on page0)) = Some s' /\
    fst (getDeviceId env_on s') = "device_0_k3j9x0a2q".
Proof.
  destruct (run env_on [CallSetUserName "ann"; CallStartLiveTracking;
                        Resume 0 (WriteResult None)]
              (snd (getDeviceId env_on page0))) as [s'|] eqn:R.
  - exists s'. split; [reflexivity|].
    rewrite (proj2 (proj2 (deviceId_stable_after_first_use env_on page0)) _ s' R).
    vm_compute. reflexivity.
  - vm_compute in R. discriminate R.
Defined.

Lemma pretty_N_char_free x : pretty_N_char x <> underscore.
Proof. unfold pretty_N_char. repeat case_match; discriminate. Qed.

Lemma pretty_N_go_free x : forall a,
  free_of underscore a -> free_of underscore (pretty_N_go x a).
Proof.
  induction (N.lt_wf_0 x) as [x _ IH]; intros a F.
  destruct (N.eq_dec x 0%N) as [->|N0]; [rewrite pretty_N_go_0; exact F|].
  rewrite pretty_N_go_step by lia.
  apply IH; [apply N.div_lt; lia|].
  split; [apply pretty_N_char_free|exact F].
Qed.

Lemma pretty_Z_free (z : Z) : free_of underscore (pretty z).
Proof.
  assert (HN : forall n : N, free_of underscore (pretty n)).
  { intros n. unfold pretty, pretty_N. case_decide.
    - repeat split; discriminate.
    - apply pretty_N_go_free. exact I. }
  destruct z as [|p|p]; unfold pretty, pretty_Z.
  - repeat split; discriminate.
  - apply (HN (Npos p)).
  - split; [discriminate|apply (HN (Npos p))].
Qed.

(** A string is cut at its first [c] in one way only. *)
Lemma append_cut c a : forall a' r r',
  free_of c a -> free_of c a' ->
  a +:+ String c r = a' +:+ String c r' -> a = a' /\ r = r'.
Proof.
  induction a as [|x a IH]; intros [|x' a'] r r' F F' E; cbn in E.
  - inversion E. split; reflexivity.
  - inversion E as [[Ex Er]]. destruct F' as [N _]. congruence.
  - inversion E as [[Ex Er]]. destruct F as [N _]. congruence.
  - inversion E as [[Ex Er]]. destruct F as [_ F], F' as [_ F'].
    destruct (IH a' r r' F F' Er) as [-> ->]. split; reflexivity.
Qed.

Lemma getDeviceId_fresh env s :
  no_device_id s ->
  fst (getDeviceId env s) =
    "device_" +:+ pretty (now s) +:+ "_" +:+ mathRandom env (rngCalls s) /\
  rngCalls (snd (getDeviceId env s)) = S (rngCalls s).
Proof.
  unfold getDeviceId. intros [-> | ->]; split; reflexivity.
Qed.

(** X2. When the storage holds no usable device id (none, or an empty one),
    [getDeviceId] makes a new one out of the clock and the next random
    suffix.  Two such ids coincide exactly when both the clock and the random
    suffix do: after the storage has been cleared, the new id differs from
    any id made at another time. *)
Theorem deviceId_regenerated_distinct (env : Env) (s s' : State) :
  no_device_id s -> no_device_id s' ->
  (fst (getDeviceId env s) = fst (getDeviceId env s') <->
   now s = now s' /\
   mathRandom env (rngCalls s) = mathRandom env (rngCalls s')).
Proof.
  intros N N'.
  rewrite (proj1 (getDeviceId_fresh env s N)), (proj1 (getDeviceId_fresh env s' N')).
  split.
  - intros E. cbn in E.
    injection E as E.
    apply append_cut in E; [|apply pretty_Z_free..].
    destruct E as [Ep Er]. split; [|exact Er].
    apply (inj pretty), Ep.
  - intros [-> ->]. reflexivity.
Qed.

Lemma deviceId_regenerated_distinct_witness :
  no_device_id page0 /\ no_device_id (with_now 86400000 page0) /\
  fst (getDeviceId env_on page0) <> fst (getDeviceId env_on (with_now 86400000 page0)).
Proof.
  assert (N : no_device_id page0) by (left; reflexivity).
  assert (N' : no_device_id (with_now 86400000 page0)) by (left; reflexivity).
  split; [exact N|]. split; [exact N'|].
  intros E.
  apply (deviceId_regenerated_distinct env_on _ _ N N') in E.
  destruct E as [E _]. vm_compute in E. discriminate E.
Defined.

(** ** The user name *)

(** X3. The name written by [setUserName] is the one [getUserName] reads
    back, the last write wins, and an empty name is stored but counts as no
    name for [hasUserName].  Writing the name and resolving the device id do
    not interfere: in either order they give the same id and the same
    storage. *)
Theorem userName_round_trip (env : Env) (n m : string) (s : State) :
  getUserName (setUserName n s) = Some n /\
  hasUserName (setUserName n s) = truthy n /\
  hasUserName (setUserName "" s) = false /\
  setUserName m (setUserName n s) = setUserName m s /\
  getDeviceId env (setUserName n s) =
    (fst (getDeviceId env s), setUserName n (snd (getDeviceId env s))).
Proof.
  assert (G : forall x, getUserName (setUserName x s) = Some x).
  { intros x. unfold getUserName, setUserName. cbn [localStorage with_localStorage].
    apply lookup_insert_eq. }
  split; [apply G|]. split; [unfold hasUserName; rewrite G; reflexivity|].
  split; [unfold hasUserName; rewrite G; reflexivity|]. split.
  - unfold setUserName. cbn [localStorage with_localStorage].
    rewrite insert_insert_eq. reflexivity.
  - unfold getDeviceId, setUserName. cbn [localStorage with_localStorage now rngCalls].
    rewrite lookup_insert_ne by discriminate.
    destruct (localStorage s !! DEVICE_ID_KEY) as [d|]; [destruct (truthy d)|];
      cbn [fst snd localStorage with_localStorage]; try reflexivity;
      (f_equal; unfold with_localStorage, with_rngCalls;
       cbn [now pathname localStorage rngCalls eventQueue flushTimeout pingInterval
            lastActivity isTabActive nextHandle timeouts intervals unloadListeners
            awaiting sink console];
       f_equal; apply insert_insert_ne; discriminate).
Qed.

(** ** Tracking an interaction *)

Lemma flushEvents_localStorage env s :
  localStorage (flushEvents env s) = localStorage s.
Proof.
  pattern (flushEvents env s).
  apply (inv_flushEvents env (fun u => localStorage u = localStorage s));
    [intros; assumption..|reflexivity].
Qed.

Lemma queueEvent_localStorage env tbl d s :
  localStorage (queueEvent env tbl d s) = localStorage s.
Proof.
  destruct (isAnalyticsEnabled env) eqn:En; [|rewrite (queueEvent_disabled env En); reflexivity].
  destruct (Nat.le_gt_cases MAX_QUEUE_SIZE (length (eventQueue s) + 1)) as [L|L].
  - rewrite (queueEvent_full env En tbl d s L), flushEvents_localStorage. reflexivity.
  - rewrite (queueEvent_small env En tbl d s L), scheduleFlush_localStorage. reflexivity.
Qed.

(** X4. [trackBusinessInteraction] resolves the device id before it looks at
    the enable flag: after the call an id is stored even on a disabled page,
    where nothing else happens.  On an enabled page the event queued for
    [business_interactions] carries that id, the user name stored at the
    call and the current time; it joins the queue, or, being the tenth,
    leaves with the flush. *)
Theorem trackBusinessInteraction_records (env : Env) (eventType : EventType)
    (businessId : string) (s : State) :
  let d := fst (getDeviceId env s) in
  let e := {| table := business_interactions;
              data := InteractionRow eventType businessId d (getUserName s) (now s) |} in
  let s' := trackBusinessInteraction env eventType businessId s in
  localStorage s' !! DEVICE_ID_KEY = Some d /\
  getUserName s' = getUserName s /\
  (isAnalyticsEnabled env = false -> s' = snd (getDeviceId env s)) /\
  (isAnalyticsEnabled env = true ->
   (length (eventQueue s) + 1 < MAX_QUEUE_SIZE)%nat ->
   eventQueue s' = eventQueue s ++ [e] /\ sink s' = sink s) /\
  (isAnalyticsEnabled env = true ->
   (MAX_QUEUE_SIZE <= length (eventQueue s) + 1)%nat ->
   eventQueue s' = [] /\
   s' = flushEvents env (with_eventQueue (eventQueue s ++ [e]) (snd (getDeviceId env s)))).
Proof.
  intros d e s'. subst d e s'. unfold trackBusinessInteraction.
  destruct (getDeviceId_stores env s) as [_ D].
  pose proof (getDeviceId_userName env s) as U.
  pose proof (getDeviceId_eventQueue env s) as Q.
  pose proof (getDeviceId_sink env s) as K.
  assert (N : now (snd (getDeviceId env s)) = now s).
  { destruct (getDeviceId_writes env s) as [ls [n ->]]. reflexivity. }
  destruct (getDeviceId env s) as [d s1]. cbn [fst snd] in *.
  rewrite U, N.
  split; [rewrite queueEvent_localStorage; exact D|].
  split; [unfold getUserName in *; rewrite queueEvent_localStorage; exact U|].
  split; [intros Dis; apply (queueEvent_disabled env Dis)|]. split.
  - intros En L. rewrite <- Q in L.
    rewrite (queueEvent_small env En _ _ s1 L).
    rewrite scheduleFlush_eventQueue, scheduleFlush_sink. cbn [eventQueue sink with_eventQueue].
    rewrite Q, K. split; reflexivity.
  - intros En L. rewrite <- Q in L.
    rewrite (queueEvent_full env En _ _ s1 L). rewrite Q. split; [|reflexivity].
    apply (flushEvents_frame env En).
    cbn [eventQueue with_eventQueue]. destruct (eventQueue s); discriminate.
Qed.

Lemma trackBusinessInteraction_records_witness :
  isAnalyticsEnabled env_off = false /\
  trackBusinessInteraction env_off share "shop" page0 = snd (getDeviceId env_off page0) /\
  isAnalyticsEnabled env_on = true /\
  (length (eventQueue page0) + 1 < MAX_QUEUE_SIZE)%nat /\
  eventQueue (trackBusinessInteraction env_on share "shop" page0) =
    eventQueue page0 ++
    [{| table := business_interactions;
        data := InteractionRow share "shop" (fst (getDeviceId env_on page0))
                  (getUserName page0) (now page0) |}].
Proof.
  assert (L : (length (eventQueue page0) + 1 < MAX_QUEUE_SIZE)%nat) by (vm_compute; lia).
  split; [reflexivity|]. split.
  - exact (proj1 (proj2 (proj2 (trackBusinessInteraction_records env_off share "shop" page0)))
             eq_refl).
  - split; [reflexivity|]. split; [exact L|].
    exact (proj1 (proj1 (proj2 (proj2 (proj2
             (trackBusinessInteraction_records env_on share "shop" page0)))) eq_refl L)).
Defined.

(** ** Flushing without a client, and a failing sink *)

(** X5. On an enabled page whose client is missing a flush still empties the
    queue, but sends nothing and parks nothing: the batch is dropped.  So is
    every tenth enqueue's batch of ten. *)
Theorem flush_without_client_drops (env : Env) :
  isAnalyticsEnabled env = true ->
  analyticsClient env = None ->
  (forall s, eventQueue s <> [] -> flushEvents env s = with_eventQueue [] s) /\
  (forall tbl d s,
     (MAX_QUEUE_SIZE <= length (eventQueue s) + 1)%nat ->
     queueEvent env tbl d s = with_eventQueue [] s).
Proof.
  intros enabled missing.
  assert (F : forall s, eventQueue s <> [] -> flushEvents env s = with_eventQueue [] s).
  { intros s N. rewrite (flushEvents_swap env enabled s N).
    unfold safeAnalyticsOperation, flushOperation, flushVisitLogs, has_client.
    rewrite missing, !andb_false_r. reflexivity. }
  split; [exact F|].
  intros tbl d s L. rewrite (queueEvent_full env enabled tbl d s L).
  rewrite F; [reflexivity|].
  cbn [eventQueue with_eventQueue]. destruct (eventQueue s); discriminate.
Qed.

Lemma flush_without_client_drops_witness :
  isAnalyticsEnabled env_no_client = true /\
  analyticsClient env_no_client = None /\
  (MAX_QUEUE_SIZE <= length (eventQueue nine) + 1)%nat /\
  queueEvent env_no_client visit_logs (data (visit 10)) nine = with_eventQueue [] nine.
Proof.
  assert (L : (MAX_QUEUE_SIZE <= length (eventQueue nine) + 1)%nat) by (vm_compute; lia).
  split; [reflexivity|]. split; [reflexivity|]. split; [exact L|].
  exact (proj2 (flush_without_client_drops env_no_client eq_refl eq_refl)
           visit_logs (data (visit 10)) nine L).
Defined.

Lemma view_console_flushEvents env s : console (flushEvents env s) = console s.
Proof.
  pattern (flushEvents env s).
  apply (inv_flushEvents env (fun u => console u = console s));
    [intros; assumption..|reflexivity].
Qed.

(** X6. When the sink rejects the insert of the interactions, the error is
    written to the console and that is all: the rows are not put back in the
    queue, and the insert of the batch's visit logs is sent all the same.
    When the sink accepts, nothing is logged. *)
Theorem flush_failure_logged_not_retried (env : Env) (client : Client) :
  isAnalyticsEnabled env = true ->
  analyticsClient env = Some client ->
  forall s error,
    List.filter (in_table business_interactions) (eventQueue s) <> [] ->
    let bi := List.filter (in_table business_interactions) (eventQueue s) in
    let vl := List.filter (in_table visit_logs) (eventQueue s) in
    let s' := resume env (length (awaiting s)) (WriteResult error) (flushEvents env s) in
    console s' =
      console s ++ match error with
                   | Some e => ["Error inserting business interactions: " +:+ e]
                   | None => []
                   end /\
    eventQueue s' = [] /\
    sink s' = sink s ++ [Insert business_interactions (List.map data bi)] ++ visitWrite vl /\
    awaiting s' = awaiting s ++ visitCont vl.
Proof.
  intros enabled configured s error B bi vl s'.
  assert (N : eventQueue s <> []).
  { intros E. apply B. rewrite E. reflexivity. }
  pose proof (view_flushEvents env client enabled configured s N) as V.
  cbv zeta in V. fold bi vl in V.
  destruct bi as [|b bi'] eqn:Ebi; [contradiction|].
  pose proof (view_resume_interactions env client configured vl (WriteResult error)
                (flushEvents env s) _ _ _ V) as V'.
  fold s' in V'. unfold batchView in V'. injection V' as Q K A.
  split; [|split; [exact Q|split; [rewrite K, <- app_assoc; reflexivity|exact A]]].
  unfold batchView in V. injection V as _ _ A0.
  subst s'. rewrite (resume_last env (awaiting s) _ _ _ A0). cbn [continue].
  unfold safeAnalyticsOperation, flushVisitLogs.
  rewrite (has_client_true env client configured).
  pose proof (view_console_flushEvents env s) as C0.
  destruct error as [e|]; destruct vl as [|v vl'];
    cbn [log_error error_of nonempty length Nat.ltb Nat.leb andb console console_error
         with_console suspend request with_awaiting with_sink];
    rewrite C0, ?app_nil_r; reflexivity.
Qed.

Lemma flush_failure_logged_not_retried_witness :
  isAnalyticsEnabled env_on = true /\
  analyticsClient env_on = Some client0 /\
  List.filter (in_table business_interactions) (eventQueue mixed) <> [] /\
  console (resume env_on (length (awaiting mixed)) (WriteResult (Some "timeout"))
             (flushEvents env_on mixed)) =
    console mixed ++ ["Error inserting business interactions: timeout"].
Proof.
  assert (B : List.filter (in_table business_interactions) (eventQueue mixed) <> [])
    by (vm_compute; discriminate).
  split; [reflexivity|]. split; [reflexivity|]. split; [exact B|].
  exact (proj1 (flush_failure_logged_not_retried env_on client0 eq_refl eq_refl
                  mixed (Some "timeout") B)).
Defined.

(** ** Nothing waits in the queue unscheduled *)

Lemma flush_scheduled_run env acts s s' :
  isAnalyticsEnabled env = true ->
  flush_scheduled s -> run env acts s = Some s' -> flush_scheduled s'.
Proof.
  intros enabled.
  apply (fine_run env flush_scheduled); unfold flush_scheduled;
    try (intros; assumption).
  - intros dt t D [Q F]. split; [exact Q|].
    cbn [timeouts now with_now]. eapply Forall_impl; [exact F|].
    intros x Hx. cbn beta in Hx. lia.
  - intros t H. destruct (getDeviceId_writes env t) as [ls [n ->]]. exact H.
  - intros t [Q F]. split; [intros C; contradiction C; reflexivity|exact F].
  - intros tbl d t K [Q F] L.
    rewrite scheduleFlush_timeouts, scheduleFlush_now.
    cbn [flushTimeout timeouts now with_eventQueue]. split.
    + intros _ E. apply app_eq_nil in E. destruct E as [_ E]. discriminate E.
    + apply Forall_app. split.
      * destruct (flushTimeout t); [apply Forall_filter_keep|]; exact F.
      * constructor; [cbn [snd]; lia|constructor].
  - intros h t [Q F].
    assert (F' : Forall (fun x => snd x <= now t + FLUSH_INTERVAL)
                   (timeouts (clearTimeout h t))) by (apply Forall_filter_keep, F).
    destruct (eventQueue (clearTimeout h t)) as [|e q] eqn:E.
    + rewrite (flushEvents_empty env _ E). split; [rewrite E; intros C; contradiction C; reflexivity|exact F'].
    + assert (N : eventQueue (clearTimeout h t) <> []) by (rewrite E; discriminate).
      destruct (flushEvents_frame env enabled _ N) as [F1 [F2 [_ [_ F5]]]].
      rewrite F1, F2, F5. split; [intros C; contradiction C; reflexivity|exact F'].
  - intros d u t [Q F].
    rewrite rest_eventQueue, rest_timeouts, rest_now. split; assumption.
Qed.

Lemma init_flush_scheduled t0 path stored : flush_scheduled (init t0 path stored).
Proof. split; [intros C; contradiction C; reflexivity|constructor]. Qed.

(** X7. In every state the page can reach, a non-empty queue has its flush
    scheduled: exactly one timeout is pending, it is the one [flushTimeout]
    names, and it is due no later than [FLUSH_INTERVAL] from now.  Once due it
    can fire, and firing it empties the queue.  No event waits unscheduled. *)
Theorem queued_events_are_scheduled (env : Env) :
  forall acts t0 path stored s,
    run env acts (init t0 path stored) = Some s ->
    eventQueue s <> [] ->
    exists h due,
      timeouts s = [(h, due)] /\
      flushTimeout s = Some h /\
      due <= now s + FLUSH_INTERVAL /\
      forall t, due <= t ->
        exists s', fireTimeout env h (with_now t s) = Some s' /\
                   eventQueue s' = [] /\ timeouts s' = [].
Proof.
  intros acts t0 path stored s R N.
  destruct (isAnalyticsEnabled env) eqn:enabled.
  - pose proof (flush_scheduled_run env acts _ _ enabled
                  (init_flush_scheduled t0 path stored) R) as [Q F].
    pose proof (timers_ok_run env acts _ _ (init_timers_ok t0 path stored) R) as [L A].
    specialize (Q N).
    destruct (timeouts s) as [|[h due] [|x l]] eqn:T;
      [contradiction Q; reflexivity| |cbn [length] in L; lia].
    exists h, due. split; [reflexivity|]. split; [apply (A (h, due)); left; reflexivity|].
    inversion F as [|x l Fd _]; subst. cbn [snd] in Fd. split; [exact Fd|].
    intros t D. unfold fireTimeout. cbn [timeouts with_now now]. rewrite T.
    cbn [List.find fst]. rewrite Nat.eqb_refl.
    destruct (Z.leb_spec due t) as [_|B]; [|lia].
    eexists. split; [reflexivity|].
    assert (N' : eventQueue (clearTimeout h (with_now t s)) <> []) by exact N.
    destruct (flushEvents_frame env enabled _ N') as [F1 [F2 _]].
    split; [exact F1|]. rewrite F2. cbn [timeouts clearTimeout with_timeouts with_now].
    rewrite T. cbn [List.filter fst]. rewrite Nat.eqb_refl. reflexivity.
  - destruct (quiet_run env enabled acts _ _ (quiet_init t0 path stored) R)
      as [_ [_ [_ [_ [E _]]]]]. contradiction.
Qed.

Lemma queued_events_are_scheduled_witness :
  exists s,
    run env_on [CallTrackBusinessInteraction view "shop"; Elapse 1200;
                CallTrackBusinessInteraction call "shop"; Elapse 300] page0 = Some s /\
    eventQueue s <> [] /\
    exists h due, timeouts s = [(h, due)] /\ due <= now s + FLUSH_INTERVAL.
Proof.
  destruct (run env_on [CallTrackBusinessInteraction view "shop"; Elapse 1200;
                        CallTrackBusinessInteraction call "shop"; Elapse 300] page0)
    as [s|] eqn:R.
  - assert (N : eventQueue s <> []).
    { vm_compute in R. injection R as <-. discriminate. }
    exists s. split; [reflexivity|]. split; [exact N|].
    destruct (queued_events_are_scheduled env_on _ 0 "/" ∅ s R N)
      as [h [due [T [_ [D _]]]]].
    exists h, due. split; assumption.
  - vm_compute in R. discriminate R.
Defined.

Lemma one_trigger_cases env :
  isAnalyticsEnabled env = true ->
  forall tbl d s,
    ((MAX_QUEUE_SIZE <= length (eventQueue s) + 1)%nat /\
     queueEvent env tbl d s =
       flushEvents env (with_eventQueue (eventQueue s ++ [{| table := tbl; data := d |}]) s) /\
     eventQueue (queueEvent env tbl d s) = [] /\
     timeouts (queueEvent env tbl d s) = timeouts s) \/
    ((length (eventQueue s) + 1 < MAX_QUEUE_SIZE)%nat /\
     queueEvent env tbl d s =
       scheduleFlush (with_eventQueue (eventQueue s ++ [{| table := tbl; data := d |}]) s)).
Proof.
  intros enabled tbl d s.
  destruct (Nat.le_gt_cases MAX_QUEUE_SIZE (length (eventQueue s) + 1)) as [L|L].
  - left. split; [exact L|]. rewrite (queueEvent_full env enabled tbl d s L).
    assert (N : eventQueue (with_eventQueue
                  (eventQueue s ++ [{| table := tbl; data := d |}]) s) <> []).
    { cbn [eventQueue with_eventQueue]. destruct (eventQueue s); discriminate. }
    destruct (flushEvents_frame env enabled _ N) as [F1 [F2 _]].
    repeat split; assumption.
  - right. split; [exact L|]. apply (queueEvent_small env enabled tbl d s L).
Qed.

(** X8. The timeout a size-triggered flush leaves behind is harmless.  A
    timeout that fires on an empty queue only disappears: nothing is sent,
    parked or logged.  And on a reachable page the enqueue that fires the
    size trigger leaves the queue empty with the earlier timeout still
    pending, so that timeout, when it fires with nothing enqueued since, is
    such a no-op. *)
Theorem leftover_timeout_is_noop (env : Env) :
  (forall h s s',
     eventQueue s = [] -> fireTimeout env h s = Some s' -> s' = clearTimeout h s) /\
  (isAnalyticsEnabled env = true ->
   forall acts t0 path stored s tbl d,
     run env acts (init t0 path stored) = Some s ->
     (MAX_QUEUE_SIZE <= length (eventQueue s) + 1)%nat ->
     let s1 := queueEvent env tbl d s in
     eventQueue s1 = [] /\
     (exists h due, timeouts s1 = [(h, due)]) /\
     forall h t s',
       fireTimeout env h (with_now t s1) = Some s' ->
       s' = clearTimeout h (with_now t s1) /\ sink s' = sink s1 /\ timeouts s' = []).
Proof.
  assert (A : forall h s s',
     eventQueue s = [] -> fireTimeout env h s = Some s' -> s' = clearTimeout h s).
  { intros h s s' E F. unfold fireTimeout in F.
    destruct (List.find _ (timeouts s)) as [[h' due]|]; [|discriminate].
    destruct (due <=? now s); [|discriminate]. injection F as <-.
    apply flushEvents_empty. exact E. }
  split; [exact A|].
  intros enabled acts t0 path stored s tbl d R L s1.
  assert (N : eventQueue s <> []).
  { intros E. rewrite E in L. unfold MAX_QUEUE_SIZE in L. cbn in L. lia. }
  destruct (one_trigger_cases env enabled tbl d s) as [[_ [_ [E T]]] | [L' _]];
    [|lia].
  pose proof (flush_scheduled_run env acts _ _ enabled
                (init_flush_scheduled t0 path stored) R) as [Q _].
  pose proof (timers_ok_run env acts _ _ (init_timers_ok t0 path stored) R) as [Len _].
  specialize (Q N). fold s1 in E, T.
  destruct (timeouts s) as [|[h0 due0] [|x l]] eqn:Ts;
    [contradiction Q; reflexivity| |cbn [length] in Len; lia].
  split; [exact E|]. split; [exists h0, due0; exact T|].
  intros h t s' F.
  assert (E' : eventQueue (with_now t s1) = []) by exact E.
  pose proof (A h _ s' E' F) as ->.
  split; [reflexivity|]. split; [reflexivity|].
  unfold fireTimeout in F. cbn [timeouts with_now] in F. rewrite T in F.
  cbn [List.find fst] in F.
  destruct (Nat.eqb h0 h) eqn:H; [|discriminate].
  cbn [timeouts clearTimeout with_timeouts with_now]. rewrite T.
  cbn [List.filter fst]. rewrite H. reflexivity.
Qed.

Lemma leftover_timeout_is_noop_witness :
  isAnalyticsEnabled env_on = true /\
  exists s,
    run env_on nine_calls page0 = Some s /\
    (MAX_QUEUE_SIZE <= length (eventQueue s) + 1)%nat /\
    eventQueue (queueEvent env_on visit_logs (data (visit 10)) s) = [] /\
    exists h due, timeouts (queueEvent env_on visit_logs (data (visit 10)) s) = [(h, due)].
Proof.
  split; [reflexivity|].
  destruct (run env_on nine_calls page0) as [s|] eqn:R.
  - assert (L : (MAX_QUEUE_SIZE <= length (eventQueue s) + 1)%nat).
    { vm_compute in R. injection R as <-. vm_compute. lia. }
    exists s. split; [reflexivity|]. split; [exact L|].
    destruct (proj2 (leftover_timeout_is_noop env_on) eq_refl nine_calls 0 "/" ∅ s
                visit_logs (data (visit 10)) R L) as [E [T _]].
    split; [exact E|exact T].
  - vm_compute in R. discriminate R.
Defined.

(** ** Counting enqueues *)

Lemma skipn_app_exact {A} (a b : list A) k :
  (k <= length b)%nat ->
  skipn (length (a ++ b) - k) (a ++ b) = skipn (length b - k) b.
Proof.
  intros L. rewrite length_app.
  replace (length a + length b - k)%nat with (length a + (length b - k))%nat by lia.
  rewrite skipn_app, skipn_all2 by lia.
  replace (length a + (length b - k) - length a)%nat with (length b - k)%nat by lia.
  reflexivity.
Qed.

Lemma enqueueAll_tail env :
  isAnalyticsEnabled env = true ->
  forall es s,
    (length (eventQueue s) < MAX_QUEUE_SIZE)%nat ->
    eventQueue (enqueueAll env es s) =
    skipn (length (eventQueue s ++ es)
           - (length (eventQueue s) + length es) mod MAX_QUEUE_SIZE)
          (eventQueue s ++ es).
Proof.
  intros enabled. induction es as [|e es IH]; intros s L.
  - cbn [enqueueAll List.fold_left length]. rewrite app_nil_r, Nat.add_0_r.
    rewrite Nat.mod_small by exact L. rewrite Nat.sub_diag. reflexivity.
  - cbn [enqueueAll List.fold_left].
    change (List.fold_left (fun s e => queueEvent env (table e) (data e) s) es
              (queueEvent env (table e) (data e) s))
      with (enqueueAll env es (queueEvent env (table e) (data e) s)).
    destruct e as [tbl d]. cbn [table data].
    destruct (Nat.le_gt_cases MAX_QUEUE_SIZE (length (eventQueue s) + 1)) as [F|Sm].
    + assert (N : eventQueue (with_eventQueue
                    (eventQueue s ++ [{| table := tbl; data := d |}]) s) <> []).
      { cbn [eventQueue with_eventQueue]. destruct (eventQueue s); discriminate. }
      pose proof (proj1 (flushEvents_frame env enabled _ N)) as E.
      rewrite <- (queueEvent_full env enabled tbl d s F) in E.
      rewrite IH by (rewrite E; unfold MAX_QUEUE_SIZE; cbn; lia).
      rewrite E. cbn [app length].
      assert (Len : length (eventQueue s) = 9%nat) by (unfold MAX_QUEUE_SIZE in *; lia).
      replace ((length (eventQueue s) + S (length es)) mod MAX_QUEUE_SIZE)%nat
        with (length es mod MAX_QUEUE_SIZE)%nat.
      * change (eventQueue s ++ {| table := tbl; data := d |} :: es)
          with (eventQueue s ++ [{| table := tbl; data := d |}] ++ es).
        rewrite app_assoc.
        rewrite skipn_app_exact; [reflexivity|].
        apply Nat.Div0.mod_le.
      * rewrite Len. unfold MAX_QUEUE_SIZE.
        replace (9 + S (length es))%nat with (length es + 1 * 10)%nat by lia.
        rewrite Nat.Div0.mod_add. reflexivity.
    + pose proof (queueEvent_small env enabled tbl d s Sm) as E.
      assert (Q : eventQueue (queueEvent env tbl d s) =
                  eventQueue s ++ [{| table := tbl; data := d |}]).
      { rewrite E, scheduleFlush_eventQueue. reflexivity. }
      rewrite IH by (rewrite Q, length_app; cbn [length]; lia).
      rewrite Q, <- app_assoc. cbn [app]. rewrite !length_app. cbn [length].
      replace (length (eventQueue s) + 1 + length es)%nat
        with (length (eventQueue s) + S (length es))%nat by lia.
      reflexivity.
Qed.

(** X9. Every tenth enqueue flushes.  On an enabled page, starting from an
    empty queue, [n] enqueues in a row leave in the queue exactly the events
    that came after the last full ten, in order: [n mod 10] of them. *)
Theorem enqueues_keep_the_tail (env : Env) :
  isAnalyticsEnabled env = true ->
  forall es s,
    eventQueue s = [] ->
    eventQueue (enqueueAll env es s) =
      skipn (length es - length es mod MAX_QUEUE_SIZE) es /\
    length (eventQueue (enqueueAll env es s)) = (length es mod MAX_QUEUE_SIZE)%nat.
Proof.
  intros enabled es s E.
  pose proof (enqueueAll_tail env enabled es s) as T.
  rewrite E in T. cbn [app length Nat.add] in T.
  specialize (T ltac:(unfold MAX_QUEUE_SIZE; lia)).
  split; [exact T|]. rewrite T, length_skipn.
  pose proof (Nat.Div0.mod_le (length es) MAX_QUEUE_SIZE). lia.
Qed.

Lemma enqueues_keep_the_tail_witness :
  isAnalyticsEnabled env_on = true /\
  eventQueue page0 = [] /\
  eventQueue (enqueueAll env_on (List.map interaction [1; 2; 3; 4; 5; 6; 7; 8; 9; 10; 11; 12])
                page0) = [interaction 11; interaction 12].
Proof.
  split; [reflexivity|]. split; [reflexivity|].
  exact (proj1 (enqueues_keep_the_tail env_on eq_refl
                  (List.map interaction [1; 2; 3; 4; 5; 6; 7; 8; 9; 10; 11; 12])
                  page0 eq_refl)).
Defined.

(** ** The listeners and the ping gate *)

(** X10. The activity stamp and the visibility flag decide the ping together.
    Once the tab is hidden a ping is skipped, whatever the user did.  When
    the tab becomes visible again the stamp is refreshed, so a ping goes out
    at once however long the user had been idle.  After an input on a visible
    tab, pings go out for exactly the next [MIN_ACTIVITY_GAP] = 10000 ms and
    not a millisecond longer. *)
Theorem listeners_gate_the_ping (env : Env) (client : Client) :
  isAnalyticsEnabled env = true ->
  analyticsClient env = Some client ->
  forall d u s,
    sendPing env d u (onVisibilityChange true s) = (onVisibilityChange true s, false) /\
    sendPing env d u (onVisibilityChange false s) =
      (request (pingUpsert d u (now s)) (onVisibilityChange false s), true) /\
    (isTabActive s = true ->
     forall dt, 0 <= dt ->
       let later := with_now (now s + dt) (onActivity s) in
       (dt <= 10000 ->
        sendPing env d u later = (request (pingUpsert d u (now s + dt)) later, true)) /\
       (10000 < dt -> sendPing env d u later = (later, false))).
Proof.
  intros enabled configured d u s. split; [|split].
  - unfold sendPing, onVisibilityChange. reflexivity.
  - apply (sendPing_sends env client d u (onVisibilityChange false s));
      [reflexivity| |exact enabled|exact configured].
    unfold onVisibilityChange. cbn. lia.
  - intros T dt D later. split.
    + intros G. apply (sendPing_sends env client d u later);
        [exact T| |exact enabled|exact configured].
      subst later. cbn [now lastActivity with_now onActivity with_lastActivity]. lia.
    + intros G. unfold sendPing.
      assert (B : (MIN_ACTIVITY_GAP <? now later - lastActivity later) = true).
      { apply Z.ltb_lt. subst later.
        cbn [now lastActivity with_now onActivity with_lastActivity].
        unfold MIN_ACTIVITY_GAP. lia. }
      rewrite B, orb_true_r. reflexivity.
Qed.

Lemma listeners_gate_the_ping_witness :
  isAnalyticsEnabled env_on = true /\
  analyticsClient env_on = Some client0 /\
  isTabActive idle_page = true /\
  0 <= 10001 /\ 10000 < 10001 /\
  sendPing env_on "dev" None (with_now (now idle_page + 10001) (onActivity idle_page)) =
    (with_now (now idle_page + 10001) (onActivity idle_page), false).
Proof.
  assert (A : 0 <= 10001) by lia. assert (B : 10000 < 10001) by lia.
  split; [reflexivity|]. split; [reflexivity|]. split; [reflexivity|].
  split; [exact A|]. split; [exact B|].
  exact (proj2 (proj2 (proj2 (listeners_gate_the_ping env_on client0 eq_refl eq_refl
                                "dev" None idle_page)) eq_refl 10001 A) B).
Defined.

(** X11. A tick that finds the page hidden, the user idle, analytics off or
    the client missing sends nothing and logs nothing, but the schedule
    lives on: the interval is armed again for one [PING_INTERVAL] later with
    the same device id and user name. *)
Theorem skipped_tick_keeps_schedule (env : Env) (iv : Interval) (s : State) :
  intervals s = [iv] ->
  i_due iv <= now s ->
  (isTabActive s = false \/ 10000 < now s - lastActivity s \/
   isAnalyticsEnabled env = false \/ analyticsClient env = None) ->
  fireInterval env (i_handle iv) s =
    Some (with_intervals
            [{| i_handle := i_handle iv; i_due := now s + PING_INTERVAL;
                i_deviceId := i_deviceId iv; i_userName := i_userName iv |}] s).
Proof.
  intros I D C. unfold fireInterval. rewrite I. cbn [List.find]. rewrite Nat.eqb_refl.
  destruct (Z.leb_spec (i_due iv) (now s)) as [_|B]; [|lia].
  cbn [List.map]. unfold rearm. rewrite Nat.eqb_refl.
  match goal with |- context [sendPing env ?d ?u ?t] =>
    assert (P : sendPing env d u t = (t, false)) end.
  { unfold sendPing, safeAnalyticsOperation.
    cbn [isTabActive now lastActivity with_intervals].
    destruct C as [T | [G | [E | M]]].
    - rewrite T. reflexivity.
    - apply Z.ltb_lt in G. unfold MIN_ACTIVITY_GAP. rewrite G, orb_true_r. reflexivity.
    - rewrite E, orb_true_r. reflexivity.
    - rewrite M. destruct (_ || _ || _); reflexivity. }
  rewrite P. reflexivity.
Qed.

Lemma skipped_tick_keeps_schedule_witness :
  intervals idle_ticking = [first_interval] /\
  i_due first_interval <= now idle_ticking /\
  10000 < now idle_ticking - lastActivity idle_ticking /\
  fireInterval env_on (i_handle first_interval) idle_ticking =
    Some (with_intervals
            [{| i_handle := 1; i_due := now idle_ticking + PING_INTERVAL;
                i_deviceId := "device_0_k3j9x0a2q"; i_userName := None |}]
            idle_ticking).
Proof.
  assert (I : intervals idle_ticking = [first_interval]) by (vm_compute; reflexivity).
  assert (D : i_due first_interval <= now idle_ticking) by (vm_compute; discriminate).
  assert (G : 10000 < now idle_ticking - lastActivity idle_ticking)
    by (vm_compute; reflexivity).
  split; [exact I|]. split; [exact D|]. split; [exact G|].
  exact (skipped_tick_keeps_schedule env_on first_interval idle_ticking I D
           (or_intror (or_introl G))).
Defined.

(** ** The schedule waits for the first ping *)

Lemma startLiveTracking_userName env s :
  getUserName (startLiveTracking env s) = getUserName s.
Proof.
  unfold startLiveTracking. destruct (negb (isAnalyticsEnabled env)); [reflexivity|].
  pose proof (getDeviceId_userName env s) as U.
  destruct (getDeviceId env s) as [d s1]. cbn [snd] in U.
  destruct (sendPing_cases env d (getUserName s1) s1) as [-> | [row ->]]; exact U.
Qed.

(** X12. [startLiveTracking] sets nothing up before its first ping has
    settled: between the call and its resumption the intervals, [pingInterval]
    and the listeners are as they were, so a sink that never answers leaves
    the page without heartbeat.  Once resumed, exactly its own interval is
    live and its closure is registered.  On a hidden tab no first ping is
    sent at all, and the schedule is set up all the same. *)
Theorem schedule_waits_for_first_ping (env : Env) :
  isAnalyticsEnabled env = true ->
  forall acts t0 path stored s,
    run env acts (init t0 path stored) = Some s ->
    let d := fst (getDeviceId env s) in
    let u := getUserName s in
    let s1 := startLiveTracking env s in
    (intervals s1 = intervals s /\ pingInterval s1 = pingInterval s /\
     unloadListeners s1 = unloadListeners s) /\
    (isTabActive s = false -> sink s1 = sink s) /\
    forall r,
      let s2 := resume env (length (awaiting s)) r s1 in
      intervals s2 = [{| i_handle := nextHandle s; i_due := now s + PING_INTERVAL;
                         i_deviceId := d; i_userName := u |}] /\
      pingInterval s2 = Some (nextHandle s) /\
      unloadListeners s2 = unloadListeners s ++ [FinalPing d u] /\
      sink s2 = sink s1.
Proof.
  intros enabled acts t0 path stored s R d u s1.
  pose proof (intervals_ok_run env acts _ _ (init_intervals_ok t0 path stored) R) as I.
  pose proof (startLiveTracking_heartbeat env enabled s) as V. fold s1 in V.
  destruct (startLiveTracking_awaiting env enabled s) as [p A]. fold s1 d u in A.
  unfold heartbeatView in V. injection V as Vn Vl Vt Vh Vp Vi Vu.
  split; [repeat split; assumption|]. split.
  - intros T. subst s1. destruct (startLiveTracking_parks env enabled s) as [p' ->].
    cbn [sink suspend with_awaiting].
    pose proof (getDeviceId_heartbeat env s) as W. unfold heartbeatView in W.
    injection W as _ _ Wt _ _ _ _.
    unfold sendPing. rewrite Wt, T. cbn [negb orb fst]. apply getDeviceId_sink.
  - intros r s2.
    assert (I1 : intervals_ok (with_awaiting (awaiting s) s1)).
    { unfold intervals_ok. cbn [intervals pingInterval with_awaiting].
      rewrite Vi, Vp. exact I. }
    destruct (continue_live env d u p r _ I1) as [V2 [_ [K2 _]]].
    rewrite <- (resume_last env (awaiting s) (KLive d u p) r s1 A) in V2, K2.
    fold s2 in V2, K2.
    cbn [now lastActivity isTabActive nextHandle unloadListeners sink with_awaiting]
      in V2, K2.
    rewrite Vn, Vh, Vu in V2.
    unfold heartbeatView in V2. injection V2 as _ _ _ _ P2 I2 U2.
    repeat split; assumption.
Qed.

Lemma schedule_waits_for_first_ping_witness :
  isAnalyticsEnabled env_on = true /\
  run env_on [VisibilityChange true] page0 = Some hidden_at_load /\
  isTabActive hidden_at_load = false /\
  sink (startLiveTracking env_on hidden_at_load) = sink hidden_at_load /\
  intervals (resume env_on (length (awaiting hidden_at_load)) (WriteResult None)
               (startLiveTracking env_on hidden_at_load)) =
    [{| i_handle := nextHandle hidden_at_load; i_due := now hidden_at_load + PING_INTERVAL;
        i_deviceId := fst (getDeviceId env_on hidden_at_load);
        i_userName := getUserName hidden_at_load |}].
Proof.
  assert (R : run env_on [VisibilityChange true] (init 0 "/" ∅) = Some hidden_at_load)
    by reflexivity.
  pose proof (schedule_waits_for_first_ping env_on eq_refl _ 0 "/" ∅ hidden_at_load R)
    as [_ [H1 H2]].
  split; [reflexivity|]. split; [exact R|]. split; [reflexivity|].
  split; [exact (H1 eq_refl)|].
  exact (proj1 (H2 (WriteResult None))).
Defined.

(** ** Teardown, in order *)

Lemma teardown_ready_run env acts s s' :
  teardown_ready s -> run env acts s = Some s' -> teardown_ready s'.
Proof.
  apply inv_run; unfold teardown_ready; intros; fields; auto.
  - rewrite scheduleFlush_intervals, scheduleFlush_unloadListeners. assumption.
  - destruct H as [finals [U [F N]]]. exists finals. split; [exact U|]. split; [exact F|].
    intros C. apply N. intros E. apply C. rewrite E. reflexivity.
  - destruct H as [finals [U [F N]]]. exists finals. split; [exact U|]. split; [exact F|].
    intros C. apply N. intros E. apply C. rewrite E. reflexivity.
  - destruct H as [finals [U [F N]]]. exists (finals ++ [FinalPing d u]).
    rewrite rest_unloadListeners, U. split; [reflexivity|]. split.
    + apply Forall_app. split; [exact F|]. constructor; [exact I|constructor].
    + intros _ E. apply app_eq_nil in E. destruct E as [_ E]. discriminate E.
Qed.

Lemma init_teardown_ready t0 path stored : teardown_ready (init t0 path stored).
Proof.
  exists []. split; [reflexivity|]. split; [constructor|].
  intros C. contradiction C. reflexivity.
Qed.

Lemma flushEvents_heartbeat env s :
  heartbeatView (flushEvents env s) = heartbeatView s.
Proof.
  pattern (flushEvents env s).
  apply (inv_flushEvents env (fun u => heartbeatView u = heartbeatView s));
    [intros; assumption..|reflexivity].
Qed.

Lemma flushEvents_first env client s :
  isAnalyticsEnabled env = true ->
  analyticsClient env = Some client ->
  batchView (flushEvents env s) =
    ([], sink s ++ firstWrite (eventQueue s), awaiting s ++ firstCont (eventQueue s)).
Proof.
  intros enabled configured. unfold firstWrite, firstCont.
  destruct (eventQueue s) as [|e q] eqn:Q.
  - rewrite (flushEvents_empty env s Q). unfold batchView. rewrite Q.
    cbn [List.filter visitWrite visitCont]. rewrite !app_nil_r. reflexivity.
  - assert (N : eventQueue s <> []) by (rewrite Q; discriminate).
    pose proof (view_flushEvents env client enabled configured s N) as V.
    cbv zeta in V. rewrite Q in V. rewrite V.
    destruct (List.filter (in_table business_interactions) (e :: q)); reflexivity.
Qed.

Lemma afterClear_finalPing env d u s :
  afterClear (finalPing env d u s) = afterClear s /\
  intervals (finalPing env d u s) = afterClear s.
Proof.
  unfold finalPing, afterClear.
  destruct (pingInterval s) as [h|] eqn:P;
    destruct (isAnalyticsEnabled env); destruct (analyticsClient env);
    cbn [pingInterval intervals request with_sink clearInterval with_intervals];
    rewrite ?P; split; try reflexivity;
    induction (intervals s) as [|i l IH]; cbn [List.filter]; try reflexivity;
    destruct (negb (Nat.eqb (i_handle i) h)) eqn:B; cbn [List.filter];
    rewrite ?B, ?IH; reflexivity.
Qed.

(** The closures run one after the other: each posts its record, and the
    first clears the interval. *)
Lemma finals_run env client finals :
  isAnalyticsEnabled env = true ->
  analyticsClient env = Some client ->
  Forall is_final finals ->
  forall s,
    let s' := List.fold_left (fun s l => runListener env l s) finals s in
    eventQueue s' = eventQueue s /\ awaiting s' = awaiting s /\ now s' = now s /\
    afterClear s' = afterClear s /\
    (finals <> [] -> intervals s' = afterClear s) /\
    sink s' = sink s ++ List.map (SendBeacon (supabaseUrl client +:+ "/rest/v1/live_users"))
                          (finalRows (now s) finals).
Proof.
  intros enabled configured F. induction F as [|l finals Hl F IH]; intros s s'.
  - subst s'. cbn [List.fold_left finalRows List.flat_map List.map].
    rewrite app_nil_r. repeat split. intros C. contradiction C. reflexivity.
  - destruct l as [|d u]; [contradiction Hl|].
    subst s'. cbn [List.fold_left runListener].
    destruct (IH (finalPing env d u s)) as [Q [A [N [C [I K]]]]].
    destruct (afterClear_finalPing env d u s) as [C1 I1].
    assert (E : eventQueue (finalPing env d u s) = eventQueue s /\
                awaiting (finalPing env d u s) = awaiting s /\
                now (finalPing env d u s) = now s /\
                sink (finalPing env d u s) =
                  sink s ++ [SendBeacon (supabaseUrl client +:+ "/rest/v1/live_users")
                               {| p_device_id := d; p_user_name := u;
                                  is_active := false; last_ping := now s |}]).
    { unfold finalPing. rewrite enabled, configured.
      destruct (pingInterval s); repeat split. }
    destruct E as [E1 [E2 [E3 E4]]].
    rewrite Q, A, N, C, K, E1, E2, E3, E4, C1.
    split; [reflexivity|]. split; [reflexivity|]. split; [reflexivity|].
    split; [reflexivity|]. split.
    + intros _. destruct finals as [|l' finals'].
      * cbn [List.fold_left]. exact I1.
      * rewrite I by discriminate. exact C1.
    + cbn [finalRows List.flat_map List.map app]. rewrite <- app_assoc. reflexivity.
Qed.

(** X13. On [beforeunload] the listeners run in the order they were
    registered.  First the module's flush: the queue is emptied and the
    flush's first insert goes out, the visit logs of a mixed batch staying
    parked behind the sink's answer.  Then each closure of
    [startLiveTracking] posts its final record, the first of them stopping
    the heartbeat.  Afterwards the queue is empty and no interval is live. *)
Theorem teardown_flushes_then_signs_off (env : Env) (client : Client) :
  isAnalyticsEnabled env = true ->
  analyticsClient env = Some client ->
  forall acts t0 path stored s,
    run env acts (init t0 path stored) = Some s ->
    let s' := beforeUnload env s in
    eventQueue s' = [] /\
    intervals s' = [] /\
    sink s' =
      sink s ++ firstWrite (eventQueue s)
      ++ List.map (SendBeacon (supabaseUrl client +:+ "/rest/v1/live_users"))
           (finalRows (now s) (unloadListeners s)) /\
    awaiting s' = awaiting s ++ firstCont (eventQueue s).
Proof.
  intros enabled configured acts t0 path stored s R s'.
  destruct (teardown_ready_run env acts _ _ (init_teardown_ready t0 path stored) R)
    as [finals [U [F N]]].
  pose proof (intervals_ok_run env acts _ _ (init_intervals_ok t0 path stored) R) as [Len A].
  subst s'. unfold beforeUnload. rewrite U. cbn [List.fold_left runListener].
  destruct (finals_run env client finals enabled configured F (flushEvents env s))
    as [Q [Aw [Nw [_ [I K]]]]].
  pose proof (flushEvents_first env client s enabled configured) as V.
  unfold batchView in V. injection V as V1 V2 V3.
  pose proof (flushEvents_heartbeat env s) as H. unfold heartbeatView in H.
  injection H as Hn _ _ _ Hp Hi _.
  rewrite Q, Aw, K, V1, V2, V3, Hn.
  split; [reflexivity|]. split.
  - assert (C : afterClear (flushEvents env s) = []).
    { unfold afterClear. rewrite Hp, Hi.
      destruct (pingInterval s) as [h|] eqn:P.
      - apply filter_all_out. intros i Hin. apply A in Hin. injection Hin as <-.
        rewrite Nat.eqb_refl. reflexivity.
      - destruct (intervals s) as [|i l]; [reflexivity|].
        specialize (A i (or_introl eq_refl)). discriminate A. }
    destruct finals as [|l finals'].
    + cbn [List.fold_left]. rewrite Hi.
      destruct (intervals s) as [|i l]; [reflexivity|].
      contradiction N; [discriminate|reflexivity].
    + rewrite I by discriminate. exact C.
  - split; [|reflexivity].
    cbn [finalRows List.flat_map app]. rewrite <- app_assoc. reflexivity.
Qed.

Lemma teardown_flushes_then_signs_off_witness :
  exists s,
    run env_on [CallTrackBusinessInteraction view "shop"; CallStartLiveTracking;
                Resume 0 (WriteResult None); Elapse 700] page0 = Some s /\
    eventQueue (beforeUnload env_on s) = [] /\
    intervals (beforeUnload env_on s) = [] /\
    sink (beforeUnload env_on s) =
      sink s ++ firstWrite (eventQueue s)
      ++ List.map (SendBeacon (supabaseUrl client0 +:+ "/rest/v1/live_users"))
           (finalRows (now s) (unloadListeners s)) /\
    awaiting (beforeUnload env_on s) = awaiting s ++ firstCont (eventQueue s).
Proof.
  destruct (run env_on [CallTrackBusinessInteraction view "shop"; CallStartLiveTracking;
                        Resume 0 (WriteResult None); Elapse 700] page0) as [s|] eqn:R.
  - exists s. split; [reflexivity|].
    exact (teardown_flushes_then_signs_off env_on client0 eq_refl eq_refl _ 0 "/" ∅ s R).
  - vm_compute in R. discriminate R.
Defined.

(** ** Visit tracking *)

Lemma scheduleFlush_console s : console (scheduleFlush s) = console s.
Proof. unfold scheduleFlush. destruct (flushTimeout s); reflexivity. Qed.

Lemma scheduleFlush_pathname s : pathname (scheduleFlush s) = pathname s.
Proof. unfold scheduleFlush. destruct (flushTimeout s); reflexivity. Qed.

Lemma queueEvent_console env tbl d s :
  console (queueEvent env tbl d s) = console s.
Proof.
  destruct (isAnalyticsEnabled env) eqn:En; [|rewrite (queueEvent_disabled env En); reflexivity].
  destruct (Nat.le_gt_cases MAX_QUEUE_SIZE (length (eventQueue s) + 1)) as [L|L].
  - rewrite (queueEvent_full env En tbl d s L), view_console_flushEvents. reflexivity.
  - rewrite (queueEvent_small env En tbl d s L), scheduleFlush_console. reflexivity.
Qed.

Lemma queueEvent_parks env client tbl d s :
  isAnalyticsEnabled env = true ->
  analyticsClient env = Some client ->
  exists ks, awaiting (queueEvent env tbl d s) = awaiting s ++ ks.
Proof.
  intros enabled configured.
  destruct (Nat.le_gt_cases MAX_QUEUE_SIZE (length (eventQueue s) + 1)) as [L|L].
  - rewrite (queueEvent_full env enabled tbl d s L).
    pose proof (flushEvents_first env client
                  (with_eventQueue (eventQueue s ++ [{| table := tbl; data := d |}]) s)
                  enabled configured) as V.
    unfold batchView in V. injection V as _ _ V. rewrite V. eexists. reflexivity.
  - rewrite (queueEvent_small env enabled tbl d s L), scheduleFlush_awaiting.
    exists []. rewrite app_nil_r. reflexivity.
Qed.

Lemma startLiveTracking_console env s :
  console (startLiveTracking env s) = console s.
Proof.
  unfold startLiveTracking. destruct (negb (isAnalyticsEnabled env)); [reflexivity|].
  destruct (getDeviceId_writes env s) as [ls [n E]].
  destruct (getDeviceId env s) as [d s1]. cbn [snd] in E. subst s1.
  match goal with |- context [sendPing env ?d ?u ?t] =>
    destruct (sendPing_cases env d u t) as [-> | [row ->]] end; reflexivity.
Qed.

Lemma accounted_startLiveTracking env s :
  accounted (startLiveTracking env s) = accounted s.
Proof.
  unfold startLiveTracking. destruct (negb (isAnalyticsEnabled env)); [reflexivity|].
  destruct (getDeviceId_writes env s) as [ls [n E]].
  destruct (getDeviceId env s) as [d s1]. cbn [snd] in E. subst s1.
  match goal with |- context [sendPing env ?d ?u ?t] =>
    destruct (sendPing_cases env d u t) as [-> | [row ->]] end;
    unfold accounted; fields;
    rewrite ?insertedRows_app, ?parkedRows_app; cbn [insertedRows parkedRows List.flat_map];
    rewrite ?app_nil_r; reflexivity.
Qed.

Lemma trackUserVisit_call env client userName s :
  isAnalyticsEnabled env = true ->
  analyticsClient env = Some client ->
  trackUserVisit env userName s =
    suspend (KTrackFetch userName (fst (getDeviceId env s)) (userAgent env))
      (request (FetchUser (fst (getDeviceId env s))) (snd (getDeviceId env s))).
Proof.
  intros enabled configured. unfold trackUserVisit, safeAnalyticsOperation.
  rewrite enabled, configured. cbn [negb].
  destruct (getDeviceId env s) as [d s0]. reflexivity.
Qed.

Lemma trackUserVisit_fetched_eq userName d ua existingUser fetchError s :
  trackUserVisit_fetched userName d ua existingUser fetchError s =
    suspend (KTrackWrite userName d (updating_of existingUser))
      (request (userWrite ua d userName (now s) existingUser)
         (with_console (console s ++ fetchLog fetchError) s)).
Proof.
  unfold trackUserVisit_fetched, fetchLog.
  destruct fetchError as [code|]; [destruct (String.eqb code "PGRST116")|];
    destruct existingUser as [u|]; destruct s; cbn; rewrite ?app_nil_r; reflexivity.
Qed.

(** X14. [trackUserVisit] on a configured page takes two answers of the
    sink.  The call only asks for the user row.  The answer to that decides
    the write: an update that adds one to the visits read (to 0 when the row
    has none), or an insert with one visit; a fetch error is logged unless it
    is [PGRST116], and the write is sent in either case.  Until the write is
    answered the stored name is untouched and nothing is queued.  The answer
    to the write, error or not, queues the visit log with the id resolved at
    the call and the time of that answer, stores the name, and starts the
    heartbeat with that name. *)
Theorem trackUserVisit_two_answers (env : Env) (client : Client) :
  isAnalyticsEnabled env = true ->
  analyticsClient env = Some client ->
  forall userName s existingUser fetchError writeError t1 t2,
    tables_ok s ->
    let d := fst (getDeviceId env s) in
    let i := length (awaiting s) in
    let s1 := trackUserVisit env userName s in
    let s2 := resume env i (FetchResult existingUser fetchError) (with_now t1 s1) in
    let s3 := resume env i (WriteResult writeError) (with_now t2 s2) in
    (sink s1 = sink s ++ [FetchUser d] /\
     getUserName s1 = getUserName s /\ eventQueue s1 = eventQueue s) /\
    (sink s2 = sink s1 ++ [userWrite (userAgent env) d userName t1 existingUser] /\
     getUserName s2 = getUserName s /\ eventQueue s2 = eventQueue s) /\
    (getUserName s3 = Some userName /\
     accounted s3 ≡ₚ
       accounted s ++ [VisitRow d (Some userName) (pathname s) (referrer_or_null env) t2] /\
     (exists ks pinged,
        awaiting s3 = awaiting s ++ ks ++ [KLive d (Some userName) pinged]) /\
     console s3 =
       console s ++ fetchLog fetchError ++ writeLog (updating_of existingUser) writeError).
Proof.
  intros enabled configured userName s existingUser fetchError writeError t1 t2 K
         d i s1 s2 s3.
  destruct (getDeviceId_stores env s) as [T D]. fold d in T, D.
  destruct (getDeviceId_writes env s) as [ls [n W]].
  pose proof (getDeviceId_userName env s) as U.
  assert (E1 : s1 = suspend (KTrackFetch userName d (userAgent env))
                      (request (FetchUser d) (snd (getDeviceId env s)))).
  { apply (trackUserVisit_call env client userName s enabled configured). }
  remember (snd (getDeviceId env s)) as s0 eqn:E0.
  assert (F0 : sink s0 = sink s /\ awaiting s0 = awaiting s /\ eventQueue s0 = eventQueue s /\
               console s0 = console s /\ pathname s0 = pathname s).
  { rewrite W. repeat split. }
  destruct F0 as [Fs [Fa [Fq [Fc Fp]]]].
  assert (E2 : s2 = trackUserVisit_fetched userName d (userAgent env) existingUser fetchError
                      (with_awaiting (awaiting s) (with_now t1 s1))).
  { subst s2 i. rewrite (resume_last env (awaiting s) (KTrackFetch userName d (userAgent env))).
    - reflexivity.
    - rewrite E1. fields. rewrite Fa. reflexivity. }
  rewrite trackUserVisit_fetched_eq in E2.
  assert (E3 : s3 = trackUserVisit_written env userName d (updating_of existingUser) writeError
                      (with_awaiting (awaiting s) (with_now t2 s2))).
  { subst s3 i.
    rewrite (resume_last env (awaiting s) (KTrackWrite userName d (updating_of existingUser))).
    - reflexivity.
    - rewrite E2. fields. reflexivity. }
  split; [|split].
  - rewrite E1. fields. rewrite Fs, Fq. repeat split. exact U.
  - rewrite E2, E1. fields. rewrite Fs, Fq. repeat split. exact U.
  - remember (with_awaiting (awaiting s) (with_now t2 s2)) as x2 eqn:X2.
    assert (F2 : sink x2 = sink s ++ [FetchUser d]
                           ++ [userWrite (userAgent env) d userName t1 existingUser] /\
                 awaiting x2 = awaiting s /\ eventQueue x2 = eventQueue s /\
                 console x2 = console s ++ fetchLog fetchError /\
                 pathname x2 = pathname s /\ now x2 = t2 /\
                 localStorage x2 = localStorage s0).
    { rewrite X2, E2, E1. fields. rewrite Fs, Fq, Fc, Fp, <- app_assoc. repeat split. }
    destruct F2 as [Gs [Ga [Gq [Gc [Gp [Gn Gl]]]]]].
    unfold trackUserVisit_written in E3.
    remember (log_error (if updating_of existingUser then "Error updating user:"
                         else "Error creating user:") writeError x2) as y eqn:Y.
    assert (Fy : sink y = sink x2 /\ awaiting y = awaiting x2 /\
                 eventQueue y = eventQueue x2 /\
                 console y = console x2 ++ writeLog (updating_of existingUser) writeError /\
                 pathname y = pathname x2 /\ now y = now x2 /\
                 localStorage y = localStorage x2).
    { rewrite Y. destruct writeError; cbn [log_error writeLog]; fields;
        rewrite ?app_nil_r; repeat split. }
    destruct Fy as [Ys [Ya [Yq [Yc [Yp [Yn Yl]]]]]].
    assert (R : visitRow env d userName y =
                VisitRow d (Some userName) (pathname s) (referrer_or_null env) t2).
    { unfold visitRow. rewrite Yp, Yn, Gp, Gn. reflexivity. }
    rewrite R in E3.
    remember (queueEvent env visit_logs
                (VisitRow d (Some userName) (pathname s) (referrer_or_null env) t2) y)
      as z eqn:Z.
    assert (Az : accounted z ≡ₚ
                 accounted s ++ [VisitRow d (Some userName) (pathname s)
                                   (referrer_or_null env) t2]).
    { rewrite Z. rewrite (accounted_queueEvent env client enabled configured).
      - unfold accounted. rewrite Ys, Ya, Yq, Gs, Ga, Gq.
        rewrite insertedRows_app.
        assert (I0 : insertedRows ([FetchUser d]
                       ++ [userWrite (userAgent env) d userName t1 existingUser]) = []).
        { destruct existingUser; reflexivity. }
        rewrite I0, app_nil_r. reflexivity.
      - apply known_visit_logs.
      - unfold tables_ok. rewrite Yq, Gq. exact K. }
    destruct (queueEvent_parks env client visit_logs
                (VisitRow d (Some userName) (pathname s) (referrer_or_null env) t2) y
                enabled configured) as [ks Kz].
    rewrite <- Z in Kz.
    assert (Lz : localStorage z = localStorage s0).
    { rewrite Z, queueEvent_localStorage, Yl, Gl. reflexivity. }
    assert (Cz : console z = console s ++ fetchLog fetchError
                             ++ writeLog (updating_of existingUser) writeError).
    { rewrite Z, queueEvent_console, Yc, Gc, <- app_assoc. reflexivity. }
    assert (Dz : device_is d (setUserName userName z)).
    { unfold device_is, setUserName. fields.
      rewrite lookup_insert_ne by discriminate. rewrite Lz. exact D. }
    assert (Nz : getUserName (setUserName userName z) = Some userName).
    { unfold getUserName, setUserName. fields. apply lookup_insert_eq. }
    rewrite E3. split; [|split; [|split]].
    + rewrite startLiveTracking_userName. exact Nz.
    + rewrite accounted_startLiveTracking. exact Az.
    + destruct (startLiveTracking_awaiting env enabled (setUserName userName z)) as [p A].
      rewrite A, (getDeviceId_kept env d _ T Dz), Nz. cbn [fst].
      exists ks, p. unfold setUserName. fields. rewrite Kz, Ya, Ga, <- app_assoc. reflexivity.
    + rewrite startLiveTracking_console. exact Cz.
Qed.

Lemma trackUserVisit_two_answers_witness :
  tables_ok page0 /\
  sink (resume env_on 0 (FetchResult seen_before None)
          (with_now 100 (trackUserVisit env_on "ann" page0))) =
    [FetchUser "device_0_k3j9x0a2q"; UpdateUserVisit "device_0_k3j9x0a2q" "ann" 100 5] /\
  getUserName (resume env_on 0 (FetchResult seen_before None)
                 (with_now 100 (trackUserVisit env_on "ann" page0))) = None /\
  getUserName (resume env_on 0 (WriteResult (Some "timeout"))
                 (with_now 250 (resume env_on 0 (FetchResult seen_before None)
                                  (with_now 100 (trackUserVisit env_on "ann" page0)))))
    = Some "ann" /\
  console (resume env_on 0 (WriteResult (Some "timeout"))
             (with_now 250 (resume env_on 0 (FetchResult seen_before None)
                              (with_now 100 (trackUserVisit env_on "ann" page0)))))
    = ["Error updating user: timeout"].
Proof.
  assert (K : tables_ok page0) by constructor.
  split; [exact K|].
  pose proof (trackUserVisit_two_answers env_on client0 eq_refl eq_refl "ann" page0
                seen_before None (Some "timeout") 100 250 K) as T.
  cbv zeta in T. destruct T as [_ [[A [B _]] [C [_ [_ D]]]]].
  split; [|split; [|split]].
  - vm_compute in A. vm_compute. exact A.
  - vm_compute in B. vm_compute. exact B.
  - vm_compute in C. vm_compute. exact C.
  - vm_compute in D. vm_compute. exact D.
Defined.

(** ** Initialization *)

Lemma queueEvent_now env tbl d s : now (queueEvent env tbl d s) = now s.
Proof.
  destruct (isAnalyticsEnabled env) eqn:En; [|rewrite (queueEvent_disabled env En); reflexivity].
  destruct (Nat.le_gt_cases MAX_QUEUE_SIZE (length (eventQueue s) + 1)) as [L|L].
  - rewrite (queueEvent_full env En tbl d s L).
    pose proof (flushEvents_heartbeat env
                  (with_eventQueue (eventQueue s ++ [{| table := tbl; data := d |}]) s)) as H.
    unfold heartbeatView in H. injection H as H _ _ _ _ _ _. exact H.
  - rewrite (queueEvent_small env En tbl d s L), scheduleFlush_now. reflexivity.
Qed.

Lemma initializeTracking_named env client n s :
  isAnalyticsEnabled env = true ->
  analyticsClient env = Some client ->
  getUserName s = Some n -> truthy n = true ->
  initializeTracking env s =
    suspend KInitTouch
      (request (TouchUser (fst (getDeviceId env s)) (now s))
         (queueEvent env visit_logs
            (VisitRow (fst (getDeviceId env s)) (Some n) (pathname s)
               (referrer_or_null env) (now s))
            (snd (getDeviceId env s)))).
Proof.
  intros enabled configured N T. unfold initializeTracking, safeAnalyticsOperation.
  rewrite enabled, configured. cbn [negb].
  pose proof (getDeviceId_userName env s) as U.
  destruct (getDeviceId_writes env s) as [ls [k W]].
  destruct (getDeviceId env s) as [d s0]. cbn [fst snd] in *.
  rewrite U, N, T. rewrite queueEvent_now. unfold visitRow.
  rewrite W. reflexivity.
Qed.

(** X15. [initializeTracking] on a configured page.  Without a stored name
    (none, or an empty one) it resolves the device id and does nothing else.
    With one, it queues the visit log of the current page and sends the
    update of the last visit time; the heartbeat starts only when that update
    has been answered, and whatever the answer is: its error is not looked
    at, so nothing is logged. *)
Theorem initializeTracking_returning_visitor (env : Env) (client : Client) :
  isAnalyticsEnabled env = true ->
  analyticsClient env = Some client ->
  forall s,
    tables_ok s ->
    let d := fst (getDeviceId env s) in
    let s1 := initializeTracking env s in
    (hasUserName s = false -> s1 = snd (getDeviceId env s)) /\
    (forall n,
       getUserName s = Some n -> truthy n = true ->
       accounted s1 ≡ₚ
         accounted s ++ [VisitRow d (Some n) (pathname s) (referrer_or_null env) (now s)] /\
       last (sink s1) = Some (TouchUser d (now s)) /\
       exists ks,
         awaiting s1 = awaiting s ++ ks ++ [KInitTouch] /\
         forall r t,
           let s2 := resume env (length (awaiting s ++ ks)) r (with_now t s1) in
           console s2 = console s /\
           getUserName s2 = Some n /\
           exists pinged, awaiting s2 = awaiting s ++ ks ++ [KLive d (Some n) pinged]).
Proof.
  intros enabled configured s K d s1.
  destruct (getDeviceId_stores env s) as [T D]. fold d in T, D.
  destruct (getDeviceId_writes env s) as [ls [k W]].
  pose proof (getDeviceId_userName env s) as U.
  split.
  - intros H. subst s1. unfold initializeTracking, safeAnalyticsOperation.
    rewrite enabled, configured. cbn [negb].
    unfold hasUserName in H. rewrite <- U in H.
    destruct (getDeviceId env s) as [d' s0]. cbn [snd] in *.
    destruct (getUserName s0) as [n|]; [|reflexivity].
    rewrite H. reflexivity.
  - intros n N Tn.
    assert (E1 : s1 = suspend KInitTouch
                   (request (TouchUser d (now s))
                      (queueEvent env visit_logs
                         (VisitRow d (Some n) (pathname s) (referrer_or_null env) (now s))
                         (snd (getDeviceId env s))))).
    { apply (initializeTracking_named env client n s enabled configured N Tn). }
    remember (snd (getDeviceId env s)) as s0 eqn:E0.
    remember (queueEvent env visit_logs
                (VisitRow d (Some n) (pathname s) (referrer_or_null env) (now s)) s0)
      as z eqn:Z.
    assert (Az : accounted z ≡ₚ
                 accounted s ++ [VisitRow d (Some n) (pathname s)
                                   (referrer_or_null env) (now s)]).
    { rewrite Z. rewrite (accounted_queueEvent env client enabled configured).
      - rewrite W. reflexivity.
      - apply known_visit_logs.
      - rewrite W. exact K. }
    destruct (queueEvent_parks env client visit_logs
                (VisitRow d (Some n) (pathname s) (referrer_or_null env) (now s)) s0
                enabled configured) as [ks Kz].
    rewrite <- Z in Kz.
    assert (Lz : localStorage z = localStorage s0).
    { rewrite Z, queueEvent_localStorage. reflexivity. }
    assert (Cz : console z = console s).
    { rewrite Z, queueEvent_console, W. reflexivity. }
    assert (A0 : awaiting s0 = awaiting s) by (rewrite W; reflexivity).
    split; [|split].
    + rewrite E1. unfold accounted. fields. unfold accounted in Az.
      rewrite insertedRows_app, parkedRows_app.
      cbn [insertedRows parkedRows List.flat_map]. rewrite !app_nil_r. exact Az.
    + rewrite E1. fields. apply last_snoc.
    + exists ks. split.
      * rewrite E1. fields. rewrite Kz, A0, <- app_assoc. reflexivity.
      * intros r t s2. subst s2.
        rewrite (resume_last env (awaiting s ++ ks) KInitTouch).
        2:{ rewrite E1. fields. rewrite Kz, A0. reflexivity. }
        cbn [continue].
        remember (with_awaiting (awaiting s ++ ks) (with_now t s1)) as x eqn:X.
        assert (Fx : localStorage x = localStorage s0 /\ console x = console s /\
                     awaiting x = awaiting s ++ ks).
        { rewrite X, E1. fields. rewrite Lz, Cz. repeat split. }
        destruct Fx as [Xl [Xc Xa]].
        assert (Dx : device_is d x) by (unfold device_is; rewrite Xl; exact D).
        assert (Nx : getUserName x = Some n).
        { unfold getUserName. rewrite Xl. fold (getUserName s0). rewrite U. exact N. }
        split; [|split].
        -- rewrite startLiveTracking_console. exact Xc.
        -- rewrite startLiveTracking_userName. exact Nx.
        -- destruct (startLiveTracking_awaiting env enabled x) as [p A].
           rewrite A, (getDeviceId_kept env d _ T Dx), Nx, Xa. cbn [fst].
           exists p. rewrite <- app_assoc. reflexivity.
Qed.

Lemma initializeTracking_returning_visitor_witness :
  tables_ok returning /\
  exists ks,
    awaiting (initializeTracking env_on returning) = awaiting returning ++ ks ++ [KInitTouch] /\
    console (resume env_on (length (awaiting returning ++ ks)) (WriteResult (Some "offline"))
               (with_now 40 (initializeTracking env_on returning))) = console returning.
Proof.
  assert (K : tables_ok returning) by constructor.
  split; [exact K|].
  pose proof (initializeTracking_returning_visitor env_on client0 eq_refl eq_refl
                returning K) as T.
  cbv zeta in T. destruct T as [_ T].
  destruct (getUserName returning) as [n|] eqn:N; [|vm_compute in N; discriminate N].
  assert (Tn : truthy n = true).
  { vm_compute in N. injection N as <-. reflexivity. }
  destruct (T n eq_refl Tn) as [_ [_ [ks [A R]]]].
  exists ks. split; [exact A|].
  destruct (R (WriteResult (Some "offline")) 40) as [C _]. exact C.
Defined.

(** ** A page without client *)

Section NoClient.

Variable env : Env.
Hypothesis no_client : analyticsClient env = None.

Lemma flushEvents_no_client s :
  flushEvents env s = s \/ flushEvents env s = with_eventQueue [] s.
Proof.
  unfold flushEvents, safeAnalyticsOperation, flushOperation, flushVisitLogs, has_client.
  rewrite no_client.
  destruct ((length (eventQueue s) =? 0)%nat || negb (isAnalyticsEnabled env));
    [left; reflexivity|right].
  rewrite !andb_false_r. reflexivity.
Qed.

Lemma outside_flushEvents s : outsideView (flushEvents env s) = outsideView s.
Proof. destruct (flushEvents_no_client s) as [-> | ->]; reflexivity. Qed.

Lemma outside_scheduleFlush s : outsideView (scheduleFlush s) = outsideView s.
Proof. unfold scheduleFlush. destruct (flushTimeout s); reflexivity. Qed.

Lemma outside_queueEvent tbl d s : outsideView (queueEvent env tbl d s) = outsideView s.
Proof.
  unfold queueEvent. destruct (negb (isAnalyticsEnabled env)); [reflexivity|].
  destruct (MAX_QUEUE_SIZE <=? _)%nat.
  - rewrite outside_flushEvents. reflexivity.
  - rewrite outside_scheduleFlush. reflexivity.
Qed.

Lemma outside_getDeviceId s : outsideView (snd (getDeviceId env s)) = outsideView s.
Proof. destruct (getDeviceId_writes env s) as [ls [n ->]]. reflexivity. Qed.

Lemma sendPing_no_client d u s : sendPing env d u s = (s, false).
Proof.
  unfold sendPing, safeAnalyticsOperation. rewrite no_client.
  destruct (negb (isTabActive s) || (MIN_ACTIVITY_GAP <? now s - lastActivity s)
            || negb (isAnalyticsEnabled env)); reflexivity.
Qed.

Lemma trackUserVisit_no_client name s :
  isAnalyticsEnabled env = true -> trackUserVisit env name s = s.
Proof.
  intros enabled. unfold trackUserVisit, safeAnalyticsOperation.
  rewrite enabled, no_client. reflexivity.
Qed.

Lemma initializeTracking_no_client s : initializeTracking env s = s.
Proof.
  unfold initializeTracking, safeAnalyticsOperation. rewrite no_client.
  destruct (negb (isAnalyticsEnabled env)); reflexivity.
Qed.

Lemma outside_rest d u s :
  outsideView (startLiveTracking_rest d u s) = outsideView s.
Proof. unfold startLiveTracking_rest. destruct (pingInterval s); reflexivity. Qed.

Lemma outside_finalPing d u s : outsideView (finalPing env d u s) = outsideView s.
Proof.
  unfold finalPing. rewrite no_client.
  destruct (pingInterval s); destruct (isAnalyticsEnabled env); reflexivity.
Qed.

Lemma outside_listeners ls : forall s,
  outsideView (List.fold_left (fun s l => runListener env l s) ls s) = outsideView s.
Proof.
  induction ls as [|l ls IH]; intros s; [reflexivity|].
  cbn [List.fold_left]. rewrite IH.
  destruct l; cbn [runListener]; [apply outside_flushEvents|apply outside_finalPing].
Qed.

Lemma silent_outside s' s : outsideView s' = outsideView s -> silent s -> silent s'.
Proof. intros V. injection V as A B C. unfold silent. rewrite A, B, C. tauto. Qed.

Lemma silent_startLiveTracking s : silent s -> silent (startLiveTracking env s).
Proof.
  intros Q. unfold startLiveTracking.
  destruct (negb (isAnalyticsEnabled env)); [exact Q|].
  pose proof (outside_getDeviceId s) as V.
  destruct (getDeviceId env s) as [d s1]. cbn [snd] in V.
  rewrite sendPing_no_client.
  apply (silent_outside _ _ V) in Q. destruct Q as [A [B C]].
  repeat split; fields; try assumption.
  apply Forall_app. split; [exact C|]. constructor; [exact I|constructor].
Qed.

Lemma silent_resume i r s : silent s -> silent (resume env i r s).
Proof.
  intros Q. unfold resume. destruct (awaiting s !! i) as [k|] eqn:L; [|exact Q].
  destruct Q as [A [B C]].
  assert (U : unpinged k).
  { exact (Forall_lookup_1 _ _ _ _ C L). }
  destruct k as [| | |d u [|]| | |]; try contradiction U.
  cbn [continue].
  apply (silent_outside _ (with_awaiting (delete i (awaiting s)) s)); [apply outside_rest|].
  repeat split; fields; try assumption.
  apply Forall_delete, C.
Qed.

Lemma silent_step a s s' : silent s -> step env a s = Some s' -> silent s'.
Proof.
  intros Q E. destruct a; cbn [step] in E.
  - inversion E; subst. apply (silent_outside _ _ (outside_getDeviceId s) Q).
  - inversion E; subst. exact Q.
  - inversion E; subst. unfold trackBusinessInteraction.
    pose proof (outside_getDeviceId s) as V.
    destruct (getDeviceId env s) as [d s1]. cbn [snd] in V.
    apply (silent_outside _ s1); [apply outside_queueEvent|].
    apply (silent_outside _ _ V Q).
  - inversion E; subst. unfold trackUserVisit, safeAnalyticsOperation.
    rewrite no_client. destruct (negb (isAnalyticsEnabled env)); exact Q.
  - inversion E; subst. rewrite initializeTracking_no_client. exact Q.
  - inversion E; subst. apply silent_startLiveTracking, Q.
  - destruct (0 <=? dt); inversion E; subst. exact Q.
  - inversion E; subst. exact Q.
  - inversion E; subst. exact Q.
  - inversion E; subst. unfold onVisibilityChange.
    destruct (isTabActive _); exact Q.
  - unfold fireTimeout in E.
    destruct (List.find _ (timeouts s)) as [[h' due]|]; [|discriminate].
    destruct (due <=? now s); inversion E; subst.
    apply (silent_outside _ (clearTimeout h s)); [apply outside_flushEvents|exact Q].
  - unfold fireInterval in E.
    destruct (List.find _ (intervals s)) as [i|]; [|discriminate].
    destruct (i_due i <=? now s); [|discriminate].
    rewrite sendPing_no_client in E. inversion E; subst. exact Q.
  - destruct (i <? length (awaiting s))%nat; inversion E; subst.
    apply silent_resume, Q.
  - inversion E; subst. unfold beforeUnload.
    apply (silent_outside _ s); [apply outside_listeners|exact Q].
Qed.

Lemma silent_run acts : forall s s', silent s -> run env acts s = Some s' -> silent s'.
Proof.
  induction acts as [|a acts IH]; intros s s' Q E; simpl in E.
  - inversion E; subst; exact Q.
  - destruct (step env a s) as [s1|] eqn:S1; [|discriminate].
    eapply IH; [|exact E]. eapply silent_step; eauto.
Qed.

End NoClient.

Lemma silent_init t0 path stored : silent (init t0 path stored).
Proof. repeat split. constructor. Qed.

(** X16. A page whose client is [null] never reaches the sink, whatever the
    enable flag says: over a whole session, teardown included, no request is
    sent and nothing is logged, and all that is ever parked are calls of
    [startLiveTracking] whose first ping sent nothing.  With the flag on,
    [trackUserVisit] then returns before it stores the name, unlike on a
    disabled page; [initializeTracking] does nothing. *)
Theorem no_client_never_sends (env : Env) :
  analyticsClient env = None ->
  (forall acts t0 path stored s,
     run env acts (init t0 path stored) = Some s ->
     sink s = [] /\ console s = [] /\ Forall unpinged (awaiting s)) /\
  (isAnalyticsEnabled env = true -> forall name s, trackUserVisit env name s = s) /\
  (forall s, initializeTracking env s = s).
Proof.
  intros no_client. split; [|split].
  - intros acts t0 path stored s R.
    exact (silent_run env no_client acts _ _ (silent_init t0 path stored) R).
  - intros enabled name s. apply trackUserVisit_no_client; assumption.
  - apply initializeTracking_no_client, no_client.
Qed.

Lemma no_client_never_sends_witness :
  exists s,
    run env_no_client [CallTrackUserVisit "ann"; CallTrackBusinessInteraction call "shop";
                       CallStartLiveTracking; Resume 0 (WriteResult None);
                       Elapse 20000; FireInterval 2; FireTimeout 1; BeforeUnload]
        page0 = Some s /\
    sink s = [] /\ console s = [] /\ getUserName s = None.
Proof.
  destruct (run env_no_client [CallTrackUserVisit "ann";
                               CallTrackBusinessInteraction call "shop";
                               CallStartLiveTracking; Resume 0 (WriteResult None);
                               Elapse 20000; FireInterval 2; FireTimeout 1; BeforeUnload]
              page0) as [s|] eqn:R.
  - exists s. split; [reflexivity|].
    destruct (no_client_never_sends env_no_client eq_refl) as [N _].
    destruct (N _ 0 "/" ∅ s R) as [A [B _]].
    split; [exact A|]. split; [exact B|].
    vm_compute in R. injection R as <-. reflexivity.
  - vm_compute in R. discriminate R.
Defined.

(** ** One device id per page *)

Lemma call_in_impl (Q Q' : string -> Prop) c :
  (forall d, Q d -> Q' d) -> call_in Q c -> call_in Q' c.
Proof.
  intros M. destruct c; cbn [call_in]; try apply M.
  intros H. eapply Forall_impl; [exact H|]. intros p. apply M.
Qed.

Lemma cont_in_impl (Q Q' : string -> Prop) k :
  (forall d, Q d -> Q' d) -> cont_in Q k -> cont_in Q' k.
Proof.
  intros M. destruct k; cbn [cont_in]; try apply M; try (intros; exact I).
  intros H. eapply Forall_impl; [exact H|]. intros e. apply M.
Qed.

Lemma ids_in_impl (Q Q' : string -> Prop) s :
  (forall d, Q d -> Q' d) -> ids_in Q s -> ids_in Q' s.
Proof.
  intros M [A [B [C [D E]]]]. unfold ids_in. split; [|split; [|split; [|split]]].
  - eapply Forall_impl; [exact A|]. intros c. apply call_in_impl, M.
  - eapply Forall_impl; [exact B|]. intros k. apply cont_in_impl, M.
  - eapply Forall_impl; [exact C|]. intros e. apply M.
  - eapply Forall_impl; [exact D|]. intros i. apply M.
  - eapply Forall_impl; [exact E|]. intros l. destruct l; cbn [listener_in]; auto.
Qed.

Section Ids.

Variable env : Env.
Variable Q : string -> Prop.

Lemma ids_same s s' : idView s' = idView s -> ids_in Q s -> ids_in Q s'.
Proof.
  unfold idView, ids_in. intros V H. injection V as A B C D E.
  rewrite A, B, C, D, E. exact H.
Qed.

Lemma ids_request c s : call_in Q c -> ids_in Q s -> ids_in Q (request c s).
Proof.
  intros Hc [A [B [C [D E]]]]. unfold ids_in. fields.
  split; [|tauto]. apply Forall_app. split; [exact A|]. constructor; [exact Hc|constructor].
Qed.

Lemma ids_suspend k s : cont_in Q k -> ids_in Q s -> ids_in Q (suspend k s).
Proof.
  intros Hk [A [B [C [D E]]]]. unfold ids_in. fields.
  split; [exact A|]. split; [|tauto].
  apply Forall_app. split; [exact B|]. constructor; [exact Hk|constructor].
Qed.

Lemma ids_log_error label e s : ids_in Q s -> ids_in Q (log_error label e s).
Proof. apply ids_same. destruct e; reflexivity. Qed.

Lemma rows_in_filter f q :
  Forall (fun e => Q (row_id (data e))) q ->
  Forall (fun p => Q (row_id p)) (List.map data (List.filter f q)).
Proof. intros H. apply List.Forall_map. apply Forall_filter_keep, H. Qed.

Lemma ids_flushVisitLogs vl s s' :
  Forall (fun e => Q (row_id (data e))) vl -> ids_in Q s ->
  flushVisitLogs env vl s = Normal s' -> ids_in Q s'.
Proof.
  unfold flushVisitLogs. intros V H E.
  destruct (nonempty vl && has_client env); injection E as <-; [|exact H].
  apply ids_suspend; [exact I|]. apply ids_request; [|exact H].
  cbn [call_in]. apply List.Forall_map. exact V.
Qed.

Lemma ids_flushEvents s : ids_in Q s -> ids_in Q (flushEvents env s).
Proof.
  intros H. unfold flushEvents.
  destruct ((length (eventQueue s) =? 0)%nat || negb (isAnalyticsEnabled env)); [exact H|].
  unfold safeAnalyticsOperation, flushOperation.
  assert (H0 : ids_in Q (with_eventQueue [] s)).
  { destruct H as [A [B [C [D E]]]]. unfold ids_in. fields. auto. }
  destruct H as [_ [_ [Hq _]]].
  destruct (nonempty _ && has_client env).
  - apply ids_suspend; [cbn [cont_in]; apply Forall_filter_keep, Hq|].
    apply ids_request; [|exact H0]. cbn [call_in]. apply rows_in_filter, Hq.
  - match goal with |- context [flushVisitLogs env ?b ?t] =>
      destruct (flushVisitLogs_normal env b t) as [s' E] end.
    rewrite E. eapply ids_flushVisitLogs; [|exact H0|exact E].
    apply Forall_filter_keep, Hq.
Qed.

Lemma idView_scheduleFlush s : idView (scheduleFlush s) = idView s.
Proof. unfold scheduleFlush. destruct (flushTimeout s); reflexivity. Qed.

Lemma ids_queueEvent tbl p s :
  Q (row_id p) -> ids_in Q s -> ids_in Q (queueEvent env tbl p s).
Proof.
  intros Hp H. unfold queueEvent.
  destruct (negb (isAnalyticsEnabled env)); [exact H|].
  assert (H1 : ids_in Q (with_eventQueue (eventQueue s ++ [{| table := tbl; data := p |}]) s)).
  { destruct H as [A [B [C [D E]]]]. unfold ids_in. fields.
    split; [exact A|]. split; [exact B|]. split; [|tauto].
    apply Forall_app. split; [exact C|]. constructor; [exact Hp|constructor]. }
  destruct (MAX_QUEUE_SIZE <=? _)%nat.
  - apply ids_flushEvents, H1.
  - apply (ids_same _ _ (idView_scheduleFlush _)), H1.
Qed.

Lemma ids_sendPing d u s : Q d -> ids_in Q s -> ids_in Q (fst (sendPing env d u s)).
Proof.
  intros Hd H. unfold sendPing, safeAnalyticsOperation.
  destruct (negb (isTabActive s) || (MIN_ACTIVITY_GAP <? now s - lastActivity s)
            || negb (isAnalyticsEnabled env)); [exact H|].
  destruct (analyticsClient env); [|exact H].
  cbn [fst]. apply ids_request; [exact Hd|exact H].
Qed.

Lemma ids_clearInterval h s : ids_in Q s -> ids_in Q (clearInterval h s).
Proof.
  intros [A [B [C [D E]]]]. unfold ids_in, clearInterval. fields.
  repeat split; try assumption. apply Forall_filter_keep, D.
Qed.

Lemma ids_rest d u s : Q d -> ids_in Q s -> ids_in Q (startLiveTracking_rest d u s).
Proof.
  intros Hd H. unfold startLiveTracking_rest.
  assert (H1 : ids_in Q (match pingInterval s with
                         | Some h => clearInterval h s
                         | None => s
                         end)).
  { destruct (pingInterval s); [apply ids_clearInterval|]; exact H. }
  remember (match pingInterval s with Some h => clearInterval h s | None => s end)
    as s1 eqn:E1.
  destruct H1 as [A [B [C [D E]]]]. unfold ids_in. fields.
  split; [exact A|]. split; [exact B|]. split; [exact C|]. split.
  - apply Forall_app. split; [exact D|]. constructor; [exact Hd|constructor].
  - apply Forall_app. split; [exact E|]. constructor; [exact Hd|constructor].
Qed.

Lemma ids_finalPing d u s : Q d -> ids_in Q s -> ids_in Q (finalPing env d u s).
Proof.
  intros Hd H. unfold finalPing.
  assert (H1 : ids_in Q (match pingInterval s with
                         | Some h => clearInterval h s
                         | None => s
                         end)).
  { destruct (pingInterval s); [apply ids_clearInterval|]; exact H. }
  remember (match pingInterval s with Some h => clearInterval h s | None => s end)
    as s1 eqn:E1.
  destruct (isAnalyticsEnabled env); [|exact H1].
  destruct (analyticsClient env); [|exact H1].
  apply ids_request; [exact Hd|exact H1].
Qed.

Lemma ids_listeners ls : forall s,
  Forall (listener_in Q) ls -> ids_in Q s ->
  ids_in Q (List.fold_left (fun s l => runListener env l s) ls s).
Proof.
  induction ls as [|l ls IH]; intros s F H; [exact H|].
  apply Forall_cons in F. destruct F as [Hl F].
  cbn [List.fold_left]. apply IH; [exact F|].
  destruct l; cbn [runListener]; [apply ids_flushEvents|apply ids_finalPing]; assumption.
Qed.

Lemma ids_fetched n d ua ex fe s :
  Q d -> ids_in Q s -> ids_in Q (trackUserVisit_fetched n d ua ex fe s).
Proof.
  intros Hd H. rewrite trackUserVisit_fetched_eq.
  apply ids_suspend; [exact Hd|]. apply ids_request.
  - destruct ex; exact Hd.
  - apply (ids_same s); [reflexivity|exact H].
Qed.

Lemma ids_fireInterval h s s' :
  ids_in Q s -> fireInterval env h s = Some s' -> ids_in Q s'.
Proof.
  intros H E. unfold fireInterval in E.
  destruct (List.find _ (intervals s)) as [i|] eqn:F; [|discriminate].
  destruct (i_due i <=? now s); [|discriminate].
  apply List.find_some in F. destruct F as [Hi _].
  assert (Qi : Q (i_deviceId i)).
  { destruct H as [_ [_ [_ [D _]]]]. rewrite List.Forall_forall in D. apply (D i Hi). }
  assert (H1 : ids_in Q (with_intervals
                           (List.map (rearm h (now s + PING_INTERVAL)) (intervals s)) s)).
  { destruct H as [A [B [C [D E']]]]. unfold ids_in. fields.
    repeat split; try assumption. apply List.Forall_map.
    eapply Forall_impl; [exact D|]. intros j Hj. unfold rearm.
    destruct (Nat.eqb (i_handle j) h); exact Hj. }
  pose proof (ids_sendPing (i_deviceId i) (i_userName i) _ Qi H1) as H2.
  destruct (sendPing env (i_deviceId i) (i_userName i) _) as [s2 p]. cbn [fst] in H2.
  injection E as <-. destruct p; [apply ids_suspend; [exact I|]|]; exact H2.
Qed.

End Ids.

Lemma owner_same s s' :
  localStorage s' !! DEVICE_ID_KEY = localStorage s !! DEVICE_ID_KEY -> owner s' = owner s.
Proof. unfold owner. intros ->. reflexivity. Qed.

Lemma owner_device d s : owner s = Some d -> truthy d = true /\ device_is d s.
Proof.
  unfold owner, device_is.
  destruct (localStorage s !! DEVICE_ID_KEY) as [d'|]; [|discriminate].
  destruct (truthy d') eqn:T; [|discriminate].
  intros E. injection E as <-. auto.
Qed.

Lemma one_device_step s s' :
  owner s' = owner s ->
  (ids_in (fun d => owner s = Some d) s -> ids_in (fun d => owner s = Some d) s') ->
  one_device s -> one_device s'.
Proof. unfold one_device. intros E F H. rewrite E. apply F, H. Qed.

Lemma sendPing_localStorage env d u s :
  localStorage (fst (sendPing env d u s)) = localStorage s.
Proof. destruct (sendPing_cases env d u s) as [-> | [row ->]]; reflexivity. Qed.

Lemma listeners_localStorage env ls : forall s,
  localStorage (List.fold_left (fun s l => runListener env l s) ls s) = localStorage s.
Proof.
  induction ls as [|l ls IH]; intros s; [reflexivity|].
  cbn [List.fold_left]. rewrite IH.
  destruct l; cbn [runListener]; [apply flushEvents_localStorage|].
  unfold finalPing.
  destruct (pingInterval s); destruct (isAnalyticsEnabled env);
    destruct (analyticsClient env); reflexivity.
Qed.

(** After [getDeviceId] the id it returned is the stored one, and everything
    on the page carries it. *)
Lemma one_device_getDeviceId env s :
  one_device s ->
  owner (snd (getDeviceId env s)) = Some (fst (getDeviceId env s)) /\
  one_device (snd (getDeviceId env s)).
Proof.
  unfold one_device. intros H.
  destruct (owner s) as [d|] eqn:O.
  - destruct (owner_device d s O) as [T D].
    rewrite (getDeviceId_kept env d s T D). cbn [fst snd]. rewrite O. auto.
  - destruct (getDeviceId_stores env s) as [T D].
    destruct (getDeviceId_writes env s) as [ls [n W]].
    assert (O1 : owner (snd (getDeviceId env s)) = Some (fst (getDeviceId env s))).
    { unfold owner. unfold device_is in D. rewrite D, T. reflexivity. }
    split; [exact O1|]. rewrite O1.
    apply (ids_in_impl (fun d => None = Some d)); [intros d C; discriminate C|].
    apply (ids_same _ s); [rewrite W; reflexivity|exact H].
Qed.

Lemma one_device_startLiveTracking env s :
  one_device s -> one_device (startLiveTracking env s).
Proof.
  intros H. unfold startLiveTracking.
  destruct (negb (isAnalyticsEnabled env)); [exact H|].
  destruct (one_device_getDeviceId env s H) as [O H1].
  pose proof (getDeviceId_userName env s) as U.
  destruct (getDeviceId env s) as [d s1]. cbn [fst snd] in *.
  pose proof (sendPing_localStorage env d (getUserName s1) s1) as L.
  pose proof (ids_sendPing env (fun d' => owner s1 = Some d') d (getUserName s1) s1 O H1)
    as H2.
  destruct (sendPing env d (getUserName s1) s1) as [s2 p]. cbn [fst] in *.
  apply (one_device_step s1).
  - apply owner_same. fields. rewrite L. reflexivity.
  - intros _. apply ids_suspend; [exact O|exact H2].
  - exact H1.
Qed.

Lemma one_device_queueEvent env tbl p s :
  owner s = Some (row_id p) -> one_device s -> one_device (queueEvent env tbl p s).
Proof.
  intros O. apply one_device_step.
  - apply owner_same. rewrite queueEvent_localStorage. reflexivity.
  - apply ids_queueEvent. exact O.
Qed.

Lemma one_device_setUserName name s : one_device s -> one_device (setUserName name s).
Proof.
  apply one_device_step.
  - apply owner_same. unfold setUserName. fields. apply lookup_insert_ne. discriminate.
  - apply ids_same. reflexivity.
Qed.

Lemma one_device_continue env k r s :
  cont_in (fun d => owner s = Some d) k -> one_device s -> one_device (continue env k r s).
Proof.
  intros Hk H. destruct k; cbn [continue cont_in] in *.
  - unfold safeAnalyticsOperation.
    match goal with |- context [flushVisitLogs env ?b ?t] =>
      destruct (flushVisitLogs_normal env b t) as [s' E] end.
    rewrite E. revert H. apply one_device_step.
    + apply owner_same. unfold flushVisitLogs in E.
      destruct (nonempty visitLogs && has_client env); injection E as <-;
        destruct (error_of r); reflexivity.
    + intros H. eapply ids_flushVisitLogs; [exact Hk| |exact E].
      apply ids_log_error, H.
  - revert H. apply one_device_step.
    + apply owner_same. destruct (error_of r); reflexivity.
    + apply ids_log_error.
  - revert H. apply one_device_step.
    + apply owner_same. destruct (error_of r); reflexivity.
    + apply ids_log_error.
  - revert H. apply one_device_step.
    + apply owner_same. rewrite rest_localStorage.
      destruct pinged; [destruct (error_of r)|]; reflexivity.
    + intros H. apply ids_rest; [exact Hk|].
      destruct pinged; [apply ids_log_error|]; exact H.
  - revert H. apply one_device_step.
    + apply owner_same.
      destruct r; rewrite trackUserVisit_fetched_eq; reflexivity.
    + intros H. destruct r; apply ids_fetched; assumption.
  - unfold trackUserVisit_written.
    apply one_device_startLiveTracking, one_device_setUserName.
    assert (H1 : one_device (log_error (if updating then "Error updating user:"
                                        else "Error creating user:") (error_of r) s)).
    { revert H. apply one_device_step.
      - apply owner_same. destruct (error_of r); reflexivity.
      - apply ids_log_error. }
    apply one_device_queueEvent; [|exact H1].
    cbn [visitRow row_id]. rewrite <- Hk. apply owner_same.
    destruct (error_of r); reflexivity.
  - apply one_device_startLiveTracking, H.
Qed.

Lemma one_device_resume env i r s : one_device s -> one_device (resume env i r s).
Proof.
  intros H. unfold resume. destruct (awaiting s !! i) as [k|] eqn:L; [|exact H].
  assert (Hk : cont_in (fun d => owner s = Some d) k).
  { destruct H as [_ [B _]]. exact (Forall_lookup_1 _ _ _ _ B L). }
  apply one_device_continue; [exact Hk|].
  revert H. apply one_device_step; [reflexivity|].
  intros [A [B [C [D E]]]]. unfold ids_in. fields.
  repeat split; try assumption. apply Forall_delete, B.
Qed.

Lemma one_device_step_action env a s s' :
  one_device s -> step env a s = Some s' -> one_device s'.
Proof.
  intros H E. destruct a; cbn [step] in E.
  - injection E as <-. apply one_device_getDeviceId, H.
  - injection E as <-. apply one_device_setUserName, H.
  - injection E as <-. unfold trackBusinessInteraction.
    destruct (one_device_getDeviceId env s H) as [O H1].
    destruct (getDeviceId env s) as [d s1]. cbn [fst snd] in *.
    apply one_device_queueEvent; [exact O|exact H1].
  - injection E as <-. unfold trackUserVisit, safeAnalyticsOperation.
    destruct (negb (isAnalyticsEnabled env)); [apply one_device_setUserName, H|].
    destruct (analyticsClient env); [|exact H].
    destruct (one_device_getDeviceId env s H) as [O H1].
    destruct (getDeviceId env s) as [d s1]. cbn [fst snd] in *.
    revert H1. apply one_device_step; [reflexivity|].
    intros H1. apply ids_suspend; [exact O|]. apply ids_request; [exact O|exact H1].
  - injection E as <-. unfold initializeTracking, safeAnalyticsOperation.
    destruct (negb (isAnalyticsEnabled env)); [exact H|].
    destruct (analyticsClient env); [|exact H].
    destruct (one_device_getDeviceId env s H) as [O H1].
    destruct (getDeviceId env s) as [d s1]. cbn [fst snd] in *.
    destruct (getUserName s1) as [n|]; [|exact H1].
    destruct (truthy n); [|exact H1].
    assert (H2 : one_device (queueEvent env visit_logs (visitRow env d n s1) s1)).
    { apply one_device_queueEvent; [exact O|exact H1]. }
    assert (O2 : owner (queueEvent env visit_logs (visitRow env d n s1) s1) = Some d).
    { rewrite <- O. apply owner_same. rewrite queueEvent_localStorage. reflexivity. }
    revert H2. apply one_device_step; [reflexivity|].
    intros H2. apply ids_suspend; [exact I|]. apply ids_request; [exact O2|exact H2].
  - injection E as <-. apply one_device_startLiveTracking, H.
  - destruct (0 <=? dt); [|discriminate]. injection E as <-.
    revert H. apply one_device_step; [reflexivity|]. apply ids_same. reflexivity.
  - injection E as <-.
    revert H. apply one_device_step; [reflexivity|]. apply ids_same. reflexivity.
  - injection E as <-.
    revert H. apply one_device_step; [reflexivity|]. apply ids_same. reflexivity.
  - injection E as <-. unfold onVisibilityChange.
    revert H. apply one_device_step.
    + destruct (isTabActive _); reflexivity.
    + apply ids_same. destruct (isTabActive _); reflexivity.
  - unfold fireTimeout in E.
    destruct (List.find _ (timeouts s)) as [[h' due]|]; [|discriminate].
    destruct (due <=? now s); [|discriminate]. injection E as <-.
    revert H. apply one_device_step.
    + apply owner_same. rewrite flushEvents_localStorage. reflexivity.
    + intros H. apply ids_flushEvents. apply (ids_same _ s); [reflexivity|exact H].
  - revert H. apply one_device_step.
    + apply owner_same. unfold fireInterval in E.
      destruct (List.find _ (intervals s)) as [i|]; [|discriminate].
      destruct (i_due i <=? now s); [|discriminate].
      match type of E with context [sendPing env ?d ?u ?t] =>
        pose proof (sendPing_localStorage env d u t) as L;
        destruct (sendPing env d u t) as [s2 p] end.
      cbn [fst] in L. injection E as <-. destruct p; fields; rewrite L; reflexivity.
    + intros H. apply (ids_fireInterval env _ h s s' H E).
  - destruct (i <? length (awaiting s))%nat; [|discriminate]. injection E as <-.
    apply one_device_resume, H.
  - injection E as <-. unfold beforeUnload.
    revert H. apply one_device_step.
    + apply owner_same. rewrite listeners_localStorage. reflexivity.
    + intros H. apply ids_listeners; [apply H|exact H].
Qed.

Lemma one_device_run env acts : forall s s',
  one_device s -> run env acts s = Some s' -> one_device s'.
Proof.
  induction acts as [|a acts IH]; intros s s' H E; simpl in E.
  - injection E as <-. exact H.
  - destruct (step env a s) as [s1|] eqn:S1; [|discriminate].
    eapply IH; [|exact E]. eapply one_device_step_action; eauto.
Qed.

Lemma one_device_init t0 path stored : one_device (init t0 path stored).
Proof.
  unfold one_device, ids_in. cbn [init sink awaiting eventQueue intervals unloadListeners].
  split; [constructor|]. split; [constructor|]. split; [constructor|].
  split; [constructor|]. constructor; [exact I|constructor].
Qed.

(** X17. A page speaks for one device.  In every state the page can reach,
    every device id it has put in a request, in a queued or parked row, in a
    parked call, in its heartbeat timer or in a [beforeunload] closure is the
    id held in the storage under [jawala_device_id]: all of them are the
    same id, from the first request to the final beacon. *)
Theorem one_device_id_per_page (env : Env) acts t0 path stored s :
  run env acts (init t0 path stored) = Some s ->
  ids_in (fun d => localStorage s !! DEVICE_ID_KEY = Some d /\ truthy d = true) s.
Proof.
  intros R.
  pose proof (one_device_run env acts _ _ (one_device_init t0 path stored) R) as H.
  revert H. unfold one_device. apply ids_in_impl.
  intros d O. destruct (owner_device d s O) as [T D]. split; assumption.
Qed.

Lemma one_device_id_per_page_witness :
  exists s,
    run env_on [CallTrackBusinessInteraction view "shop"; CallTrackUserVisit "ann";
                Resume 0 (FetchResult None (Some "PGRST116")); Resume 0 (WriteResult None);
                Resume 0 (WriteResult None); Elapse 5000; FireTimeout 2; BeforeUnload]
        page0 = Some s /\
    sink s <> [] /\
    Forall (call_in (fun d => d = "device_0_k3j9x0a2q")) (sink s).
Proof.
  destruct (run env_on [CallTrackBusinessInteraction view "shop"; CallTrackUserVisit "ann";
                        Resume 0 (FetchResult None (Some "PGRST116"));
                        Resume 0 (WriteResult None); Resume 0 (WriteResult None);
                        Elapse 5000; FireTimeout 2; BeforeUnload] page0) as [s|] eqn:R.
  - exists s. split; [reflexivity|].
    pose proof (one_device_id_per_page env_on _ 0 "/" ∅ s R) as [A _].
    assert (L : localStorage s !! DEVICE_ID_KEY = Some "device_0_k3j9x0a2q").
    { vm_compute in R. injection R as <-. reflexivity. }
    split.
    + vm_compute in R. injection R as <-. discriminate.
    + eapply Forall_impl; [exact A|]. intros c. apply call_in_impl.
      intros d [D _]. rewrite L in D. injection D as <-. reflexivity.
  - vm_compute in R. discriminate R.
Defined.

(** ** The read side: hourly histogram *)

Lemma getHours_cases tz t :
  (valid_time t = true /\
   exists hour, getHours tz t = Num hour /\ 0 <= hour < 24) \/
  (valid_time t = false /\ getHours tz t = NaN).
Proof.
  unfold getHours. destruct (valid_time t); [left|right; split; reflexivity].
  split; [reflexivity|]. eexists. split; [reflexivity|].
  apply Z.mod_pos_bound. lia.
Qed.

Lemma sumZ_alter_succ l : forall i,
  (i < length l)%nat -> sumZ (alter Z.succ i l) = sumZ l + 1.
Proof.
  induction l as [|x l IH]; intros i L; cbn [length] in L; [lia|].
  destruct i as [|i]; cbn [alter list_alter sumZ List.fold_right].
  - fold (sumZ l). lia.
  - fold (sumZ l). fold (sumZ (alter Z.succ i l)). rewrite IH by lia. lia.
Qed.

Lemma hourCount_snoc tz h logs t :
  hourCount tz h (logs ++ [t]) =
  hourCount tz h logs + (if in_hour tz h t then 1 else 0).
Proof.
  unfold hourCount. rewrite List.filter_app, length_app. cbn [List.filter].
  destruct (in_hour tz h t); cbn [length]; lia.
Qed.

(** The counters after the logs have been folded: still 24 of them, each
    counting the valid logs of its hour, and the key [NaN] is there exactly
    when some log's date was invalid. *)
Lemma buckets_spec tz logs :
  let b := List.fold_left (countHour tz) logs
             {| counters := replicate 24 0; nan_key := false |} in
  length (counters b) = 24%nat /\
  (forall h, (h < 24)%nat -> counters b !! h = Some (hourCount tz h logs)) /\
  sumZ (counters b) = Z.of_nat (length (List.filter valid_time logs)) /\
  nan_key b = negb (forallb valid_time logs).
Proof.
  induction logs as [|t logs IH] using rev_ind; intros b.
  - subst b. cbn [List.fold_left counters nan_key].
    split; [reflexivity|]. split; [|split; reflexivity].
    intros h L. apply lookup_replicate_2, L.
  - subst b. rewrite List.fold_left_app. cbn [List.fold_left].
    cbv zeta in IH. destruct IH as [Len [Lk [Sm Nk]]].
    remember (List.fold_left (countHour tz) logs
                {| counters := replicate 24 0; nan_key := false |}) as b eqn:B.
    rewrite List.filter_app, length_app, forallb_app. cbn [List.filter forallb].
    unfold countHour.
    destruct (getHours_cases tz t) as [[V [hour [G R]]] | [V G]]; rewrite G, V.
    + cbn [counters nan_key length]. split; [|split; [|split]].
      * rewrite length_alter. exact Len.
      * intros h L. rewrite hourCount_snoc, list_lookup_alter. unfold in_hour. rewrite G.
        destruct (decide (Z.to_nat hour = h)) as [E|E].
        -- rewrite E, (Lk h L), Nat.eqb_refl. reflexivity.
        -- rewrite (Lk h L). apply Nat.eqb_neq in E. rewrite E, Z.add_0_r. reflexivity.
      * rewrite sumZ_alter_succ by lia. rewrite Sm. lia.
      * rewrite Nk, andb_true_r. reflexivity.
    + cbn [counters nan_key length]. split; [exact Len|]. split; [|split].
      * intros h L. rewrite hourCount_snoc. unfold in_hour. rewrite G, Z.add_0_r.
        apply (Lk h L).
      * rewrite Sm. f_equal. lia.
      * rewrite andb_false_r. reflexivity.
Qed.

Lemma counters_by_hour (f : nat -> Z) (l : list Z) :
  length l = 24%nat ->
  (forall h, (h < 24)%nat -> l !! h = Some (f h)) ->
  l = f <$> seq 0 24.
Proof.
  intros Len Lk. apply list_eq. intros h. rewrite list_lookup_fmap.
  destruct (Nat.lt_ge_cases h 24) as [L|L].
  - rewrite (Lk h L), (lookup_seq_lt 0 24 h L). reflexivity.
  - rewrite (lookup_ge_None_2 l h) by lia.
    rewrite (lookup_seq_ge 0 24 h L). reflexivity.
Qed.

(** X18. The array [getHourlyStats] builds from an answer without error
    starts with 24 rows, one per hour from 0 to 23 in that order, whatever
    the time zone of the host; the row of hour [h] counts the logs whose
    date is valid and whose local hour is [h], and the 24 counts add up to
    the number of logs with a valid date.  When every log has a valid date
    these 24 rows are the whole array and the counts add up to the number of
    logs: none is left out or counted twice; with no data they are all zero.
    When some log has an invalid date the array has a 25th row, whose hour
    and count are both [NaN].  An answer with an error gives the empty array
    and is logged.  Without a client no query is sent and the result is the
    empty array; with one, the day asked for is the one passed, an empty
    string standing for today like no date at all. *)
Theorem getHourlyStats_buckets (env : Env) (getTimezoneOffset : Z -> Z)
    (isoDate : Z -> string) (data : option (list Z)) :
  let logs := rows_of data in
  let rows := hourly getTimezoneOffset data in
  (forall h, (h < 24)%nat -> rows !! h = Some (hourRow getTimezoneOffset logs h)) /\
  sumZ ((fun h => hourCount getTimezoneOffset h logs) <$> seq 0 24) =
    Z.of_nat (length (List.filter valid_time logs)) /\
  (forallb valid_time logs = true ->
   rows = hourRow getTimezoneOffset logs <$> seq 0 24 /\
   length rows = 24%nat /\
   sumZ ((fun h => hourCount getTimezoneOffset h logs) <$> seq 0 24) =
     Z.of_nat (length logs)) /\
  (forallb valid_time logs = false ->
   rows = (hourRow getTimezoneOffset logs <$> seq 0 24)
          ++ [{| Hourly.hour := NaN; Hourly.visits := NaN |}] /\
   length rows = 25%nat) /\
  (forall s, getHourlyStats_answered getTimezoneOffset data None s = (rows, s)) /\
  (forall e s,
     getHourlyStats_answered getTimezoneOffset data (Some e) s = ([], console_error e s)) /\
  (analyticsClient env = None ->
   forall date s, getHourlyStats env isoDate date s = Returns []) /\
  (forall client date s,
     analyticsClient env = Some client ->
     getHourlyStats env isoDate (Some date) s =
       Asks (SelectVisitTimes
               ((if truthy date then date else isoDate (now s)) +:+ "T00:00:00")
               ((if truthy date then date else isoDate (now s)) +:+ "T23:59:59")) /\
     getHourlyStats env isoDate None s = getHourlyStats env isoDate (Some "") s).
Proof.
  intros logs rows.
  destruct (buckets_spec getTimezoneOffset logs) as [Len [Lk [Sm Nk]]].
  assert (C : counters (List.fold_left (countHour getTimezoneOffset) logs
                          {| counters := replicate 24 0; nan_key := false |})
              = (fun h => hourCount getTimezoneOffset h logs) <$> seq 0 24).
  { apply counters_by_hour; assumption. }
  assert (R : rows =
              (hourRow getTimezoneOffset logs <$> seq 0 24)
              ++ (if negb (forallb valid_time logs)
                  then [{| Hourly.hour := NaN; Hourly.visits := NaN |}] else [])).
  { subst rows. unfold hourly. fold logs. cbv zeta. rewrite Nk. f_equal.
    rewrite C. apply list_eq. intros h.
    rewrite list_lookup_imap, !list_lookup_fmap.
    destruct (seq 0 24 !! h) as [k|] eqn:E; [|reflexivity].
    apply lookup_seq in E. destruct E as [-> _]. reflexivity. }
  assert (L24 : length (hourRow getTimezoneOffset logs <$> seq 0 24) = 24%nat).
  { rewrite length_fmap, length_seq. reflexivity. }
  split; [|split; [|split; [|split; [|split; [|split; [|split]]]]]].
  - intros h L. rewrite R, lookup_app_l by (rewrite L24; exact L).
    rewrite list_lookup_fmap, (lookup_seq_lt 0 24 h L). reflexivity.
  - rewrite <- C. exact Sm.
  - intros V. rewrite V in R. cbn [negb] in R. rewrite app_nil_r in R.
    split; [exact R|]. split; [rewrite R; exact L24|].
    rewrite <- C, Sm. f_equal. f_equal.
    clear -V. induction logs as [|t logs IH]; [reflexivity|].
    cbn [forallb] in V. apply andb_true_iff in V. destruct V as [Vt V].
    cbn [List.filter]. rewrite Vt, (IH V). reflexivity.
  - intros V. rewrite V in R. cbn [negb] in R.
    split; [exact R|]. rewrite R, length_app, L24. reflexivity.
  - intros s. reflexivity.
  - intros e s. reflexivity.
  - intros no_client date s. unfold getHourlyStats, safeAnalyticsOperation.
    rewrite no_client. reflexivity.
  - intros client date s configured. unfold getHourlyStats, safeAnalyticsOperation.
    rewrite configured. split; [destruct (truthy date)|]; reflexivity.
Qed.

Lemma getHourlyStats_buckets_witness :
  hourly ist (Some [0; 1800000; 3600000; 86400000 - 1]) !! 5%nat
    = Some {| Hourly.hour := Num 5; Hourly.visits := Num 2 |} /\
  length (hourly utc (Some [0; 1800000; 3600000; 86400000 - 1])) = 24%nat /\
  hourly utc None !! 23%nat = Some {| Hourly.hour := Num 23; Hourly.visits := Num 0 |} /\
  hourly utc (Some [0; 8640000000000001]) =
    (hourRow utc [0; 8640000000000001] <$> seq 0 24)
    ++ [{| Hourly.hour := NaN; Hourly.visits := NaN |}].
Proof.
  assert (L5 : (5 < 24)%nat) by lia.
  assert (L23 : (23 < 24)%nat) by lia.
  assert (V : forallb valid_time (rows_of (Some [0; 1800000; 3600000; 86400000 - 1])) = true)
    by reflexivity.
  assert (W : forallb valid_time (rows_of (Some [0; 8640000000000001])) = false)
    by reflexivity.
  destruct (getHourlyStats_buckets env_on ist (fun _ => "2026-01-05")
              (Some [0; 1800000; 3600000; 86400000 - 1])) as [A _].
  destruct (getHourlyStats_buckets env_on utc (fun _ => "2026-01-05")
              (Some [0; 1800000; 3600000; 86400000 - 1])) as [_ [_ [B _]]].
  destruct (getHourlyStats_buckets env_on utc (fun _ => "2026-01-05") None) as [C _].
  destruct (getHourlyStats_buckets env_on utc (fun _ => "2026-01-05")
              (Some [0; 8640000000000001])) as [_ [_ [_ [D _]]]].
  split; [|split; [|split]].
  - rewrite (A 5%nat L5). reflexivity.
  - exact (proj1 (proj2 (B V))).
  - rewrite (C 23%nat L23). reflexivity.
  - exact (proj1 (D W)).
Defined.

(** ** The read side: popularity ranking *)

Lemma own_In key counts : own key counts = true <-> In key (List.map fst counts).
Proof.
  unfold own. rewrite existsb_exists. split.
  - intros [[k st] [H E]]. apply String.eqb_eq in E. cbn [fst] in E. subst.
    apply (in_map fst _ _ H).
  - intros H. apply in_map_iff in H. destruct H as [[k st] [E H]].
    exists (k, st). split; [exact H|]. cbn [fst] in *. subst. apply String.eqb_refl.
Qed.

Lemma update_keys key f counts :
  List.map fst (update key f counts) = List.map fst counts.
Proof.
  induction counts as [|[k st] rest IH]; [reflexivity|]. cbn [update].
  destruct (String.eqb k key); cbn [List.map fst]; [reflexivity|rewrite IH; reflexivity].
Qed.

Lemma In_update key f counts k st' :
  List.NoDup (List.map fst counts) -> In (k, st') (update key f counts) ->
  (k <> key /\ In (k, st') counts) \/
  (k = key /\ exists st, In (key, st) counts /\ st' = f st).
Proof.
  induction counts as [|[k0 st0] rest IH]; intros N H; [contradiction H|].
  cbn [List.map fst] in N. apply List.NoDup_cons_iff in N. destruct N as [N0 N].
  cbn [update] in H. destruct (String.eqb k0 key) eqn:E.
  - apply String.eqb_eq in E. subst k0. destruct H as [H|H].
    + injection H as <- <-. right. split; [reflexivity|].
      exists st0. split; [left; reflexivity|reflexivity].
    + left. split; [|right; exact H]. intros ->. apply N0. apply (in_map fst _ _ H).
  - apply String.eqb_neq in E. destruct H as [H|H].
    + injection H as <- <-. left. split; [exact E|left; reflexivity].
    + destruct (IH N H) as [[D I]|[D [st [I F]]]].
      * left. split; [exact D|right; exact I].
      * right. split; [exact D|]. exists st. split; [right; exact I|exact F].
Qed.

(** Of the four event types only [whatsapp] names a counter: the other three
    land on a key of their own. *)
Lemma increment_event e st :
  Stats.views (increment (event_name e) st) = Stats.views st /\
  Stats.calls (increment (event_name e) st) = Stats.calls st /\
  Stats.shares (increment (event_name e) st) = Stats.shares st /\
  Stats.whatsapp (increment (event_name e) st) =
    Stats.whatsapp st + (if is_whatsapp e then 1 else 0).
Proof.
  destruct e; unfold increment; simpl; try destruct (existsb _ _); simpl;
    repeat split; lia.
Qed.

Lemma whatsappCount_snoc k items it :
  whatsappCount k (items ++ [it]) =
  whatsappCount k items
  + (if String.eqb (Item.business_id it) k && is_whatsapp (Item.event_type it)
     then 1 else 0).
Proof.
  unfold whatsappCount. rewrite List.filter_app, length_app. cbn [List.filter].
  destruct (String.eqb (Item.business_id it) k && is_whatsapp (Item.event_type it));
    cbn [length]; lia.
Qed.

Lemma whatsappCount_absent k items :
  ~ In k (List.map Item.business_id items) -> whatsappCount k items = 0.
Proof.
  intros A. unfold whatsappCount.
  induction items as [|it items IH]; [reflexivity|].
  cbn [List.filter]. cbn [List.map] in A.
  destruct (String.eqb (Item.business_id it) k) eqn:E.
  - apply String.eqb_eq in E. contradiction A. left. exact E.
  - cbn [andb]. apply IH. intros H. apply A. right. exact H.
Qed.

Lemma counts_ok_step items counts it :
  counts_ok items counts -> counts_ok (items ++ [it]) (countInteraction counts it).
Proof.
  intros [N [Len [Ent Cov]]]. unfold countInteraction.
  destruct (increment_event (Item.event_type it) zero_stats) as [Z1 [Z2 [Z3 Z4]]].
  destruct (own (Item.business_id it) counts) eqn:O;
    [|destruct (inherited (Item.business_id it)) eqn:Inh].
  - apply own_In in O. split; [|split; [|split]].
    + rewrite update_keys. exact N.
    + rewrite <- (length_map fst), update_keys, length_map, length_app. lia.
    + intros k st' H. rewrite map_app, whatsappCount_snoc, in_app_iff.
      destruct (In_update _ _ _ _ _ N H) as [[D I]|[D [st [I F]]]].
      * destruct (Ent k st' I) as [A [B [C [E [W M]]]]].
        apply not_eq_sym, String.eqb_neq in D. rewrite D. cbn [andb].
        rewrite Z.add_0_r. auto 10.
      * subst k st'. destruct (Ent _ st I) as [A [B [C [E [W M]]]]].
        destruct (increment_event (Item.event_type it) st) as [I1 [I2 [I3 I4]]].
        rewrite I1, I2, I3, I4, String.eqb_refl, W. cbn [andb]. auto 10.
    + intros it' H Inh'. rewrite update_keys. apply in_app_iff in H.
      destruct H as [H|[<-|[]]]; [apply (Cov it' H Inh')|exact O].
  - split; [exact N|]. split; [rewrite length_app; lia|]. split.
    + intros k st H. rewrite map_app, whatsappCount_snoc, in_app_iff.
      destruct (Ent k st H) as [A [B [C [E [W M]]]]].
      assert (D : String.eqb (Item.business_id it) k = false).
      { apply String.eqb_neq. intros <-. congruence. }
      rewrite D. cbn [andb]. rewrite Z.add_0_r. auto 10.
    + intros it' H Inh'. apply in_app_iff in H.
      destruct H as [H|[<-|[]]]; [apply (Cov it' H Inh')|congruence].
  - assert (A : ~ In (Item.business_id it) (List.map fst counts)).
    { intros H. apply own_In in H. congruence. }
    assert (A' : ~ In (Item.business_id it) (List.map Item.business_id items)).
    { intros H. apply in_map_iff in H. destruct H as [it' [E H]].
      apply A. rewrite <- E. apply (Cov it' H). rewrite E. exact Inh. }
    split; [|split; [|split]].
    + rewrite map_app. cbn [List.map fst].
      apply (Permutation_NoDup (Permutation_cons_append _ _)).
      apply List.NoDup_cons; assumption.
    + rewrite !length_app. cbn [length]. lia.
    + intros k st' H. rewrite map_app, whatsappCount_snoc, in_app_iff.
      apply in_app_iff in H. destruct H as [H|[H|[]]].
      * destruct (Ent k st' H) as [B [C [D [E [W M]]]]].
        assert (F : String.eqb (Item.business_id it) k = false).
        { apply String.eqb_neq. intros <-. apply A. apply (in_map fst _ _ H). }
        rewrite F. cbn [andb]. rewrite Z.add_0_r. auto 10.
      * injection H as <- <-.
        rewrite Z1, Z2, Z3, Z4, String.eqb_refl, (whatsappCount_absent _ _ A').
        cbn [andb zero_stats Stats.views Stats.calls Stats.shares Stats.whatsapp List.map].
        repeat split; try reflexivity; [exact Inh|]. right. left. reflexivity.
    + intros it' H Inh'. rewrite map_app, in_app_iff. apply in_app_iff in H.
      destruct H as [H|[<-|[]]]; [left; apply (Cov it' H Inh')|right; left; reflexivity].
Qed.

Lemma counts_ok_fold items :
  counts_ok items (List.fold_left countInteraction items []).
Proof.
  induction items as [|it items IH] using rev_ind.
  - split; [constructor|]. split; [reflexivity|]. split; intros; contradiction.
  - rewrite List.fold_left_app. cbn [List.fold_left]. apply counts_ok_step, IH.
Qed.

Lemma insert_index_perm x l : insert_index x l ≡ₚ x :: l.
Proof.
  induction l as [|y r IH]; [reflexivity|]. cbn [insert_index].
  destruct (index_or_0 y <? index_or_0 x)%N; [|reflexivity].
  rewrite IH. apply perm_swap.
Qed.

Lemma filter_split_perm {A : Type} (f : A -> bool) (l : list A) :
  List.filter f l ++ List.filter (fun x => negb (f x)) l ≡ₚ l.
Proof.
  induction l as [|a l IH]; [reflexivity|]. cbn [List.filter].
  destruct (f a); cbn [negb app].
  - rewrite IH. reflexivity.
  - rewrite <- Permutation_middle, IH. reflexivity.
Qed.

Lemma entries_perm counts : entries counts ≡ₚ counts.
Proof.
  unfold entries.
  assert (S : forall l, List.fold_right insert_index [] l ≡ₚ l).
  { induction l as [|x l IH]; [reflexivity|]. cbn [List.fold_right].
    rewrite insert_index_perm, IH. reflexivity. }
  rewrite S. apply filter_split_perm.
Qed.

Lemma insert_desc_perm x l : insert_desc x l ≡ₚ x :: l.
Proof.
  induction l as [|y r IH]; [reflexivity|]. cbn [insert_desc].
  destruct (Popular.total x <? Popular.total y); [|reflexivity].
  rewrite IH. apply perm_swap.
Qed.

Lemma sort_desc_perm l : sort_desc l ≡ₚ l.
Proof.
  induction l as [|x l IH]; [reflexivity|]. cbn [sort_desc List.fold_right].
  fold (sort_desc l). rewrite insert_desc_perm, IH. reflexivity.
Qed.

Lemma insert_desc_descending x l : descending l -> descending (insert_desc x l).
Proof.
  induction l as [|y r IH]; intros D.
  - split; constructor.
  - destruct D as [F D]. cbn [insert_desc].
    destruct (Popular.total x <? Popular.total y) eqn:E.
    + apply Z.ltb_lt in E. split; [|apply IH, D].
      apply (Permutation_Forall (Permutation_sym (insert_desc_perm x r))).
      constructor; [lia|exact F].
    + apply Z.ltb_ge in E. split; [|split; assumption].
      constructor; [exact E|].
      eapply Forall_impl; [exact F|]. cbv beta. intros z Hz. lia.
Qed.

Lemma sort_desc_descending l : descending (sort_desc l).
Proof.
  induction l as [|x l IH]; [exact I|]. cbn [sort_desc List.fold_right].
  apply insert_desc_descending, IH.
Qed.

Lemma descending_take n : forall l, descending l -> descending (take n l).
Proof.
  induction n as [|n IH]; intros [|x l] D; try exact I.
  destruct D as [F D]. cbn [take descending]. split; [apply Forall_take, F|apply IH, D].
Qed.

Lemma In_take {A : Type} (x : A) n : forall l, In x (take n l) -> In x l.
Proof.
  induction n as [|n IH]; intros [|y l] H; try contradiction H.
  destruct H as [H|H]; [left; exact H|right; apply IH, H].
Qed.

Lemma NoDup_take {A : Type} n : forall l : list A, List.NoDup l -> List.NoDup (take n l).
Proof.
  induction n as [|n IH]; intros [|y l] N; try constructor.
  - apply List.NoDup_cons_iff in N. destruct N as [N0 N].
    intros H. apply N0. apply (In_take _ _ _ H).
  - apply List.NoDup_cons_iff in N. apply IH, N.
Qed.

Lemma slice0_take {A : Type} limit (l : list A) :
  exists n, slice0 limit l = take n l /\ (0 <= limit -> n = Z.to_nat limit).
Proof.
  unfold slice0. destruct (limit <? 0) eqn:E; eexists; (split; [reflexivity|]).
  - apply Z.ltb_lt in E. lia.
  - reflexivity.
Qed.

(** Every row of the ranking comes from an entry of [counts]. *)
Lemma popular_from_counts limit data row :
  In row (popular limit data) ->
  exists st,
    row = popularRow (Popular.business_id row, st) /\
    In (Popular.business_id row, st) (List.fold_left countInteraction (rows_of data) []).
Proof.
  unfold popular. intros H.
  destruct (slice0_take limit
              (sort_desc (List.map popularRow
                            (entries (List.fold_left countInteraction (rows_of data) [])))))
    as [n [E _]].
  rewrite E in H. apply In_take in H.
  apply (Permutation_in _ (sort_desc_perm _)) in H.
  apply in_map_iff in H. destruct H as [[k st] [R H]].
  apply (Permutation_in _ (entries_perm _)) in H.
  exists st. subst row. split; [reflexivity|exact H].
Qed.

(** X19. In the ranking of [getPopularBusinesses] only [whatsapp] events
    count.  The counters are named [views], [calls], [whatsapp] and
    [shares], the event types [view], [call], [whatsapp] and [share]; each
    event increments the key named by its type, so a view, a call or a share
    lands on a key of its own and leaves the counters at zero.  Every row
    returned has [views], [calls] and [shares] equal to 0, and its [total],
    by which the rows are ranked, is the number of [whatsapp] events of that
    business among the rows read. *)
Theorem popular_counts_whatsapp_only (limit : Z) (data : option (list Item.t))
    (row : Popular.t) :
  In row (popular limit data) ->
  Stats.views (Popular.stats row) = 0 /\
  Stats.calls (Popular.stats row) = 0 /\
  Stats.shares (Popular.stats row) = 0 /\
  Stats.whatsapp (Popular.stats row) =
    whatsappCount (Popular.business_id row) (rows_of data) /\
  Popular.total row = whatsappCount (Popular.business_id row) (rows_of data).
Proof.
  intros H. destruct (popular_from_counts limit data row H) as [st [R I]].
  destruct (counts_ok_fold (rows_of data)) as [_ [_ [Ent _]]].
  destruct (Ent _ st I) as [_ [A [B [C [W _]]]]].
  rewrite R. cbn [popularRow Popular.stats Popular.total Popular.business_id fst snd].
  rewrite A, B, C, W. repeat split; lia.
Qed.

Lemma popular_counts_whatsapp_only_witness :
  In {| Popular.business_id := "shop";
        Popular.stats := {| Stats.views := 0; Stats.calls := 0; Stats.whatsapp := 0;
                            Stats.shares := 0; Stats.others := ["view"; "call"] |};
        Popular.total := 0 |}
     (popular 10 (Some sample_items)) /\
  whatsappCount "shop" sample_items = 0.
Proof.
  assert (H : In {| Popular.business_id := "shop";
                    Popular.stats := {| Stats.views := 0; Stats.calls := 0;
                                        Stats.whatsapp := 0; Stats.shares := 0;
                                        Stats.others := ["view"; "call"] |};
                    Popular.total := 0 |}
                 (popular 10 (Some sample_items))).
  { vm_compute. tauto. }
  split; [exact H|].
  destruct (popular_counts_whatsapp_only 10 (Some sample_items) _ H) as [_ [_ [_ [_ T]]]].
  symmetry. exact T.
Defined.

(** X20. The array [getPopularBusinesses] returns is in descending order of
    [total], lists a business at most once, and, for a limit that is not
    negative, has at most [limit] rows (10 when no limit is passed).  Every
    row is a business of the rows read.  A business whose id is the name of
    a member of [Object.prototype] is never listed; every other business is,
    when the limit is at least the number of rows read.  An answer with an
    error gives the empty array and is logged, and without a client no query
    is sent at all. *)
Theorem popular_ranking (env : Env) (limit : Z) (data : option (list Item.t)) :
  let ranking := popular limit data in
  descending ranking /\
  List.NoDup (List.map Popular.business_id ranking) /\
  (0 <= limit -> (length ranking <= Z.to_nat limit)%nat) /\
  (forall row, In row ranking ->
     inherited (Popular.business_id row) = false /\
     In (Popular.business_id row) (List.map Item.business_id (rows_of data))) /\
  (Z.of_nat (length (rows_of data)) <= limit ->
   forall it, In it (rows_of data) -> inherited (Item.business_id it) = false ->
     In (Item.business_id it) (List.map Popular.business_id ranking)) /\
  (forall s, getPopularBusinesses_answered None data None s = (popular 10 data, s)) /\
  (forall l e s, getPopularBusinesses_answered l data (Some e) s = ([], console_error e s)) /\
  (analyticsClient env = None -> forall s, getPopularBusinesses env s = Returns []).
Proof.
  intros ranking.
  destruct (counts_ok_fold (rows_of data)) as [N [Len [Ent Cov]]].
  assert (P : List.map Popular.business_id
                (sort_desc (List.map popularRow
                   (entries (List.fold_left countInteraction (rows_of data) []))))
              ≡ₚ List.map fst (List.fold_left countInteraction (rows_of data) [])).
  { rewrite sort_desc_perm, List.map_map. cbn [popularRow Popular.business_id].
    rewrite entries_perm. reflexivity. }
  assert (L : length (sort_desc (List.map popularRow
                 (entries (List.fold_left countInteraction (rows_of data) []))))
              = length (List.fold_left countInteraction (rows_of data) [])).
  { rewrite <- (length_map Popular.business_id), (Permutation_length P), length_map.
    reflexivity. }
  subst ranking. unfold popular.
  destruct (slice0_take limit
              (sort_desc (List.map popularRow
                            (entries (List.fold_left countInteraction (rows_of data) [])))))
    as [n [E Hn]].
  rewrite E.
  split; [|split; [|split; [|split; [|split; [|split; [|split]]]]]].
  - apply descending_take, sort_desc_descending.
  - rewrite <- List.firstn_map. apply NoDup_take.
    apply (Permutation_NoDup (Permutation_sym P)), N.
  - intros Hl. rewrite (Hn Hl), length_take. lia.
  - intros row H.
    assert (H' : In row (popular limit data)) by (unfold popular; rewrite E; exact H).
    destruct (popular_from_counts limit data row H') as [st [_ I]].
    destruct (Ent _ st I) as [A [_ [_ [_ [_ M]]]]]. split; assumption.
  - intros Hl it Hi Inh.
    rewrite take_ge by (rewrite (Hn ltac:(lia)), L; lia).
    apply (Permutation_in _ (Permutation_sym P)). apply (Cov it Hi Inh).
  - reflexivity.
  - reflexivity.
  - intros no_client s. unfold getPopularBusinesses, safeAnalyticsOperation.
    rewrite no_client. reflexivity.
Qed.

Lemma popular_ranking_witness :
  (length (popular 2 (Some sample_items)) <= Z.to_nat 2)%nat /\
  In "bakery" (List.map Popular.business_id (popular 8 (Some sample_items))) /\
  ~ In "constructor" (List.map Popular.business_id (popular 8 (Some sample_items))).
Proof.
  assert (L2 : 0 <= 2) by lia.
  assert (L8 : Z.of_nat (length (rows_of (Some sample_items))) <= 8) by (vm_compute; discriminate).
  assert (B : In (item "bakery" whatsapp) (rows_of (Some sample_items))).
  { vm_compute. tauto. }
  destruct (popular_ranking env_on 2 (Some sample_items)) as [_ [_ [A _]]].
  destruct (popular_ranking env_on 8 (Some sample_items)) as [_ [_ [_ [M [C _]]]]].
  split; [exact (A L2)|]. split.
  - exact (C L8 (item "bakery" whatsapp) B eq_refl).
  - intros H. apply in_map_iff in H. destruct H as [row [E H]].
    destruct (M row H) as [Inh _]. rewrite E in Inh. discriminate Inh.
Defined.
